(** * Autocatalytic sets and assembly theory: the network engine

    A shallow embedding of [class_AutocatalyticSet.py] and
    [class_AssemblyAnalysis.py]: the recursive random decomposition of a
    final product into a table of reactions, the three catalyst
    assignment strategies, the extraction of subnetworks, the
    autocatalysis predicate and the assembly statistics.

    Conventions of the embedding.
    - A Python [str] is the list of its code points ([Symbol]); [sym]
      reads one off a literal.
    - A Python [set] is a [gset] and the dictionary of subnetworks a
      [gmap].  Where the source iterates over a set, the model iterates
      over its [elements]: an order that is fixed but not specified, as
      Python's is.  The proofs use the members of a set only, never
      their order.
    - The global [random] module is an explicit random source that is
      threaded through the stochastic functions.  The colour map of the
      drawing code also draws from it, but nothing it draws feeds back
      into the engine, so the source here lists the draws of the engine
      only.
    - Exceptions are results: [Raise e].  Python's recursion and [while]
      loops are bounded by fuel, [OutOfFuel] being the result of a bound
      that was too small.
    - Floats are idealised as rationals.  A draw of [random.random()] is
      a multiple of 2^-53 in [0,1), which is exact.  The weights of the
      weighted strategies are not; the proofs use no more of them than
      that they are positive.
    - A tuple of numbers is a list of numbers, so that unpacking one
      into the wrong number of names is an error, as it is in Python. *)

From Stdlib Require Import QArith.
From stdpp Require Import gmap strings list sorting.

Open Scope nat_scope.

(** ** Strings *)

Definition Symbol : Type := list N.

Definition sym (s : string) : Symbol :=
  Ascii.N_of_ascii <$> String.list_ascii_of_string s.

(** [''.join(sorted(s))] *)
Definition sorted (s : Symbol) : Symbol := merge_sort N.le s.

(** ** Results *)

Inductive exn : Type :=
  | ValueError (msg : string)
  | KeyError (key : Symbol)
  | IndexError
  | TypeError
  | ZeroDivisionError.

Inductive outcome (A : Type) : Type :=
  | Ok (a : A)
  | Raise (e : exn)
  | OutOfFuel.
Arguments Ok {A} a.
Arguments Raise {A} e.
Arguments OutOfFuel {A}.

#[global] Instance outcome_ret : MRet outcome := λ A a, Ok a.
#[global] Instance outcome_bind : MBind outcome := λ A B f m,
  match m with
  | Ok a => f a
  | Raise e => Raise e
  | OutOfFuel => OutOfFuel
  end.

(** ** The random source *)

(** The raw draws still to come; an exhausted source keeps drawing 0. *)
Definition Rng : Type := list N.

Definition next_raw (rng : Rng) : N * Rng :=
  match rng with
  | [] => (0%N, [])
  | x :: rng' => (x, rng')
  end.

(** [random.randint(a, b)]: an integer of [a..b], [ValueError] on an
    empty range. *)
Definition randint (a b : Z) (rng : Rng) : outcome (Z * Rng) :=
  if decide (b < a)%Z then Raise (ValueError "empty range for randrange()")
  else let '(x, rng') := next_raw rng in
       Ok ((a + Z.of_N x `mod` (b - a + 1))%Z, rng').

(** [random.random()]: a multiple of 2^-53 in [0,1). *)
Definition random_random (rng : Rng) : Q * Rng :=
  let '(x, rng') := next_raw rng in
  (Qmake (Z.of_N (x `mod` 2 ^ 53)%N) (2 ^ 53)%positive, rng').

(** [random.choice(seq)] *)
Definition random_choice (seq : list Symbol) (rng : Rng) : outcome (Symbol * Rng) :=
  match seq with
  | [] => Raise IndexError
  | _ => let '(x, rng') := next_raw rng in
         match seq !! N.to_nat (x `mod` N.of_nat (length seq))%N with
         | Some e => Ok (e, rng')
         | None => Raise IndexError
         end
  end.

(** [random.choices(population, weights)[0]]: the cumulative weights, a
    draw scaled by their total, and a bisection capped at the last
    index. *)
Fixpoint accumulate (acc : Q) (weights : list Q) : list Q :=
  match weights with
  | [] => []
  | w :: weights' => (acc + w)%Q :: accumulate (acc + w)%Q weights'
  end.

Definition bisect (a : list Q) (x : Q) (hi : nat) : nat :=
  length (filter (λ c, Qle_bool c x = true) (take hi a)).

Definition random_choices (population : list Symbol) (weights : list Q) (rng : Rng)
    : outcome (Symbol * Rng) :=
  let cum_weights := accumulate 0 weights in
  match last cum_weights with
  | None => Raise IndexError
  | Some total =>
    if Qle_bool total 0
    then Raise (ValueError "Total of weights must be greater than zero")
    else
      let '(u, rng') := random_random rng in
      match population !! bisect cum_weights (u * total)%Q (length population - 1) with
      | Some e => Ok (e, rng')
      | None => Raise IndexError
      end
  end.

(** ** Reactions and reaction tables *)

Record Reaction : Type := mkReaction {
  Reaction_id : nat;        (* 'Reaction' *)
  Layer : nat;              (* 'Layer' *)
  Constituent1 : Symbol;    (* 'Constituent 1' *)
  Constituent2 : Symbol;    (* 'Constituent 2' *)
  Catalyst : Symbol;        (* 'Catalyst' *)
  Product : Symbol          (* 'Product' *)
}.

#[global] Instance Reaction_eq_dec : EqDecision Reaction.
Proof. solve_decision. Defined.

Definition set_Catalyst (reaction : Reaction) (catalyst : Symbol) : Reaction :=
  mkReaction (Reaction_id reaction) (Layer reaction) (Constituent1 reaction)
    (Constituent2 reaction) catalyst (Product reaction).

(** A pandas frame: the names of its columns and its rows.  A frame
    made from an empty list of records has no columns at all. *)
Record DataFrame : Type := mkDataFrame {
  columns : list Symbol;
  rows : list Reaction
}.

Definition reaction_columns : list Symbol :=
  [sym "Reaction"; sym "Layer"; sym "Constituent 1"; sym "Constituent 2";
   sym "Catalyst"; sym "Product"].

(** [pd.DataFrame(reactions)] *)
Definition pd_DataFrame (reactions : list Reaction) : DataFrame :=
  match reactions with
  | [] => mkDataFrame [] []
  | _ => mkDataFrame reaction_columns reactions
  end.

(** The content of a string-valued column in one row.  The source reads
    'Reaction' and 'Layer' from the records, never through a frame, so
    the two numeric columns have no content here. *)
Definition cell (name : Symbol) (r : Reaction) : Symbol :=
  if decide (name = sym "Constituent 1") then Constituent1 r
  else if decide (name = sym "Constituent 2") then Constituent2 r
  else if decide (name = sym "Catalyst") then Catalyst r
  else if decide (name = sym "Product") then Product r
  else [].

(** [df[name].tolist()]: [KeyError] when the frame has no such column. *)
Definition getitem (df : DataFrame) (name : Symbol) : outcome (list Symbol) :=
  if decide (name ∈ columns df) then Ok (cell name <$> rows df)
  else Raise (KeyError name).

(** [df[df[name] == value]] *)
Definition select_eq (df : DataFrame) (name value : Symbol) : outcome DataFrame :=
  _ ← getitem df name;
  Ok (mkDataFrame (columns df) (filter (λ r, cell name r = value) (rows df))).

(** [pd.concat([a, b])] *)
Definition pd_concat (a b : DataFrame) : DataFrame :=
  mkDataFrame (columns a ++ filter (λ c, c ∉ columns a) (columns b))
    (rows a ++ rows b).

(** [df.drop_duplicates().reset_index(drop=True)]: the first of equal
    rows is kept. *)
Definition drop_duplicates (df : DataFrame) : DataFrame :=
  mkDataFrame (columns df)
    (foldl (λ kept r, if decide (r ∈ kept) then kept else kept ++ [r]) [] (rows df)).

(** [df.empty] *)
Definition df_empty (df : DataFrame) : bool :=
  bool_decide (rows df = [] ∨ columns df = []).

(** ** Loops *)

(** [for x in l: body], threading the state [s]. *)
Fixpoint for_in {A St : Type} (body : A → St → outcome St) (l : list A) (s : St)
    : outcome St :=
  match l with
  | [] => Ok s
  | x :: l' => s' ← body x s; for_in body l' s'
  end.

(** [for _ in range(n): body] *)
Fixpoint for_range {St : Type} (n : nat) (body : St → outcome St) (s : St)
    : outcome St :=
  match n with
  | 0 => Ok s
  | S n' => s' ← body s; for_range n' body s'
  end.

(** ** class AutocatalyticSet *)

Module AutocatalyticSet.

Record t : Type := mk {
  print_out : bool;
  final_product : Symbol;
  reactions : list Reaction;
  reactions_df : option DataFrame;
  elements : list Symbol;
  catalyst_probability : Q;
  switch_cat : Z;
  subnetwork_dict : gmap Symbol DataFrame
}.

Definition set_reactions (self : t) (rs : list Reaction) : t :=
  mk (print_out self) (final_product self) rs (reactions_df self) (elements self)
    (catalyst_probability self) (switch_cat self) (subnetwork_dict self).

Definition set_reactions_df (self : t) (df : DataFrame) : t :=
  mk (print_out self) (final_product self) (reactions self) (Some df) (elements self)
    (catalyst_probability self) (switch_cat self) (subnetwork_dict self).

Definition set_subnetwork_dict (self : t) (d : gmap Symbol DataFrame) : t :=
  mk (print_out self) (final_product self) (reactions self) (reactions_df self)
    (elements self) (catalyst_probability self) (switch_cat self) d.

(** [__init__]; [list(final_product)] is the list of its one-character
    strings. *)
Definition init (final_product : Symbol) (catalyst_probability : Q) (switch_cat : Z)
    (print_out : bool) : t :=
  mk print_out final_product [] None ((λ c, [c]) <$> final_product)
    catalyst_probability switch_cat ∅.

Definition calculate_weighted_probabilities (elements : list Symbol)
    : outcome (gmap Symbol Q) :=
  match elements with
  | [] => Raise (ValueError "max() arg is an empty sequence")
  | _ =>
    let max_length := max_list (length <$> elements) in
    if decide (max_length = 0) then Raise ZeroDivisionError
    else
      let probabilities : gmap Symbol Q :=
        list_to_map ((λ e, (e, (inject_Z (Z.of_nat (length e))
                                / inject_Z (Z.of_nat max_length))%Q)) <$> elements) in
      let total_weight := foldr Qplus 0%Q (map_to_list probabilities).*2 in
      if Qeq_bool total_weight 0 then Raise ZeroDivisionError
      else Ok ((λ p, (p / total_weight)%Q) <$> probabilities)
  end.

(** [random.choices(possible, weights=[weighted[c] for c in possible])[0]] *)
Definition weighted_choice (weighted_catalysts : gmap Symbol Q)
    (possible_catalysts : list Symbol) (rng : Rng) : outcome (Symbol * Rng) :=
  weights ← mapM (M := outcome) (λ c,
      match weighted_catalysts !! c with
      | Some w => Ok w
      | None => Raise (KeyError c)
      end) possible_catalysts;
  random_choices possible_catalysts weights rng.

(** The loop over the reactions that the three branches of
    [assign_catalysts] share: they differ in how a catalyst is chosen
    among the possible ones ([choose]) and in whether used catalysts are
    excluded and recorded ([no_reuse]).  [assign_one] is the body of the
    loop, [assign_each] the loop. *)
Definition assign_one (choose : list Symbol → Rng → outcome (Symbol * Rng))
    (no_reuse : bool) (probability : Q) (all_possible_catalysts : list Symbol)
    (reaction : Reaction) (used_catalysts : gset Symbol) (rng : Rng)
    : outcome (Reaction * gset Symbol * Rng) :=
  let '(u, rng) := random_random rng in
  if Qle_bool u probability then
    let possible_catalysts :=
      filter (λ e, (e ∉ [Constituent1 reaction; Constituent2 reaction])
                   ∧ (no_reuse = false ∨ e ∉ used_catalysts))
             all_possible_catalysts in
    match possible_catalysts with
    | [] => Ok (set_Catalyst reaction [], used_catalysts, rng)
    | _ =>
      '(chosen, rng) ← choose possible_catalysts rng;
      Ok (set_Catalyst reaction chosen,
          if no_reuse then {[chosen]} ∪ used_catalysts else used_catalysts,
          rng)
    end
  else Ok (set_Catalyst reaction [], used_catalysts, rng).

Fixpoint assign_each (choose : list Symbol → Rng → outcome (Symbol * Rng))
    (no_reuse : bool) (probability : Q) (all_possible_catalysts : list Symbol)
    (reactions : list Reaction) (used_catalysts : gset Symbol) (rng : Rng)
    : outcome (list Reaction * Rng) :=
  match reactions with
  | [] => Ok ([], rng)
  | reaction :: rest =>
    '(reaction, used_catalysts, rng) ←
      assign_one choose no_reuse probability all_possible_catalysts reaction
        used_catalysts rng;
    '(rest, rng) ← assign_each choose no_reuse probability all_possible_catalysts
                     rest used_catalysts rng;
    Ok (reaction :: rest, rng)
  end.

Definition assign_catalysts (self : t) (rng : Rng) : outcome (t * Rng) :=
  let all_elements : gset Symbol := list_to_set (elements self) in
  let all_products : gset Symbol := list_to_set (Product <$> reactions self) in
  let all_possible_catalysts := base.elements (all_elements ∪ all_products) in
  let used_catalysts : gset Symbol := ∅ in
  if decide (switch_cat self = 0%Z) then
    '(rs, rng) ← assign_each random_choice true (catalyst_probability self)
                   all_possible_catalysts (reactions self) used_catalysts rng;
    Ok (set_reactions self rs, rng)
  else if decide (switch_cat self = 1%Z) then
    weighted_catalysts ← calculate_weighted_probabilities all_possible_catalysts;
    '(rs, rng) ← assign_each (weighted_choice weighted_catalysts) true
                   (catalyst_probability self) all_possible_catalysts
                   (reactions self) used_catalysts rng;
    Ok (set_reactions self rs, rng)
  else if decide (switch_cat self = 2%Z) then
    weighted_catalysts ← calculate_weighted_probabilities all_possible_catalysts;
    '(rs, rng) ← assign_each (weighted_choice weighted_catalysts) false
                   (catalyst_probability self) all_possible_catalysts
                   (reactions self) used_catalysts rng;
    Ok (set_reactions self rs, rng)
  else Ok (self, rng).

Definition add_reaction (layer : nat) (reactant1 reactant2 product catalyst : Symbol)
    (reactions : list Reaction) : list Reaction :=
  let reaction_number := length reactions in
  reactions ++ [mkReaction reaction_number layer reactant1 reactant2 catalyst product].

Fixpoint split_product (fuel : nat) (product : Symbol) (layer : nat)
    (reactions : list Reaction) (rng : Rng) : outcome (list Reaction * Rng) :=
  match fuel with
  | 0 => OutOfFuel
  | S fuel' =>
    if decide (length product = 1) then Ok (reactions, rng)
    else
      '(split_index, rng) ← randint 1 (Z.of_nat (length product) - 1) rng;
      let reactant1 := sorted (take (Z.to_nat split_index) product) in
      let reactant2 := sorted (drop (Z.to_nat split_index) product) in
      '(reactions, rng) ← split_product fuel' reactant1 (layer + 1) reactions rng;
      '(reactions, rng) ← split_product fuel' reactant2 (layer + 1) reactions rng;
      Ok (add_reaction layer reactant1 reactant2 product [] reactions, rng)
  end.

Definition build_reactions (fuel : nat) (self : t) (rng : Rng) : outcome (t * Rng) :=
  '(rs, rng) ← split_product fuel (final_product self) 0 (reactions self) rng;
  '(self, rng) ← assign_catalysts (set_reactions self rs) rng;
  Ok (set_reactions_df self (pd_DataFrame (reactions self)), rng).

(** [get_subnetwork], local to [extract_subnetworks]: the body of its
    [for reactant in reactants] loop, its [while reactants] loop, and
    the function itself; [df] is [self.reactions_df]. *)
Definition for_reactant (df : DataFrame) (reactant : Symbol)
    (st : DataFrame * gset Symbol) : outcome (DataFrame * gset Symbol) :=
  let '(subnetwork, next_reactants) := st in
  sub_reactions ← select_eq df (sym "Product") reactant;
  c1 ← getitem sub_reactions (sym "Constituent 1");
  c2 ← getitem sub_reactions (sym "Constituent 2");
  Ok (pd_concat subnetwork sub_reactions, next_reactants ∪ list_to_set (c1 ++ c2)).

Fixpoint while_reactants (fuel : nat) (df subnetwork : DataFrame)
    (reactants : gset Symbol) : outcome DataFrame :=
  match fuel with
  | 0 => if decide (reactants = ∅) then Ok subnetwork else OutOfFuel
  | S fuel' =>
    if decide (reactants = ∅) then Ok subnetwork
    else
      '(subnetwork, next_reactants) ←
        for_in (for_reactant df) (base.elements reactants) (subnetwork, ∅);
      products ← getitem subnetwork (sym "Product");
      while_reactants fuel' df subnetwork (next_reactants ∖ list_to_set products)
  end.

Definition get_subnetwork (fuel : nat) (df : DataFrame) (product : Symbol)
    : outcome DataFrame :=
  subnetwork ← select_eq df (sym "Product") product;
  c1 ← getitem subnetwork (sym "Constituent 1");
  c2 ← getitem subnetwork (sym "Constituent 2");
  subnetwork ← while_reactants fuel df subnetwork (list_to_set (c1 ++ c2));
  Ok (drop_duplicates subnetwork).

(** [process_product], local to [extract_subnetworks];
    [process_product_print_out] is the same function with two [print]
    calls.  [loop_fuel] bounds the loop of [get_subnetwork], [fuel] the
    depth of the recursion. *)
Fixpoint process_product (loop_fuel fuel : nat) (final_product : Symbol)
    (df : DataFrame) (product : Symbol) (subnetwork_dict : gmap Symbol DataFrame)
    : outcome (gmap Symbol DataFrame) :=
  match fuel with
  | 0 => OutOfFuel
  | S fuel' =>
    subnetwork_df ← get_subnetwork loop_fuel df product;
    if df_empty subnetwork_df then Ok subnetwork_dict
    else
      let subnetwork_dict :=
        if decide (product ≠ final_product)
        then <[product := subnetwork_df]> subnetwork_dict
        else subnetwork_dict in
      c1 ← getitem subnetwork_df (sym "Constituent 1");
      c2 ← getitem subnetwork_df (sym "Constituent 2");
      let constituents : gset Symbol := list_to_set (c1 ++ c2) in
      for_in (λ constituent subnetwork_dict,
                if decide (constituent ∉ dom subnetwork_dict)
                then process_product loop_fuel fuel' final_product df constituent
                       subnetwork_dict
                else Ok subnetwork_dict)
        (base.elements constituents) subnetwork_dict
  end.

Definition extract_subnetworks (fuel : nat) (self : t) : outcome t :=
  match reactions_df self with
  | None => Raise TypeError
  | Some df =>
    d ← process_product fuel fuel (final_product self) df (final_product self)
          (subnetwork_dict self);
    Ok (set_subnetwork_dict self d)
  end.

Definition is_autocatalytic_subnetwork (subnetwork_df : DataFrame)
    (check_for_catalysts : bool) : outcome bool :=
  products ← getitem subnetwork_df (sym "Product");
  constituents_1 ← getitem subnetwork_df (sym "Constituent 1");
  constituents_2 ← getitem subnetwork_df (sym "Constituent 2");
  let all_elements : gset Symbol :=
    list_to_set products ∪ list_to_set constituents_1 ∪ list_to_set constituents_2 in
  catalysts ← getitem subnetwork_df (sym "Catalyst");
  let catalysts : gset Symbol := list_to_set catalysts ∖ {[ [] ]} in
  if check_for_catalysts && bool_decide (catalysts = ∅) then Ok false
  else if bool_decide (catalysts ∖ all_elements ≠ ∅) then Ok false
  else Ok true.

End AutocatalyticSet.

(** ** class AssemblyAnalysis *)

(** The values [switch_aut_prob] is given: [False], [True], ["square"],
    or anything else. *)
Inductive PyVal : Type :=
  | PyNone
  | PyBool (b : bool)
  | PyInt (z : Z)
  | PyStr (s : Symbol).

(** [if v:] *)
Definition truthy (v : PyVal) : bool :=
  match v with
  | PyNone => false
  | PyBool b => b
  | PyInt z => bool_decide (z ≠ 0%Z)
  | PyStr s => bool_decide (s ≠ [])
  end.

(** [v == True] *)
Definition eq_True (v : PyVal) : bool :=
  match v with
  | PyBool b => b
  | PyInt z => bool_decide (z = 1%Z)
  | _ => false
  end.

(** [v == s] for a string [s] *)
Definition eq_str (v : PyVal) (s : Symbol) : bool :=
  match v with
  | PyStr s' => bool_decide (s' = s)
  | _ => false
  end.

(** [a, b = tuple] and [a, b, c = tuple] *)
Definition unpack2 (tuple : list nat) : outcome (nat * nat) :=
  match tuple with
  | [a; b] => Ok (a, b)
  | _ :: _ :: _ :: _ => Raise (ValueError "too many values to unpack (expected 2)")
  | _ => Raise (ValueError "not enough values to unpack (expected 2)")
  end.

Definition unpack3 (tuple : list nat) : outcome (nat * nat * nat) :=
  match tuple with
  | [a; b; c] => Ok (a, b, c)
  | _ :: _ :: _ :: _ :: _ => Raise (ValueError "too many values to unpack (expected 3)")
  | _ => Raise (ValueError "not enough values to unpack (expected 3)")
  end.

Module AssemblyAnalysis.

Record t : Type := mk {
  final_product : Symbol;
  n : nat;
  catalyst_probability : Q;
  switch_cat : Z;
  switch_aut_prob : PyVal;
  autocatalytic_subnetwork_counts : list nat;
  subnetwork_counts : list nat;
  max_depths : list nat;
  print_out : bool
}.

Definition init (final_product : Symbol) (n : nat) (catalyst_probability : Q)
    (switch_cat : Z) (switch_aut_prob : PyVal) (print_out : bool) : t :=
  mk final_product n catalyst_probability switch_cat switch_aut_prob [] [] [] print_out.

(** The three [append]s of [find_assembly_list], and the one of
    [find_assembly_index]. *)
Definition append_counts (self : t) (subnetwork_count autocatalytic_subnetwork_count
    max_depth : nat) : t :=
  mk (final_product self) (n self) (catalyst_probability self) (switch_cat self)
    (switch_aut_prob self)
    (autocatalytic_subnetwork_counts self ++ [autocatalytic_subnetwork_count])
    (subnetwork_counts self ++ [subnetwork_count])
    (max_depths self ++ [max_depth]) (print_out self).

Definition append_autocatalytic_subnetwork_count (self : t) (count : nat) : t :=
  mk (final_product self) (n self) (catalyst_probability self) (switch_cat self)
    (switch_aut_prob self) (autocatalytic_subnetwork_counts self ++ [count])
    (subnetwork_counts self) (max_depths self) (print_out self).

(** Returns the 3-tuple [(subnetwork_count, autocatalytic_subnetwork_count,
    max_depth)], and the set with its subnetworks extracted. *)
Definition process_autocatalytic_set (fuel : nat) (autocatalytic_set : AutocatalyticSet.t)
    : outcome (list nat * AutocatalyticSet.t) :=
  autocatalytic_set ← AutocatalyticSet.extract_subnetworks fuel autocatalytic_set;
  let max_depth :=
    foldl (λ max_depth reaction,
             if decide (max_depth < Layer reaction) then Layer reaction else max_depth)
          0 (AutocatalyticSet.reactions autocatalytic_set) in
  let max_depth := max_depth + 1 in
  '(subnetwork_count, autocatalytic_subnetwork_count) ←
    for_in (λ (item : Symbol * DataFrame) (counts : nat * nat),
              let '(subnetwork_count, autocatalytic_subnetwork_count) := counts in
              b ← AutocatalyticSet.is_autocatalytic_subnetwork item.2 true;
              Ok (subnetwork_count + 1,
                  if b : bool then autocatalytic_subnetwork_count + 1
                  else autocatalytic_subnetwork_count))
      (map_to_list (AutocatalyticSet.subnetwork_dict autocatalytic_set)) (0, 0);
  Ok ([subnetwork_count; autocatalytic_subnetwork_count; max_depth], autocatalytic_set).

(** The state of the loops over the trials: [assembly_indices], [self]
    and the random source. *)
Definition trials : Type := list nat * t * Rng.

(** [assembly_indices] after the [if]/[elif]/[else] on [switch_aut_prob]
    that ends a trial of [find_assembly_list]. *)
Definition extend_assembly_indices (switch_aut_prob : PyVal) (assembly_indices : list nat)
    (max_depth whole_set_autocatalytic autocatalytic_subnetwork_count : nat) : list nat :=
  if eq_True switch_aut_prob then
    assembly_indices ++
      replicate (1 + whole_set_autocatalytic + autocatalytic_subnetwork_count) max_depth
  else if eq_str switch_aut_prob (sym "square") then
    assembly_indices ++
      replicate ((1 + whole_set_autocatalytic + autocatalytic_subnetwork_count) ^ 2) max_depth
  else assembly_indices ++ [max_depth].

(** One trial of [find_assembly_index]. *)
Definition find_assembly_index_trial (fuel : nat) (st : trials) : outcome trials :=
  let '(assembly_indices, self, rng) := st in
  let autocatalytic_set :=
    AutocatalyticSet.init (final_product self) (catalyst_probability self)
      (switch_cat self) (print_out self) in
  '(autocatalytic_set, rng) ← AutocatalyticSet.build_reactions fuel autocatalytic_set rng;
  '(tuple, autocatalytic_set) ← process_autocatalytic_set fuel autocatalytic_set;
  '(subnetwork_count, max_depth) ← unpack2 tuple;
  let self := append_autocatalytic_subnetwork_count self subnetwork_count in
  if truthy (switch_aut_prob self)
  then Ok (assembly_indices ++ replicate subnetwork_count max_depth, self, rng)
  else Ok (assembly_indices ++ [max_depth], self, rng).

(** Returns [None] for [float('inf')]. *)
Definition find_assembly_index (fuel : nat) (self : t) (rng : Rng)
    : outcome (option nat * t * Rng) :=
  '(assembly_indices, self, rng) ←
    for_range (n self) (find_assembly_index_trial fuel) ([], self, rng);
  match assembly_indices with
  | [] => Ok (None, self, rng)
  | i :: l => Ok (Some (foldl Nat.min i l), self, rng)
  end.

(** One trial of [find_assembly_list]. *)
Definition find_assembly_list_trial (fuel : nat) (st : trials) : outcome trials :=
  let '(assembly_indices, self, rng) := st in
  let autocatalytic_set :=
    AutocatalyticSet.init (final_product self) (catalyst_probability self)
      (switch_cat self) (print_out self) in
  '(autocatalytic_set, rng) ← AutocatalyticSet.build_reactions fuel autocatalytic_set rng;
  '(tuple, autocatalytic_set) ← process_autocatalytic_set fuel autocatalytic_set;
  '(subnetwork_count, autocatalytic_subnetwork_count, max_depth) ← unpack3 tuple;
  match AutocatalyticSet.reactions_df autocatalytic_set with
  | None => Raise TypeError
  | Some reactions_df =>
    b ← AutocatalyticSet.is_autocatalytic_subnetwork reactions_df true;
    let whole_set_autocatalytic := if b : bool then 1 else 0 in
    let self :=
      append_counts self subnetwork_count autocatalytic_subnetwork_count max_depth in
    Ok (extend_assembly_indices (switch_aut_prob self) assembly_indices max_depth
          whole_set_autocatalytic autocatalytic_subnetwork_count,
        self, rng)
  end.

(** Returns [assembly_indices]; with [return_all_counts] the caller also
    gets the three lists of counts, which are fields of the [self]
    returned here. *)
Definition find_assembly_list (fuel : nat) (self : t) (rng : Rng) : outcome trials :=
  for_range (n self) (find_assembly_list_trial fuel) ([], self, rng).

(** [get_max_layer]: [iterrows] over the frame, reading 'Layer' off
    each row. *)
Definition get_max_layer (subnetwork_df : DataFrame) : outcome nat :=
  max_layer ←
    for_in (λ reaction max_layer,
              if decide (sym "Layer" ∈ columns subnetwork_df)
              then Ok (if decide (max_layer < Layer reaction)
                       then Layer reaction else max_layer)
              else Raise (KeyError (sym "Layer")))
      (rows subnetwork_df) 0;
  Ok (max_layer + 1).

End AssemblyAnalysis.

(** ** The shape of a generated table *)

(** [generated product layer i rs]: [rs] are the reactions that
    [split_product product layer] appends to a table of [i] reactions,
    for some choice of the split points. *)
Inductive generated : Symbol → nat → nat → list Reaction → Prop :=
  | generated_leaf product layer i :
      length product = 1 →
      generated product layer i []
  | generated_split product layer i split_index rs1 rs2 :
      1 ≤ split_index < length product →
      generated (sorted (take split_index product)) (layer + 1) i rs1 →
      generated (sorted (drop split_index product)) (layer + 1) (i + length rs1) rs2 →
      generated product layer i
        (rs1 ++ rs2 ++
         [mkReaction (i + length rs1 + length rs2) layer
            (sorted (take split_index product)) (sorted (drop split_index product))
            [] product]).

(** A reaction with its catalyst taken off. *)
Definition skeleton (r : Reaction) : Reaction := set_Catalyst r [].

(** What every reaction of a generated table looks like: its product is
    cut at some inner position and the two parts are sorted. *)
Definition well_split (r : Reaction) : Prop :=
  ∃ k, 1 ≤ k < length (Product r)
       ∧ Constituent1 r = sorted (take k (Product r))
       ∧ Constituent2 r = sorted (drop k (Product r))
       ∧ Catalyst r = [].

(** What [build_reactions] leaves behind, started on a fresh set. *)
Record built (fp : Symbol) (p : Q) (sc : Z) (po : bool) (s : AutocatalyticSet.t)
    : Prop := {
  built_generated :
    generated fp 0 0 (skeleton <$> AutocatalyticSet.reactions s);
  built_final_product : AutocatalyticSet.final_product s = fp;
  built_reactions_df :
    AutocatalyticSet.reactions_df s =
    Some (pd_DataFrame (AutocatalyticSet.reactions s));
  built_subnetwork_dict : AutocatalyticSet.subnetwork_dict s = ∅;
  built_switch_cat : AutocatalyticSet.switch_cat s = sc;
  built_catalyst_probability : AutocatalyticSet.catalyst_probability s = p
}.

(** A frame cut out of the frame [df]: it has the columns of [df], and
    its rows satisfy [ok_row]. *)
Definition sub_inv (df : DataFrame) (ok_row : Reaction → Prop) (sub : DataFrame) : Prop :=
  columns sub = columns df ∧ Forall ok_row (rows sub).

(** The dictionary of subnetworks of the frame [df]: the final product
    is no key, and each entry is cut out of [df]. *)
Definition dict_inv (final_product : Symbol) (df : DataFrame)
    (d : gmap Symbol DataFrame) : Prop :=
  (final_product ∉ dom d)
  ∧ map_Forall (λ _ sub, sub_inv df (λ r, r ∈ rows df) sub) d.

(** The sets that [is_autocatalytic_subnetwork] compares: the non-empty
    catalysts of a table, and its products and constituents. *)
Definition catalysts_of (df : DataFrame) : gset Symbol :=
  list_to_set (Catalyst <$> rows df) ∖ {[ [] ]}.

Definition symbols_of (df : DataFrame) : gset Symbol :=
  list_to_set (Product <$> rows df) ∪ list_to_set (Constituent1 <$> rows df)
  ∪ list_to_set (Constituent2 <$> rows df).

(** A set of rows of the frame [df] is closed under producers when,
    for every constituent of one of its rows, it holds every row of
    [df] that produces this constituent.  [producer_complete] and
    [pending] are what the loop of [get_subnetwork] keeps on the way:
    the rows that produce one symbol come in together, and a
    constituent that is not yet followed up is a reactant of the next
    round. *)
Definition closed_under_producers (df : DataFrame) (sub : list Reaction) : Prop :=
  ∀ r, r ∈ sub → ∀ c, c = Constituent1 r ∨ c = Constituent2 r →
  ∀ r', r' ∈ rows df → Product r' = c → r' ∈ sub.

Definition producer_complete (df : DataFrame) (sub : list Reaction) : Prop :=
  ∀ r0, r0 ∈ sub → ∀ r', r' ∈ rows df → Product r' = Product r0 → r' ∈ sub.

Definition pending (df : DataFrame) (sub : list Reaction) (reactants : gset Symbol)
    : Prop :=
  ∀ r, r ∈ sub → ∀ c, c = Constituent1 r ∨ c = Constituent2 r →
  c ∈ reactants
  ∨ (∃ r0, r0 ∈ sub ∧ Product r0 = c)
  ∨ (∀ r', r' ∈ rows df → Product r' ≠ c).

(** The rows of the frame [df] that feed [product]: those that produce
    it, and those that produce a constituent of a row that feeds it. *)
Inductive feeds (df : DataFrame) (product : Symbol) : Reaction → Prop :=
  | feeds_product r :
      r ∈ rows df → Product r = product → feeds df product r
  | feeds_constituent r r' :
      feeds df product r → r' ∈ rows df →
      Product r' = Constituent1 r ∨ Product r' = Constituent2 r →
      feeds df product r'.

(** ** Networks used as examples *)

(** The network of "BA". *)
Definition reaction_BA : Reaction :=
  mkReaction 0 0 (sym "B") (sym "A") [] (sym "BA").

(** The network of "ABCD" cut in the middle, built with the unknown
    strategy 7 (no catalysts). *)
Definition reaction_ABCD : Reaction :=
  mkReaction 2 0 (sym "AB") (sym "CD") [] (sym "ABCD").

Definition reactions_ABCD : list Reaction :=
  [mkReaction 0 1 (sym "A") (sym "B") [] (sym "AB");
   mkReaction 1 1 (sym "C") (sym "D") [] (sym "CD");
   reaction_ABCD].

Definition set_ABCD : AutocatalyticSet.t :=
  AutocatalyticSet.mk false (sym "ABCD") reactions_ABCD
    (Some (mkDataFrame reaction_columns reactions_ABCD))
    [sym "A"; sym "B"; sym "C"; sym "D"] 0 7 ∅.

(** Three tables of one reaction, "AB" from "A" and "B": with no
    catalyst, with the catalyst "Z" from outside, and with "AB" itself
    as catalyst. *)
Definition table_AB (catalyst : Symbol) : list Reaction :=
  [mkReaction 0 0 (sym "A") (sym "B") catalyst (sym "AB")].

(** The network of "AB" built with probability 1 and strategy 0: its one
    reaction is catalysed by its own product. *)
Definition set_AB : AutocatalyticSet.t :=
  AutocatalyticSet.mk false (sym "AB") (table_AB (sym "AB"))
    (Some (mkDataFrame reaction_columns (table_AB (sym "AB"))))
    [sym "A"; sym "B"] 1 0 ∅.

(** * Properties *)

Import AutocatalyticSet.

(** ** Sorting *)

Lemma sorted_Permutation (s : Symbol) : sorted s ≡ₚ s.
Proof. apply merge_sort_Permutation. Qed.

Lemma sorted_StronglySorted (s : Symbol) : StronglySorted N.le (sorted s).
Proof. apply StronglySorted_merge_sort; apply _. Qed.

Lemma sorted_length (s : Symbol) : length (sorted s) = length s.
Proof. apply Permutation_length, sorted_Permutation. Qed.

Lemma sorted_elem_of (s : Symbol) (c : N) : c ∈ sorted s ↔ c ∈ s.
Proof. by rewrite sorted_Permutation. Qed.

Lemma sorted_unique (s1 s2 : Symbol) : s1 ≡ₚ s2 → sorted s1 = sorted s2.
Proof.
  intros Hp. apply (StronglySorted_unique N.le); try apply sorted_StronglySorted.
  by rewrite !sorted_Permutation.
Qed.

Lemma sorted_id (s : Symbol) : StronglySorted N.le s → sorted s = s.
Proof.
  intros Hs. apply (StronglySorted_unique N.le); auto using sorted_StronglySorted.
  apply sorted_Permutation.
Qed.

Lemma sorted_halves (s : Symbol) (k : nat) :
  sorted (sorted (take k s) ++ sorted (drop k s)) = sorted s.
Proof.
  apply sorted_unique. rewrite !sorted_Permutation. by rewrite take_drop.
Qed.

Lemma sorted_halves_id (s : Symbol) (k : nat) :
  StronglySorted N.le s → sorted (take k s) ++ sorted (drop k s) = s.
Proof.
  intros Hs. rewrite <- (take_drop k s) in Hs.
  apply StronglySorted_app in Hs as (_ & H1 & H2).
  rewrite !sorted_id by done. apply take_drop.
Qed.

(** ** Results and loops *)

Lemma bind_Ok {A B : Type} (m : outcome A) (f : A → outcome B) (b : B) :
  m ≫= f = Ok b ↔ ∃ a, m = Ok a ∧ f a = Ok b.
Proof.
  destruct m as [a| |]; simpl.
  - split; [by exists a|]. by intros (? & [= <-] & ?).
  - split; [done|]. by intros (? & ? & _).
  - split; [done|]. by intros (? & ? & _).
Qed.

(** ** The random source *)

Lemma randint_Ok (a b : Z) (rng : Rng) :
  (a ≤ b)%Z → ∃ k rng', randint a b rng = Ok (k, rng') ∧ (a ≤ k ≤ b)%Z.
Proof.
  intros Hab. unfold randint. destruct (decide (b < a)%Z); [lia|].
  destruct (next_raw rng) as [x rng']. eexists _, _. split; [done|].
  pose proof (Z.mod_pos_bound (Z.of_N x) (b - a + 1)). lia.
Qed.

Lemma randint_range (a b : Z) (rng : Rng) (k : Z) (rng' : Rng) :
  randint a b rng = Ok (k, rng') → (a ≤ k ≤ b)%Z.
Proof.
  unfold randint. destruct (decide (b < a)%Z); [done|].
  destruct (next_raw rng) as [x rng1]. intros [= <- <-].
  pose proof (Z.mod_pos_bound (Z.of_N x) (b - a + 1)). lia.
Qed.

Lemma randint_empty (a b : Z) (rng : Rng) :
  (b < a)%Z → randint a b rng = Raise (ValueError "empty range for randrange()").
Proof. intros Hab. unfold randint. by destruct (decide (b < a)%Z). Qed.

(** ** The reaction tree *)

Lemma split_product_generated (fuel : nat) (product : Symbol) (layer : nat)
    (reactions : list Reaction) (rng : Rng) (out : list Reaction) (rng' : Rng) :
  split_product fuel product layer reactions rng = Ok (out, rng') →
  ∃ new, out = reactions ++ new ∧ generated product layer (length reactions) new.
Proof.
  revert product layer reactions rng out rng'.
  induction fuel as [|fuel IH]; intros product layer reactions rng out rng' H;
    simpl in H; [done|].
  destruct (decide (length product = 1)) as [Hlen|Hlen].
  - injection H as <- <-. exists []. split; [by rewrite app_nil_r|].
    by constructor.
  - apply bind_Ok in H as ([k rng1] & Hk & H). apply randint_range in Hk.
    apply bind_Ok in H as ([rs1 rng2] & H1 & H).
    apply bind_Ok in H as ([rs2 rng3] & H2 & H).
    injection H as <- <-.
    apply IH in H1 as (new1 & -> & G1). apply IH in H2 as (new2 & -> & G2).
    rewrite length_app in G2. unfold add_reaction.
    eexists. split; [by rewrite <- !app_assoc|].
    replace (length (reactions ++ new1 ++ new2))
      with (length reactions + length new1 + length new2)
      by (rewrite !length_app; lia).
    apply (generated_split product layer (length reactions) (Z.to_nat k)); [lia|done..].
Qed.

Lemma split_product_empty (fuel layer : nat) (reactions : list Reaction) (rng : Rng) :
  split_product (S fuel) [] layer reactions rng =
  Raise (ValueError "empty range for randrange()").
Proof. reflexivity. Qed.

Lemma split_product_total (fuel : nat) (product : Symbol) (layer : nat)
    (reactions : list Reaction) (rng : Rng) :
  product ≠ [] → length product ≤ fuel →
  ∃ out rng', split_product fuel product layer reactions rng = Ok (out, rng').
Proof.
  revert product layer reactions rng.
  induction fuel as [|fuel IH]; intros product layer reactions rng Hne Hlen.
  { destruct product; [done|simpl in Hlen; lia]. }
  simpl. destruct (decide (length product = 1)); [by eexists _, _|].
  assert (2 ≤ length product) by (destruct product as [|? [|]]; simpl in *; done || lia).
  destruct (randint_Ok 1 (Z.of_nat (length product) - 1) rng) as (k & rng1 & -> & Hk);
    [lia|]. simpl.
  destruct (IH (sorted (take (Z.to_nat k) product)) (layer + 1) reactions rng1)
    as (rs1 & rng2 & ->).
  { intros E. apply (f_equal length) in E.
    rewrite sorted_length, length_take in E. simpl in E. lia. }
  { rewrite sorted_length, length_take. lia. }
  simpl.
  destruct (IH (sorted (drop (Z.to_nat k) product)) (layer + 1) rs1 rng2)
    as (rs2 & rng3 & ->).
  { intros E. apply (f_equal length) in E.
    rewrite sorted_length, length_drop in E. simpl in E. lia. }
  { rewrite sorted_length, length_drop. lia. }
  simpl. by eexists _, _.
Qed.

Lemma generated_well_split product layer i rs :
  generated product layer i rs → Forall well_split rs.
Proof.
  induction 1 as [|product layer i k rs1 rs2 Hk _ IH1 _ IH2]; [constructor|].
  rewrite !Forall_app. repeat split; [done..|].
  apply Forall_singleton. by exists k.
Qed.

Lemma well_split_lengths r :
  well_split r →
  1 ≤ length (Constituent1 r) ∧ 1 ≤ length (Constituent2 r)
  ∧ length (Product r) = length (Constituent1 r) + length (Constituent2 r).
Proof.
  intros (k & Hk & -> & -> & _).
  rewrite !sorted_length, length_take, length_drop. lia.
Qed.

Lemma well_split_sorted r :
  well_split r → sorted (Constituent1 r ++ Constituent2 r) = sorted (Product r).
Proof. intros (k & Hk & -> & -> & _). apply sorted_halves. Qed.

Lemma well_split_sorted_id r :
  well_split r → StronglySorted N.le (Product r) →
  Product r = sorted (Constituent1 r ++ Constituent2 r).
Proof.
  intros Hr Hs. rewrite (well_split_sorted r Hr). by rewrite sorted_id.
Qed.

Lemma generated_bounds product layer i rs :
  generated product layer i rs →
  Forall (λ r, layer ≤ Layer r
               ∧ length (Product r) ≤ length product
               ∧ Product r ⊆ product
               ∧ (Layer r = layer → Product r = product)
               ∧ (layer < Layer r → StronglySorted N.le (Product r))) rs.
Proof.
  induction 1 as [|product layer i k rs1 rs2 Hk _ IH1 _ IH2]; [constructor|].
  rewrite !Forall_app. repeat split.
  - eapply Forall_impl; [exact IH1|]. simpl.
    intros r (Hl & Hlen & Hsub & Hroot & Hs).
    rewrite sorted_length, length_take in Hlen.
    repeat split; [lia|lia| |lia|].
    + intros c Hc. apply Hsub in Hc. rewrite sorted_elem_of in Hc.
      by apply (subseteq_take k product).
    + intros _. destruct (decide (Layer r = layer + 1)) as [E|E].
      * rewrite (Hroot E). apply sorted_StronglySorted.
      * apply Hs. lia.
  - eapply Forall_impl; [exact IH2|]. simpl.
    intros r (Hl & Hlen & Hsub & Hroot & Hs).
    rewrite sorted_length, length_drop in Hlen.
    repeat split; [lia|lia| |lia|].
    + intros c Hc. apply Hsub in Hc. rewrite sorted_elem_of in Hc.
      by apply (subseteq_drop k product).
    + intros _. destruct (decide (Layer r = layer + 1)) as [E|E].
      * rewrite (Hroot E). apply sorted_StronglySorted.
      * apply Hs. lia.
  - apply Forall_singleton. simpl. repeat split; [done..|lia].
Qed.

Lemma generated_nil product layer i :
  generated product layer i [] → length product = 1.
Proof.
  intros G. remember [] as rs eqn:E. destruct G as [|? ? ? ? rs1 rs2]; [done|].
  by destruct rs1, rs2.
Qed.

Lemma generated_root product layer i rs :
  generated product layer i rs → length product ≠ 1 →
  ∃ r, r ∈ rs ∧ Product r = product ∧ Layer r = layer.
Proof.
  intros G Hne. destruct G as [|product layer i k rs1 rs2]; [done|].
  eexists. split.
  - rewrite !elem_of_app, list_elem_of_singleton. by right; right.
  - done.
Qed.

Lemma generated_constituents_produced product layer i rs r c :
  generated product layer i rs → r ∈ rs →
  c = Constituent1 r ∨ c = Constituent2 r → 1 < length c →
  ∃ r', r' ∈ rs ∧ Product r' = c.
Proof.
  intros G. revert r c.
  induction G as [|product layer i k rs1 rs2 Hk G1 IH1 G2 IH2];
    intros r c Hr Hc Hlen; [by apply elem_of_nil in Hr|].
  rewrite !elem_of_app, list_elem_of_singleton in Hr.
  destruct Hr as [Hr|[Hr| ->]].
  - destruct (IH1 r c) as (r' & Hr' & E); [done..|]. exists r'. rewrite !elem_of_app. auto.
  - destruct (IH2 r c) as (r' & Hr' & E); [done..|]. exists r'. rewrite !elem_of_app. auto.
  - simpl in Hc. destruct Hc as [-> | ->].
    + destruct (generated_root _ _ _ _ G1) as (r' & Hr' & E & _); [lia|].
      exists r'. rewrite !elem_of_app. auto.
    + destruct (generated_root _ _ _ _ G2) as (r' & Hr' & E & _); [lia|].
      exists r'. rewrite !elem_of_app. auto.
Qed.

Lemma generated_NoDup product layer i rs :
  generated product layer i rs → NoDup product → NoDup (Product <$> rs).
Proof.
  intros G. induction G as [|product layer i k rs1 rs2 Hk G1 IH1 G2 IH2];
    intros Hnd; [constructor|].
  rewrite <- (take_drop k product) in Hnd.
  apply NoDup_app in Hnd as (Hnd1 & Hdisj & Hnd2).
  pose proof (generated_bounds _ _ _ _ G1) as B1.
  pose proof (generated_bounds _ _ _ _ G2) as B2.
  pose proof (generated_well_split _ _ _ _ G1) as W1.
  rewrite Forall_forall in B1, B2, W1.
  rewrite !fmap_app. simpl. apply NoDup_app. split_and!.
  - apply IH1. by rewrite sorted_Permutation.
  - intros x Hx1 Hx2. apply list_elem_of_fmap in Hx1 as (r1 & -> & Hr1).
    destruct (B1 _ Hr1) as (_ & Hlen1 & Hsub1 & _).
    rewrite sorted_length, length_take in Hlen1.
    apply elem_of_app in Hx2 as [Hx2|Hx2].
    + apply list_elem_of_fmap in Hx2 as (r2 & E & Hr2).
      destruct (B2 _ Hr2) as (_ & _ & Hsub2 & _). rewrite <- E in Hsub2.
      destruct (well_split_lengths _ (W1 _ Hr1)) as (? & ? & ?).
      destruct (Product r1) as [|c p] eqn:Ep; [simpl in *; lia|].
      apply (Hdisj c).
      * rewrite <- sorted_elem_of. apply Hsub1. by left.
      * rewrite <- sorted_elem_of. apply Hsub2. by left.
    + apply list_elem_of_singleton in Hx2. rewrite Hx2 in Hlen1. lia.
  - apply NoDup_app. split_and!.
    + apply IH2. by rewrite sorted_Permutation.
    + intros x Hx ->%list_elem_of_singleton.
      apply list_elem_of_fmap in Hx as (r2 & E & Hr2).
      destruct (B2 _ Hr2) as (_ & Hlen2 & _).
      rewrite sorted_length, length_drop, <- E in Hlen2. lia.
    + apply NoDup_singleton.
Qed.

(** ** Catalyst assignment *)

Lemma skeleton_set_Catalyst r c : skeleton (set_Catalyst r c) = skeleton r.
Proof. done. Qed.

Lemma skeleton_fields r :
  Reaction_id (skeleton r) = Reaction_id r ∧ Layer (skeleton r) = Layer r
  ∧ Constituent1 (skeleton r) = Constituent1 r
  ∧ Constituent2 (skeleton r) = Constituent2 r
  ∧ Product (skeleton r) = Product r.
Proof. done. Qed.

Lemma skeleton_id r : Catalyst r = [] → skeleton r = r.
Proof. destruct r; simpl; by intros ->. Qed.

Lemma assign_one_skeleton choose no_reuse p pool r used rng r' used' rng' :
  assign_one choose no_reuse p pool r used rng = Ok (r', used', rng') →
  skeleton r' = skeleton r.
Proof.
  unfold assign_one. destruct (random_random rng) as [u rng1].
  destruct (Qle_bool u p); [|by intros [= <- <- <-]].
  destruct (filter _ pool); [by intros [= <- <- <-]|].
  intros H. apply bind_Ok in H as ([c rng2] & _ & H). by injection H as <- <- <-.
Qed.

Lemma random_random_range (rng : Rng) :
  (0 <= (random_random rng).1)%Q ∧ ((random_random rng).1 < 1)%Q.
Proof.
  unfold random_random. destruct (next_raw rng) as [x rng']. simpl.
  pose proof (N.mod_lt x (2 ^ 53)%N ltac:(done)) as Hlt.
  set (m := (x `mod` 2 ^ 53)%N) in *.
  change (2 ^ 53)%N with 9007199254740992%N in Hlt.
  unfold Qle, Qlt. simpl.
  change (Z.pos (2 ^ 53)) with 9007199254740992%Z. lia.
Qed.

(** The guard of the loop, as the source has it: a reaction whose draw
    is above the probability gets the empty catalyst and nothing else
    is drawn; a draw up to the probability, the probability itself
    included, goes on to the choice of a catalyst. *)
Lemma assign_one_not_attempted choose no_reuse p pool r used rng :
  Qle_bool (random_random rng).1 p = false →
  assign_one choose no_reuse p pool r used rng =
  Ok (set_Catalyst r [], used, (random_random rng).2).
Proof.
  unfold assign_one. destruct (random_random rng) as [u rng1]. simpl. by intros ->.
Qed.

Lemma assign_one_below_zero choose no_reuse p pool r used rng :
  (p < 0)%Q →
  assign_one choose no_reuse p pool r used rng =
  Ok (set_Catalyst r [], used, (random_random rng).2).
Proof.
  intros Hp. apply assign_one_not_attempted.
  destruct (Qle_bool (random_random rng).1 p) eqn:E; [|done].
  apply Qle_bool_iff in E. destruct (random_random_range rng) as [H0 _].
  exfalso. apply (Qlt_irrefl 0).
  eapply Qle_lt_trans; [exact H0|]. by eapply Qle_lt_trans.
Qed.

Lemma assign_each_skeleton choose no_reuse p pool rs used rng rs' rng' :
  assign_each choose no_reuse p pool rs used rng = Ok (rs', rng') →
  skeleton <$> rs' = skeleton <$> rs.
Proof.
  revert used rng rs' rng'.
  induction rs as [|r rs IH]; intros used rng rs' rng' H; simpl in H.
  { by injection H as <- <-. }
  apply bind_Ok in H as ([[r1 used1] rng1] & Hone & H).
  apply bind_Ok in H as ([rest rng2] & Hrest & H). injection H as <- <-.
  rewrite !fmap_cons. f_equal; [by eapply assign_one_skeleton|by eapply IH].
Qed.

Lemma assign_one_total choose no_reuse p pool r used rng :
  (∀ possible rng, possible ≠ [] → possible ⊆ pool →
     ∃ c rng', choose possible rng = Ok (c, rng')) →
  ∃ r' used' rng', assign_one choose no_reuse p pool r used rng = Ok (r', used', rng').
Proof.
  intros Hchoose. unfold assign_one. destruct (random_random rng) as [u rng1].
  destruct (Qle_bool u p); [|by eexists _, _, _].
  destruct (filter _ pool) as [|e possible] eqn:Ef; [by eexists _, _, _|].
  destruct (Hchoose (e :: possible) rng1) as (c & rng2 & ->); [done| |].
  - rewrite <- Ef. intros x Hx. by apply list_elem_of_filter in Hx as [_ ?].
  - simpl. by eexists _, _, _.
Qed.

Lemma assign_each_total choose no_reuse p pool rs used rng :
  (∀ possible rng, possible ≠ [] → possible ⊆ pool →
     ∃ c rng', choose possible rng = Ok (c, rng')) →
  ∃ rs' rng', assign_each choose no_reuse p pool rs used rng = Ok (rs', rng').
Proof.
  intros Hchoose. revert used rng.
  induction rs as [|r rs IH]; intros used rng; simpl; [by eexists _, _|].
  destruct (assign_one_total choose no_reuse p pool r used rng Hchoose)
    as (r1 & used1 & rng1 & ->).
  simpl. destruct (IH used1 rng1) as (rs' & rng' & ->). simpl. by eexists _, _.
Qed.

Lemma random_choice_total (seq : list Symbol) (rng : Rng) :
  seq ≠ [] → ∃ c rng', random_choice seq rng = Ok (c, rng').
Proof.
  intros Hne. unfold random_choice. destruct seq as [|e seq]; [done|].
  destruct (next_raw rng) as [x rng'].
  destruct (lookup_lt_is_Some_2 (e :: seq)
              (N.to_nat (x `mod` N.of_nat (length (e :: seq)))%N)) as [c ->].
  - pose proof (N.mod_lt x (N.of_nat (length (e :: seq)))). simpl in *. lia.
  - by eexists _, _.
Qed.

(** The weighted choice is defined whenever every candidate has a
    positive weight. *)
Lemma Qdiv_pos (a b : Q) : (0 < a)%Q → (0 < b)%Q → (0 < a / b)%Q.
Proof.
  intros Ha Hb. unfold Qdiv. apply Qmult_lt_0_compat; [done|].
  by apply Qinv_lt_0_compat.
Qed.

Lemma inject_nat_pos (n : nat) : 1 ≤ n → (0 < inject_Z (Z.of_nat n))%Q.
Proof. intros Hn. unfold Qlt. simpl. lia. Qed.

Lemma foldr_Qplus_nonneg (l : list Q) :
  Forall (λ q, (0 < q)%Q) l → (0 <= foldr Qplus 0 l)%Q.
Proof.
  induction 1 as [|q l Hq _ IH]; simpl; [apply Qle_refl|].
  apply Qlt_le_weak in Hq. exact (Qplus_le_compat 0 q 0 _ Hq IH).
Qed.

Lemma foldr_Qplus_pos (l : list Q) :
  l ≠ [] → Forall (λ q, (0 < q)%Q) l → (0 < foldr Qplus 0 l)%Q.
Proof.
  intros Hne Hl. destruct Hl as [|q l Hq Hl]; [done|]. simpl.
  exact (Qplus_lt_le_compat 0 q 0 _ Hq (foldr_Qplus_nonneg l Hl)).
Qed.

Lemma accumulate_last (acc : Q) (weights : list Q) :
  weights ≠ [] → Forall (λ q, (0 < q)%Q) weights →
  ∃ total, last (accumulate acc weights) = Some total ∧ (acc < total)%Q.
Proof.
  intros Hne Hw. revert acc.
  induction Hw as [|w weights Hw Hws IH]; [done|]. intros acc. simpl.
  assert (acc < acc + w)%Q as Hacc.
  { apply Qle_lt_trans with (acc + 0)%Q; [|by apply Qplus_lt_r].
    rewrite Qplus_0_r. apply Qle_refl. }
  destruct weights as [|w' weights]; [by exists (acc + w)%Q|].
  destruct (IH ltac:(done) (acc + w)%Q) as (total & E & Hlt).
  exists total. split; [|by eapply Qlt_trans].
  simpl in E |- *. exact E.
Qed.

Lemma random_choices_total (population : list Symbol) (weights : list Q) (rng : Rng) :
  population ≠ [] → length weights = length population →
  Forall (λ q, (0 < q)%Q) weights →
  ∃ c rng', random_choices population weights rng = Ok (c, rng').
Proof.
  intros Hne Hlen Hw. unfold random_choices.
  destruct (accumulate_last 0 weights) as (total & -> & Hpos); [|done|].
  { intros ->. by destruct population. }
  destruct (Qle_bool total 0) eqn:E.
  { apply Qle_bool_iff in E. by apply Qlt_not_le in Hpos. }
  destruct (random_random rng) as [u rng'].
  destruct (lookup_lt_is_Some_2 population
              (bisect (accumulate 0 weights) (u * total)%Q (length population - 1)))
    as [c ->]; [|by eexists _, _].
  unfold bisect.
  pose proof (length_filter (λ c, Qle_bool c (u * total)%Q = true)
                (take (length population - 1) (accumulate 0 weights))) as Hf.
  rewrite length_take in Hf. destruct population; [done|]. simpl in *. lia.
Qed.

Lemma weighted_choice_total (weighted : gmap Symbol Q) (possible : list Symbol) rng :
  possible ≠ [] →
  Forall (λ c, ∃ w, weighted !! c = Some w ∧ (0 < w)%Q) possible →
  ∃ c rng', weighted_choice weighted possible rng = Ok (c, rng').
Proof.
  intros Hne Hw. unfold weighted_choice.
  assert (∃ ws, mapM (M := outcome) (λ c,
                   match weighted !! c with
                   | Some w => Ok w
                   | None => Raise (KeyError c)
                   end) possible = Ok ws
                ∧ length ws = length possible ∧ Forall (λ q, (0 < q)%Q) ws)
    as (ws & -> & Hlen & Hpos).
  { clear Hne. induction Hw as [|c possible (w & Ew & Hw) _ (ws & IH & Hlen & Hpos)].
    - by exists [].
    - exists (w :: ws). simpl. rewrite Ew. simpl. rewrite IH. simpl. split; [done|].
      split; [by rewrite Hlen|by constructor]. }
  simpl. by apply random_choices_total.
Qed.

Lemma calculate_weighted_probabilities_Ok (pool : list Symbol) :
  pool ≠ [] → Forall (λ e, 1 ≤ length e) pool →
  ∃ weighted, calculate_weighted_probabilities pool = Ok weighted
    ∧ Forall (λ c, ∃ w, weighted !! c = Some w ∧ (0 < w)%Q) pool.
Proof.
  intros Hne Hlen. unfold calculate_weighted_probabilities.
  destruct pool as [|e0 pool0] eqn:Epool; [done|]. rewrite <- Epool in *.
  clear Epool e0 pool0.
  set (max_length := max_list (length <$> pool)).
  assert (1 ≤ max_length) as Hmax.
  { destruct pool as [|e pool]; [done|]. apply Forall_cons in Hlen as [He _].
    subst max_length. simpl. lia. }
  destruct (decide (max_length = 0)); [lia|].
  set (probabilities := list_to_map _ : gmap Symbol Q).
  assert (∀ e q, probabilities !! e = Some q → (0 < q)%Q) as Hprob.
  { intros e q Hq. apply elem_of_list_to_map_2 in Hq.
    apply list_elem_of_fmap in Hq as (e' & [= -> ->] & He').
    rewrite Forall_forall in Hlen.
    apply Qdiv_pos; apply inject_nat_pos; auto. }
  assert (∀ e, e ∈ pool → is_Some (probabilities !! e)) as Hdom.
  { intros e He. apply not_eq_None_Some. intros Hn.
    apply not_elem_of_list_to_map in Hn. apply Hn.
    rewrite <- list_fmap_compose. simpl.
    apply list_elem_of_fmap. by exists e. }
  set (total_weight := foldr Qplus 0%Q (map_to_list probabilities).*2).
  assert (0 < total_weight)%Q as Htotal.
  { apply foldr_Qplus_pos.
    - destruct pool as [|e pool]; [done|].
      destruct (Hdom e) as [q Hq]; [by left|].
      apply elem_of_map_to_list in Hq. intros Hnil.
      apply (list_elem_of_fmap_2 snd) in Hq. rewrite Hnil in Hq.
      by apply elem_of_nil in Hq.
    - apply Forall_forall. intros q Hq.
      apply list_elem_of_fmap in Hq as ([e q'] & -> & Hq).
      apply elem_of_map_to_list in Hq. by eapply Hprob. }
  destruct (Qeq_bool total_weight 0) eqn:E.
  { apply Qeq_bool_iff in E. rewrite E in Htotal. by apply Qlt_irrefl in Htotal. }
  eexists. split; [done|]. apply Forall_forall. intros c Hc.
  destruct (Hdom c Hc) as [q Hq]. exists (q / total_weight)%Q.
  rewrite lookup_fmap, Hq. split; [done|]. apply Qdiv_pos; eauto.
Qed.

Lemma set_reactions_id (s : t) : set_reactions s (reactions s) = s.
Proof. by destruct s. Qed.

Lemma assign_catalysts_spec (s : t) (rng : Rng) (s' : t) (rng' : Rng) :
  assign_catalysts s rng = Ok (s', rng') →
  ∃ rs', s' = set_reactions s rs' ∧ skeleton <$> rs' = skeleton <$> reactions s.
Proof.
  unfold assign_catalysts. intros H.
  repeat case_decide.
  - apply bind_Ok in H as ([rs' rng1] & Hloop & [= <- <-]).
    exists rs'. split; [done|]. by eapply assign_each_skeleton.
  - apply bind_Ok in H as (w & _ & H).
    apply bind_Ok in H as ([rs' rng1] & Hloop & [= <- <-]).
    exists rs'. split; [done|]. by eapply assign_each_skeleton.
  - apply bind_Ok in H as (w & _ & H).
    apply bind_Ok in H as ([rs' rng1] & Hloop & [= <- <-]).
    exists rs'. split; [done|]. by eapply assign_each_skeleton.
  - injection H as <- <-. exists (reactions s). by rewrite set_reactions_id.
Qed.

Lemma assign_catalysts_unknown (s : t) (rng : Rng) :
  switch_cat s ≠ 0%Z → switch_cat s ≠ 1%Z → switch_cat s ≠ 2%Z →
  assign_catalysts s rng = Ok (s, rng).
Proof. intros. unfold assign_catalysts. by repeat case_decide. Qed.

Lemma assign_catalysts_total (s : t) (rng : Rng) :
  elements s ≠ [] →
  Forall (λ e, 1 ≤ length e) (elements s) →
  Forall (λ r, 1 ≤ length (Product r)) (reactions s) →
  ∃ s' rng', assign_catalysts s rng = Ok (s', rng').
Proof.
  intros Hne Hel Hprod. unfold assign_catalysts.
  set (pool := base.elements _).
  assert (pool ≠ []) as Hpool.
  { subst pool. intros E. apply elements_empty_inv in E.
    destruct (elements s) as [|e l]; [done|].
    apply (not_elem_of_empty (C := gset Symbol) e). rewrite <- E.
    apply elem_of_union_l, elem_of_list_to_set. left. }
  assert (Forall (λ e, 1 ≤ length e) pool) as Hlen.
  { apply Forall_forall. intros e He. subst pool.
    apply elem_of_elements, elem_of_union in He.
    rewrite !elem_of_list_to_set in He. destruct He as [He|He].
    - rewrite Forall_forall in Hel. auto.
    - apply list_elem_of_fmap in He as (r & -> & Hr).
      rewrite Forall_forall in Hprod. auto. }
  assert (∀ no_reuse weighted,
    Forall (λ c, ∃ w, weighted !! c = Some w ∧ (0 < w)%Q) pool →
    ∃ rs' rng', assign_each (weighted_choice weighted) no_reuse
      (catalyst_probability s) pool (reactions s) ∅ rng = Ok (rs', rng')) as Hweighted.
  { intros no_reuse weighted Hw. apply assign_each_total.
    intros possible rng1 Hp Hsub. apply weighted_choice_total; [done|].
    rewrite Forall_forall in Hw. apply Forall_forall. auto. }
  repeat case_decide.
  - destruct (assign_each_total random_choice true (catalyst_probability s) pool
                (reactions s) ∅ rng) as (rs' & rng' & ->).
    + intros possible rng1 Hp _. by apply random_choice_total.
    + simpl. by eexists _, _.
  - destruct (calculate_weighted_probabilities_Ok pool) as (w & -> & Hw); [done..|].
    simpl. destruct (Hweighted true w Hw) as (rs' & rng' & ->).
    simpl. by eexists _, _.
  - destruct (calculate_weighted_probabilities_Ok pool) as (w & -> & Hw); [done..|].
    simpl. destruct (Hweighted false w Hw) as (rs' & rng' & ->).
    simpl. by eexists _, _.
  - by eexists _, _.
Qed.

(** ** Building a network *)

Lemma generated_skeleton product layer i rs :
  generated product layer i rs → skeleton <$> rs = rs.
Proof.
  intros G. apply generated_well_split in G.
  induction G as [|r rs (k & _ & _ & _ & Hc) _ IH]; [done|].
  by rewrite fmap_cons, IH, skeleton_id.
Qed.

Lemma build_reactions_built fuel fp p sc po rng s rng' :
  build_reactions fuel (init fp p sc po) rng = Ok (s, rng') → built fp p sc po s.
Proof.
  unfold build_reactions. intros H.
  apply bind_Ok in H as ([rs rng1] & Hsplit & H).
  apply bind_Ok in H as ([s1 rng2] & Hassign & [= <- <-]).
  apply split_product_generated in Hsplit as (new & -> & G). simpl in *.
  apply assign_catalysts_spec in Hassign as (rs' & -> & Hsk). simpl in *.
  split; simpl; try done. by rewrite Hsk, (generated_skeleton _ _ _ _ G).
Qed.

Lemma build_reactions_total fuel fp p sc po rng :
  fp ≠ [] → length fp ≤ fuel →
  ∃ s rng', build_reactions fuel (init fp p sc po) rng = Ok (s, rng').
Proof.
  intros Hne Hfuel. unfold build_reactions.
  destruct (split_product_total fuel fp 0 [] rng) as (rs & rng1 & Hsplit); [done..|].
  simpl. rewrite Hsplit. simpl.
  apply split_product_generated in Hsplit as (new & -> & G). simpl in *.
  destruct (assign_catalysts_total (set_reactions (init fp p sc po) new) rng1)
    as (s1 & rng2 & ->); simpl.
  - by destruct fp.
  - apply Forall_fmap, Forall_true. simpl. lia.
  - eapply Forall_impl; [by eapply generated_well_split|].
    intros r Hr. apply well_split_lengths in Hr. lia.
  - by eexists _, _.
Qed.

Lemma build_reactions_empty fuel p sc po rng :
  build_reactions (S fuel) (init [] p sc po) rng =
  Raise (ValueError "empty range for randrange()").
Proof. reflexivity. Qed.

(** ** Frames *)

Lemma cell_Product r : cell (sym "Product") r = Product r.
Proof. reflexivity. Qed.

Lemma cell_Constituent1 r : cell (sym "Constituent 1") r = Constituent1 r.
Proof. reflexivity. Qed.

Lemma cell_Constituent2 r : cell (sym "Constituent 2") r = Constituent2 r.
Proof. reflexivity. Qed.

Lemma cell_Catalyst r : cell (sym "Catalyst") r = Catalyst r.
Proof. reflexivity. Qed.

Lemma getitem_inv df name l :
  getitem df name = Ok l → name ∈ columns df ∧ l = cell name <$> rows df.
Proof. unfold getitem. case_decide; [|done]. by intros [= <-]. Qed.

Lemma getitem_Ok df name :
  name ∈ columns df → getitem df name = Ok (cell name <$> rows df).
Proof. intros. unfold getitem. by case_decide. Qed.

Lemma select_eq_inv df name value out :
  select_eq df name value = Ok out →
  name ∈ columns df
  ∧ out = mkDataFrame (columns df) (filter (λ r, cell name r = value) (rows df)).
Proof.
  unfold select_eq. intros H. apply bind_Ok in H as (l & Hl & [= <-]).
  by apply getitem_inv in Hl as [? _].
Qed.

Lemma select_eq_Ok df name value :
  name ∈ columns df →
  select_eq df name value =
  Ok (mkDataFrame (columns df) (filter (λ r, cell name r = value) (rows df))).
Proof. intros. unfold select_eq. by rewrite getitem_Ok. Qed.

Lemma filter_not_elem_of_self (l : list Symbol) : filter (λ c, c ∉ l) l = [].
Proof.
  destruct (filter (λ c, c ∉ l) l) as [|c l'] eqn:E; [done|].
  assert (c ∈ filter (λ c, c ∉ l) l) as Hc by (rewrite E; left).
  by apply list_elem_of_filter in Hc as [? ?].
Qed.

Lemma pd_concat_columns a b : columns b = columns a → columns (pd_concat a b) = columns a.
Proof.
  intros E. unfold pd_concat. simpl. by rewrite E, filter_not_elem_of_self, app_nil_r.
Qed.

Lemma drop_duplicates_rows df r : r ∈ rows (drop_duplicates df) ↔ r ∈ rows df.
Proof.
  unfold drop_duplicates. simpl.
  assert (∀ l kept, r ∈ foldl (λ kept r, if decide (r ∈ kept) then kept else kept ++ [r])
                          kept l ↔ r ∈ kept ∨ r ∈ l) as H.
  { induction l as [|x l IH]; intros kept; simpl.
    - rewrite elem_of_nil. tauto.
    - rewrite IH, elem_of_cons. case_decide.
      + split; [tauto|]. intros [?|[->|?]]; auto.
      + rewrite elem_of_app, list_elem_of_singleton. tauto. }
  rewrite H, elem_of_nil. tauto.
Qed.

(** ** Loops *)

Lemma for_in_inv {A St : Type} (body : A → St → outcome St) (I : St → Prop)
    (l : list A) (s s' : St) :
  (∀ x s s', x ∈ l → body x s = Ok s' → I s → I s') →
  for_in body l s = Ok s' → I s → I s'.
Proof.
  revert s. induction l as [|x l IH]; intros s Hbody H Hs; simpl in H.
  { by injection H as <-. }
  apply bind_Ok in H as (s1 & H1 & H).
  apply (IH s1); [|done|].
  - intros y t t' Hy. apply Hbody. by right.
  - eapply Hbody; [by left|done..].
Qed.

Lemma for_in_total {A St : Type} (body : A → St → outcome St) (I : St → Prop)
    (l : list A) (s : St) :
  (∀ x s, x ∈ l → I s → ∃ s', body x s = Ok s' ∧ I s') →
  I s → ∃ s', for_in body l s = Ok s' ∧ I s'.
Proof.
  revert s. induction l as [|x l IH]; intros s Hbody Hs; simpl; [by exists s|].
  destruct (Hbody x s) as (s1 & -> & Hs1); [by left|done|]. simpl.
  apply IH; [|done]. intros y t Hy. apply Hbody. by right.
Qed.


(** ** Subnetworks *)

Section subnetwork.
Variables (df : DataFrame) (ok_row : Reaction → Prop) (ok_sym : Symbol → Prop).
Hypothesis closed : ∀ r,
  r ∈ rows df → ok_sym (Product r) →
  ok_row r ∧ ok_sym (Constituent1 r) ∧ ok_sym (Constituent2 r).

Lemma select_Product_inv product out :
  select_eq df (sym "Product") product = Ok out → ok_sym product →
  sub_inv df ok_row out
  ∧ ∀ c, c ∈ (Constituent1 <$> rows out) ++ (Constituent2 <$> rows out) → ok_sym c.
Proof using closed.
  intros H Hp. apply select_eq_inv in H as [_ ->]. simpl.
  assert (∀ r, r ∈ filter (λ r, cell (sym "Product") r = product) (rows df) →
               ok_row r ∧ ok_sym (Constituent1 r) ∧ ok_sym (Constituent2 r)) as Hr.
  { intros r [E Hr]%list_elem_of_filter. rewrite cell_Product in E.
    apply closed; [done|by rewrite E]. }
  split; [split; [done|]|].
  - apply Forall_forall. intros r ?. by apply Hr.
  - intros c [Hc|Hc]%elem_of_app; apply list_elem_of_fmap in Hc as (r & -> & ?);
      by apply Hr.
Qed.

Lemma for_reactant_inv reactant sub next sub' next' :
  for_reactant df reactant (sub, next) = Ok (sub', next') →
  ok_sym reactant →
  sub_inv df ok_row sub ∧ (∀ c, c ∈ next → ok_sym c) →
  sub_inv df ok_row sub' ∧ (∀ c, c ∈ next' → ok_sym c).
Proof using closed.
  unfold for_reactant. intros H Hr [[Hcol Hrows] Hnext].
  apply bind_Ok in H as (sel & Hsel & H).
  apply bind_Ok in H as (c1 & [_ ->]%getitem_inv & H).
  apply bind_Ok in H as (c2 & [_ ->]%getitem_inv & [= <- <-]).
  apply select_Product_inv in Hsel as [[Hcol' Hrows'] Hc]; [|done].
  split; [split|].
  - rewrite pd_concat_columns; congruence.
  - simpl. by apply Forall_app.
  - intros c [?|Hin]%elem_of_union; [by auto|]. apply Hc.
    apply elem_of_list_to_set in Hin.
    revert Hin. rewrite !elem_of_app, !list_elem_of_fmap.
    intros [(r & -> & ?)|(r & -> & ?)]; [left|right]; exists r;
      by rewrite ?cell_Constituent1, ?cell_Constituent2.
Qed.

Lemma while_reactants_inv fuel sub reactants out :
  while_reactants fuel df sub reactants = Ok out →
  sub_inv df ok_row sub → (∀ c, c ∈ reactants → ok_sym c) →
  sub_inv df ok_row out.
Proof using closed.
  revert sub reactants. induction fuel as [|fuel IH]; intros sub reactants H Hsub Hr;
    simpl in H; case_decide; try (by injection H as <-); try done.
  apply bind_Ok in H as ([sub1 next] & Hfor & H).
  apply bind_Ok in H as (products & _ & H).
  apply (for_in_inv _ (λ st, sub_inv df ok_row st.1 ∧ ∀ c, c ∈ st.2 → ok_sym c))
    in Hfor as [Hsub1 Hnext].
  - eapply IH; [done..|]. intros c [? _]%elem_of_difference. by apply Hnext.
  - intros reactant [sub2 next2] [sub3 next3] Hin Hbody. simpl.
    eapply for_reactant_inv; [done|]. apply Hr. by apply elem_of_elements.
  - simpl. split; [done|]. intros c. by rewrite elem_of_empty.
Qed.

Lemma get_subnetwork_inv fuel product out :
  get_subnetwork fuel df product = Ok out → ok_sym product →
  sub_inv df ok_row out.
Proof using closed.
  unfold get_subnetwork. intros H Hp.
  apply bind_Ok in H as (sel & Hsel & H).
  apply bind_Ok in H as (c1 & [_ ->]%getitem_inv & H).
  apply bind_Ok in H as (c2 & [_ ->]%getitem_inv & H).
  apply bind_Ok in H as (sub & Hwhile & [= <-]).
  apply select_Product_inv in Hsel as [Hsub Hc]; [|done].
  apply while_reactants_inv in Hwhile as [Hcol Hrows]; [|done|].
  - split; [done|]. apply Forall_forall. intros r Hr.
    rewrite drop_duplicates_rows in Hr. rewrite Forall_forall in Hrows. auto.
  - intros c Hin%elem_of_list_to_set. apply Hc.
    revert Hin. rewrite !elem_of_app, !list_elem_of_fmap.
    intros [(r & -> & ?)|(r & -> & ?)]; [left|right]; exists r;
      by rewrite ?cell_Constituent1, ?cell_Constituent2.
Qed.
End subnetwork.

Lemma process_product_inv loop_fuel fuel fp df product d d' :
  process_product loop_fuel fuel fp df product d = Ok d' →
  dict_inv fp df d → dict_inv fp df d'.
Proof.
  revert product d d'. induction fuel as [|fuel IH]; intros product d d' H Hd;
    simpl in H; [done|].
  apply bind_Ok in H as (sub & Hsub & H).
  apply (get_subnetwork_inv df (λ r, r ∈ rows df) (λ _, True)
           (λ r Hr _, conj Hr (conj I I))) in Hsub; [|done].
  destruct (df_empty sub); [by injection H as <-|].
  apply bind_Ok in H as (c1 & _ & H). apply bind_Ok in H as (c2 & _ & H).
  assert (dict_inv fp df (if decide (product ≠ fp) then <[product:=sub]> d else d))
    as Hd1.
  { destruct Hd as [Hdom Hall]. case_decide; [|done]. split.
    - rewrite dom_insert, elem_of_union, elem_of_singleton.
      intros [E|E]; [by symmetry in E|done].
    - by apply map_Forall_insert_2. }
  eapply (for_in_inv _ (dict_inv fp df)); [|exact H|exact Hd1].
  intros c d1 d2 _ Hbody Hd2. simpl in Hbody.
  destruct (decide (c ∉ dom d1)); [exact (IH _ _ _ Hbody Hd2)|by injection Hbody as <-].
Qed.

Section extraction_total.
Variable df : DataFrame.
Hypothesis df_columns : columns df = reaction_columns.
Hypothesis df_shrinking : ∀ r,
  r ∈ rows df →
  length (Constituent1 r) < length (Product r)
  ∧ length (Constituent2 r) < length (Product r).

Lemma column_elem_of name sub :
  name ∈ reaction_columns → columns sub = columns df → name ∈ columns sub.
Proof using df_columns. intros ? ->. by rewrite df_columns. Qed.

Lemma Product_column : sym "Product" ∈ reaction_columns.
Proof using Type. apply list_elem_of_In. simpl. auto 10. Qed.

Lemma Constituent1_column : sym "Constituent 1" ∈ reaction_columns.
Proof using Type. apply list_elem_of_In. simpl. auto 10. Qed.

Lemma Constituent2_column : sym "Constituent 2" ∈ reaction_columns.
Proof using Type. apply list_elem_of_In. simpl. auto 10. Qed.

Lemma Catalyst_column : sym "Catalyst" ∈ reaction_columns.
Proof using Type. apply list_elem_of_In. simpl. auto 10. Qed.

Lemma for_reactant_total (bound : nat) reactant sub next :
  length reactant ≤ bound →
  columns sub = columns df → (∀ c, c ∈ next → length c < bound) →
  ∃ sub' next', for_reactant df reactant (sub, next) = Ok (sub', next')
    ∧ columns sub' = columns df ∧ (∀ c, c ∈ next' → length c < bound).
Proof using df_columns df_shrinking.
  intros Hr Hcol Hnext. unfold for_reactant.
  rewrite select_eq_Ok by (by eapply column_elem_of; [apply Product_column|]).
  simpl. rewrite !getitem_Ok
    by (by eapply column_elem_of; [apply Constituent1_column || apply Constituent2_column|]).
  simpl. eexists _, _. split; [done|]. split.
  - by rewrite pd_concat_columns.
  - intros c [?|Hin]%elem_of_union; [by auto|].
    apply elem_of_list_to_set in Hin. revert Hin.
    rewrite !elem_of_app, !list_elem_of_fmap.
    intros [(r & -> & Hin)|(r & -> & Hin)];
      apply list_elem_of_filter in Hin as [E Hin]; rewrite cell_Product in E;
      destruct (df_shrinking r Hin); rewrite ?cell_Constituent1, ?cell_Constituent2;
      rewrite E in *; lia.
Qed.

Lemma while_reactants_total fuel sub reactants :
  columns sub = columns df → (∀ c, c ∈ reactants → length c < fuel) →
  ∃ out, while_reactants fuel df sub reactants = Ok out.
Proof using df_columns df_shrinking.
  revert sub reactants. induction fuel as [|fuel IH]; intros sub reactants Hcol Hr;
    simpl; case_decide; try by eexists.
  { destruct (set_choose_L reactants) as [c Hc]; [done|]. apply Hr in Hc. lia. }
  destruct (for_in_total (for_reactant df)
              (λ st, columns st.1 = columns df ∧ ∀ c, c ∈ st.2 → length c < fuel)
              (base.elements reactants) (sub, ∅)) as ([sub1 next] & -> & Hcol1 & Hnext).
  - intros reactant [sub2 next2] Hin [Hcol2 Hnext2]. simpl in Hcol2, Hnext2.
    apply elem_of_elements, Hr in Hin.
    destruct (for_reactant_total fuel reactant sub2 next2)
      as (sub3 & next3 & E & ? & ?); [lia|done..|].
    by exists (sub3, next3).
  - simpl. split; [done|]. intros c. by rewrite elem_of_empty.
  - simpl in *. rewrite getitem_Ok
      by (by eapply column_elem_of; [apply Product_column|]).
    simpl. apply IH; [done|]. intros c [? _]%elem_of_difference. auto.
Qed.

Lemma get_subnetwork_total fuel product :
  length product ≤ fuel → ∃ out, get_subnetwork fuel df product = Ok out.
Proof using df_columns df_shrinking.
  intros Hfuel. unfold get_subnetwork.
  rewrite select_eq_Ok by (rewrite df_columns; apply Product_column).
  simpl. rewrite !getitem_Ok
    by (simpl; rewrite df_columns;
        apply Constituent1_column || apply Constituent2_column).
  simpl.
  edestruct while_reactants_total as [out ->]; [| |by eexists]; [done|].
  intros c Hin%elem_of_list_to_set. revert Hin.
  rewrite !elem_of_app, !list_elem_of_fmap. simpl.
  intros [(r & -> & Hin)|(r & -> & Hin)];
    apply list_elem_of_filter in Hin as [E Hin]; rewrite cell_Product in E;
    destruct (df_shrinking r Hin); rewrite ?cell_Constituent1, ?cell_Constituent2;
    rewrite E in *; lia.
Qed.

Lemma process_product_total loop_fuel fuel fp product d :
  length product ≤ loop_fuel → length product < fuel →
  ∃ d', process_product loop_fuel fuel fp df product d = Ok d'.
Proof using df_columns df_shrinking.
  revert product d. induction fuel as [|fuel IH]; intros product d Hloop Hfuel;
    [lia|]. simpl.
  destruct (get_subnetwork_total loop_fuel product) as [sub Hsub]; [done|].
  rewrite Hsub. simpl.
  apply (get_subnetwork_inv df
           (λ r, r ∈ rows df ∧ length (Product r) ≤ length product)
           (λ c, length c ≤ length product)) in Hsub as [Hcol Hrows]; [| |done].
  2:{ intros r Hr Hlen. destruct (df_shrinking r Hr). split; [done|lia]. }
  destruct (df_empty sub); [by eexists|].
  rewrite !getitem_Ok
    by (by eapply column_elem_of;
        [apply Constituent1_column || apply Constituent2_column|]).
  simpl.
  match goal with
  | |- ∃ d', for_in ?body ?l ?s = Ok d' =>
      destruct (for_in_total body (λ _, True) l s) as (d' & Hd' & _);
        [|done|by exists d']
  end.
  intros c d1 Hin _. simpl. destruct (decide (c ∉ dom d1)); [|by eexists].
  edestruct IH as [d2 ->]; [| |by eexists].
  - apply elem_of_elements, elem_of_list_to_set in Hin. revert Hin.
    rewrite !elem_of_app, !list_elem_of_fmap. rewrite Forall_forall in Hrows.
    intros [(r & -> & Hin)|(r & -> & Hin)]; destruct (Hrows r Hin) as [Hr ?];
      destruct (df_shrinking r Hr); rewrite ?cell_Constituent1, ?cell_Constituent2;
      lia.
  - apply elem_of_elements, elem_of_list_to_set in Hin. revert Hin.
    rewrite !elem_of_app, !list_elem_of_fmap. rewrite Forall_forall in Hrows.
    intros [(r & -> & Hin)|(r & -> & Hin)]; destruct (Hrows r Hin) as [Hr ?];
      destruct (df_shrinking r Hr); rewrite ?cell_Constituent1, ?cell_Constituent2;
      lia.
Qed.
End extraction_total.

(** ** The frame of a built network *)

Lemma generated_leaf_nil product layer i rs :
  generated product layer i rs → length product = 1 → rs = [].
Proof. intros G Hlen. destruct G; [done|lia]. Qed.

Lemma built_leaf fp p sc po s :
  built fp p sc po s → length fp = 1 →
  reactions s = [] ∧ reactions_df s = Some (mkDataFrame [] []).
Proof.
  intros B Hlen. pose proof (built_generated _ _ _ _ _ B) as G.
  apply generated_leaf_nil in G; [|done]. apply fmap_nil_inv in G.
  split; [done|]. by rewrite (built_reactions_df _ _ _ _ _ B), G.
Qed.

Lemma built_frame fp p sc po s :
  built fp p sc po s → 2 ≤ length fp →
  reactions s ≠ []
  ∧ reactions_df s = Some (mkDataFrame reaction_columns (reactions s))
  ∧ ∀ r, r ∈ reactions s →
      length (Constituent1 r) < length (Product r)
      ∧ length (Constituent2 r) < length (Product r).
Proof.
  intros B Hlen. pose proof (built_generated _ _ _ _ _ B) as G.
  assert (reactions s ≠ []) as Hne.
  { intros E. rewrite E in G. apply generated_nil in G. lia. }
  split; [done|]. split.
  - rewrite (built_reactions_df _ _ _ _ _ B). by destruct (reactions s).
  - intros r Hr. apply generated_well_split in G. rewrite Forall_forall in G.
    destruct (well_split_lengths (skeleton r)) as (? & ? & ?).
    + apply G, list_elem_of_fmap. by exists r.
    + simpl in *. lia.
Qed.

(** ** The autocatalysis predicate *)

Lemma is_autocatalytic_subnetwork_Ok df check :
  columns df = reaction_columns →
  is_autocatalytic_subnetwork df check =
  Ok (negb (check && bool_decide (catalysts_of df = ∅))
      && bool_decide (catalysts_of df ⊆ symbols_of df)).
Proof.
  intros Hcol. unfold is_autocatalytic_subnetwork.
  rewrite !getitem_Ok
    by (rewrite Hcol; apply Product_column || apply Constituent1_column
        || apply Constituent2_column || apply Catalyst_column).
  simpl.
  replace (list_to_set (cell (sym "Catalyst") <$> rows df) ∖ {[ [] ]})
    with (catalysts_of df) by done.
  replace (list_to_set (cell (sym "Product") <$> rows df)
           ∪ list_to_set (cell (sym "Constituent 1") <$> rows df)
           ∪ list_to_set (cell (sym "Constituent 2") <$> rows df))
    with (symbols_of df) by done.
  destruct (check && bool_decide (catalysts_of df = ∅)); [done|]. simpl.
  destruct (decide (catalysts_of df ⊆ symbols_of df)) as [Hsub|Hsub].
  - rewrite (bool_decide_eq_true_2 _ Hsub), bool_decide_eq_false_2; [done|].
    intros Hne. apply Hne. by apply subseteq_empty_difference_L.
  - rewrite (bool_decide_eq_false_2 _ Hsub), bool_decide_eq_true_2; [done|].
    intros E. apply Hsub. by apply empty_difference_subseteq_L.
Qed.

(** ** Analysing a built network *)

Lemma dict_inv_empty fp df : dict_inv fp df ∅.
Proof.
  split; [|apply map_Forall_empty]. rewrite dom_empty_L. apply not_elem_of_empty.
Qed.

Lemma extract_subnetworks_built fuel fp p sc po s :
  built fp p sc po s → 2 ≤ length fp → length fp < fuel →
  ∃ d, extract_subnetworks fuel s = Ok (set_subnetwork_dict s d)
       ∧ dict_inv fp (mkDataFrame reaction_columns (reactions s)) d.
Proof.
  intros B Hlen Hfuel. destruct (built_frame _ _ _ _ _ B Hlen) as (Hne & Hdf & Hshrink).
  unfold extract_subnetworks. rewrite Hdf.
  rewrite (built_final_product _ _ _ _ _ B), (built_subnetwork_dict _ _ _ _ _ B).
  destruct (process_product_total (mkDataFrame reaction_columns (reactions s))
              eq_refl Hshrink fuel fuel fp fp ∅) as [d Hd]; [lia..|].
  rewrite Hd. simpl. exists d. split; [done|].
  eapply process_product_inv; [exact Hd|apply dict_inv_empty].
Qed.

Lemma process_autocatalytic_set_built fuel fp p sc po s :
  built fp p sc po s → 2 ≤ length fp → length fp < fuel →
  ∃ subnetwork_count autocatalytic_subnetwork_count max_depth d,
    AssemblyAnalysis.process_autocatalytic_set fuel s =
    Ok ([subnetwork_count; autocatalytic_subnetwork_count; max_depth],
        set_subnetwork_dict s d)
    ∧ dict_inv fp (mkDataFrame reaction_columns (reactions s)) d.
Proof.
  intros B Hlen Hfuel.
  destruct (extract_subnetworks_built fuel _ _ _ _ _ B Hlen Hfuel) as (d & Hd & Hinv).
  unfold AssemblyAnalysis.process_autocatalytic_set. rewrite Hd. simpl.
  match goal with
  | |- context [for_in ?body ?l ?s] =>
      destruct (for_in_total body (λ _, True) l s) as ([n1 n2] & -> & _); [|done|]
  end.
  - intros [k sub] [n1 n2] Hin _. simpl.
    apply elem_of_map_to_list in Hin. destruct Hinv as [_ Hall].
    apply Hall in Hin as [Hcol _]. simpl in Hcol.
    rewrite is_autocatalytic_subnetwork_Ok by done. simpl. by eexists.
  - simpl. by eexists _, _, _, d.
Qed.

Lemma for_range_Raise {St : Type} (n : nat) (body : St → outcome St) (s : St) e :
  body s = Raise e → for_range (S n) body s = Raise e.
Proof. intros H. simpl. by rewrite H. Qed.

Lemma find_assembly_index_trial_Raise fuel (self : AssemblyAnalysis.t)
    (assembly_indices : list nat) (rng : Rng) :
  2 ≤ length (AssemblyAnalysis.final_product self) →
  length (AssemblyAnalysis.final_product self) < fuel →
  AssemblyAnalysis.find_assembly_index_trial fuel (assembly_indices, self, rng) =
  Raise (ValueError "too many values to unpack (expected 2)").
Proof.
  intros Hlen Hfuel. unfold AssemblyAnalysis.find_assembly_index_trial.
  destruct (build_reactions_total fuel (AssemblyAnalysis.final_product self)
              (AssemblyAnalysis.catalyst_probability self)
              (AssemblyAnalysis.switch_cat self) (AssemblyAnalysis.print_out self) rng)
    as (s & rng' & Hbuild); [by intros E; rewrite E in Hlen; simpl in Hlen; lia|lia|].
  rewrite Hbuild. simpl. apply build_reactions_built in Hbuild.
  destruct (process_autocatalytic_set_built fuel _ _ _ _ _ Hbuild Hlen Hfuel)
    as (n1 & n2 & n3 & d & -> & _).
  reflexivity.
Qed.

(** * The claims *)

(** ** C1: products and constituents *)

(** C1, as stated, fails: a final product that is not sorted is
    recorded as it is given.  For "BA" (one split, no catalyst drawn)
    the only reaction has product "BA", while its sorted constituents
    concatenate and sort to "AB". *)
Lemma build_reactions_root_unsorted :
  (∃ s, build_reactions 2 (init (sym "BA") (1 # 2) 0 false) [0; 2 ^ 53 - 1]%N = Ok (s, [])
        ∧ reactions s = [reaction_BA])
  ∧ sorted (Constituent1 reaction_BA ++ Constituent2 reaction_BA) = sym "AB"
  ∧ Product reaction_BA ≠ sorted (Constituent1 reaction_BA ++ Constituent2 reaction_BA).
Proof.
  split; [|split].
  - eexists. split; [vm_compute; reflexivity|reflexivity].
  - vm_compute. reflexivity.
  - vm_compute. discriminate.
Qed.

(** C1, amended: for every non-empty final product and every random
    source the build returns a table in which every reaction's product
    is a rearrangement of its two constituents put together (both sort
    to the same string); the product equals the sorted concatenation of
    the constituents for every reaction below the root (layer other than
    0), and for the root too when the final product is sorted; the root
    (layer 0) has the final product as given. *)
Theorem build_reactions_products fuel fp p sc po rng :
  fp ≠ [] → length fp ≤ fuel →
  ∃ s rng',
    build_reactions fuel (init fp p sc po) rng = Ok (s, rng')
    ∧ ∀ r, r ∈ reactions s →
        sorted (Product r) = sorted (Constituent1 r ++ Constituent2 r)
        ∧ (Layer r ≠ 0 ∨ sorted fp = fp →
           Product r = sorted (Constituent1 r ++ Constituent2 r))
        ∧ (Layer r = 0 → Product r = fp).
Proof.
  intros Hne Hfuel.
  destruct (build_reactions_total fuel fp p sc po rng Hne Hfuel) as (s & rng' & Hbuild).
  exists s, rng'. split; [done|]. intros r Hr.
  apply build_reactions_built in Hbuild.
  pose proof (built_generated _ _ _ _ _ Hbuild) as G.
  assert (skeleton r ∈ skeleton <$> reactions s) as Hsk
    by (apply list_elem_of_fmap; by exists r).
  pose proof (generated_well_split _ _ _ _ G) as W.
  pose proof (generated_bounds _ _ _ _ G) as B.
  rewrite Forall_forall in W, B.
  specialize (W _ Hsk). destruct (B _ Hsk) as (_ & _ & _ & Hroot & Hsorted).
  simpl in Hroot, Hsorted. split; [|split].
  - symmetry. apply (well_split_sorted _ W).
  - intros Hcase. apply (well_split_sorted_id _ W). simpl.
    destruct (decide (Layer r = 0)) as [E|E].
    + destruct Hcase as [?|Hfp]; [done|]. rewrite (Hroot E), <- Hfp.
      apply sorted_StronglySorted.
    + apply Hsorted. lia.
  - done.
Qed.

Lemma build_reactions_products_witness :
  ∃ s rng',
    build_reactions 4 (init (sym "ABCD") 0 7 false) [1; 0; 0]%N = Ok (s, rng')
    ∧ reaction_ABCD ∈ reactions s
    ∧ sorted (Product reaction_ABCD) =
        sorted (Constituent1 reaction_ABCD ++ Constituent2 reaction_ABCD)
    ∧ Product reaction_ABCD =
        sorted (Constituent1 reaction_ABCD ++ Constituent2 reaction_ABCD)
    ∧ Product reaction_ABCD = sym "ABCD".
Proof.
  destruct (build_reactions_products 4 (sym "ABCD") 0 7 false [1; 0; 0]%N)
    as (s & rng' & Hbuild & H).
  - vm_compute. discriminate.
  - vm_compute. lia.
  - assert (reaction_ABCD ∈ reactions s) as Hr.
    { vm_compute in Hbuild. injection Hbuild as <- <-. vm_compute. right. right. left. }
    destruct (H _ Hr) as (H1 & H2 & H3).
    exists s, rng'. split; [exact Hbuild|]. split; [exact Hr|]. split; [exact H1|].
    split; [apply H2; right; vm_compute; reflexivity|apply H3; reflexivity].
Defined.

(** ** C5: composite constituents and their reactions *)

Lemma filter_length_unique {A B : Type} `{EqDecision B} (f : A → B) (l : list A) (b : B) :
  NoDup (f <$> l) → b ∈ f <$> l → length (filter (λ y, f y = b) l) = 1.
Proof.
  induction l as [|y l IH]; intros Hnd Hb; [by apply elem_of_nil in Hb|].
  rewrite fmap_cons in Hnd, Hb. apply NoDup_cons in Hnd as [Hy Hnd].
  rewrite filter_cons. destruct (decide (f y = b)) as [E|E].
  - simpl. f_equal. apply length_zero_iff_nil.
    destruct (filter (λ y, f y = b) l) as [|z l'] eqn:Ef; [done|].
    assert (z ∈ filter (λ y, f y = b) l) as Hz by (rewrite Ef; left).
    apply list_elem_of_filter in Hz as [Hz1 Hz2]. destruct Hy.
    rewrite E, <- Hz1. apply list_elem_of_fmap. by exists z.
  - apply IH; [done|]. by apply elem_of_cons in Hb as [?|?].
Qed.

(** C5, as stated, fails: "AAAA" cut in the middle has the composite
    constituent "AA" twice, each half is split by a reaction of its own,
    and the table has two reactions with product "AA". *)
Lemma build_reactions_duplicate_product :
  ∃ s, build_reactions 4 (init (sym "AAAA") 0 7 false) [1]%N = Ok (s, [])
       ∧ (∃ r, r ∈ reactions s ∧ Constituent1 r = sym "AA")
       ∧ length (filter (λ r, Product r = sym "AA") (reactions s)) = 2.
Proof.
  eexists. split; [vm_compute; reflexivity|]. split.
  - eexists. split; [right; right; left|]. reflexivity.
  - vm_compute. reflexivity.
Qed.

(** C5, amended: for every non-empty final product and every random
    source the build returns a table in which every composite
    constituent (length above 1) is the product of at least one
    reaction of the table, and of exactly one when no character occurs
    twice in the final product. *)
Theorem build_reactions_constituents_produced fuel fp p sc po rng :
  fp ≠ [] → length fp ≤ fuel →
  ∃ s rng',
    build_reactions fuel (init fp p sc po) rng = Ok (s, rng')
    ∧ ∀ r c, r ∈ reactions s → c = Constituent1 r ∨ c = Constituent2 r →
        1 < length c →
        (∃ r', r' ∈ reactions s ∧ Product r' = c)
        ∧ (NoDup fp → length (filter (λ r', Product r' = c) (reactions s)) = 1).
Proof.
  intros Hne Hfuel.
  destruct (build_reactions_total fuel fp p sc po rng Hne Hfuel) as (s & rng' & Hbuild).
  exists s, rng'. split; [done|]. intros r c Hr Hc Hlen.
  apply build_reactions_built in Hbuild.
  pose proof (built_generated _ _ _ _ _ Hbuild) as G.
  assert (∃ r', r' ∈ reactions s ∧ Product r' = c) as Hex.
  { destruct (generated_constituents_produced _ _ _ _ (skeleton r) c G)
      as (r1 & Hr1 & E); [apply list_elem_of_fmap; by exists r|done..|].
    apply list_elem_of_fmap in Hr1 as (r' & -> & Hr'). by exists r'. }
  split; [done|]. intros Hnd.
  destruct Hex as (r' & Hr' & E).
  apply (filter_length_unique Product).
  - apply generated_NoDup in G; [|done].
    by rewrite <- list_fmap_compose in G.
  - apply list_elem_of_fmap. by exists r'.
Qed.

Lemma build_reactions_constituents_produced_witness :
  ∃ s rng',
    build_reactions 4 (init (sym "ABCD") 0 7 false) [1; 0; 0]%N = Ok (s, rng')
    ∧ reaction_ABCD ∈ reactions s
    ∧ (∃ r', r' ∈ reactions s ∧ Product r' = sym "AB")
    ∧ length (filter (λ r', Product r' = sym "AB") (reactions s)) = 1.
Proof.
  destruct (build_reactions_constituents_produced 4 (sym "ABCD") 0 7 false [1; 0; 0]%N)
    as (s & rng' & Hbuild & H).
  - vm_compute. discriminate.
  - vm_compute. lia.
  - assert (reaction_ABCD ∈ reactions s) as Hr.
    { vm_compute in Hbuild. injection Hbuild as <- <-. vm_compute. right. right. left. }
    destruct (H reaction_ABCD (sym "AB") Hr) as (H1 & H2).
    + left. reflexivity.
    + vm_compute. lia.
    + exists s, rng'. split; [exact Hbuild|]. split; [exact Hr|]. split; [exact H1|].
      apply H2. apply (bool_decide_unpack (NoDup (sym "ABCD"))). vm_compute. exact I.
Defined.

(** ** C10: an unknown strategy *)

(** C10: for a strategy id other than 0, 1 and 2, [assign_catalysts]
    returns normally, with the set and the random source as they were;
    and building a network of a non-empty final product then returns a
    set all of whose reactions have the empty catalyst. *)
Theorem assign_catalysts_unknown_strategy (s : t) (rng : Rng) fuel fp p po rng0 :
  switch_cat s ≠ 0%Z → switch_cat s ≠ 1%Z → switch_cat s ≠ 2%Z →
  fp ≠ [] → length fp ≤ fuel →
  assign_catalysts s rng = Ok (s, rng)
  ∧ ∃ s' rng', build_reactions fuel (init fp p (switch_cat s) po) rng0 = Ok (s', rng')
               ∧ Forall (λ r, Catalyst r = []) (reactions s').
Proof.
  intros H0 H1 H2 Hne Hfuel. split; [by apply assign_catalysts_unknown|].
  unfold build_reactions.
  destruct (split_product_total fuel fp 0 [] rng0) as (rs & rng1 & Hsplit); [done..|].
  simpl. rewrite Hsplit. simpl. rewrite assign_catalysts_unknown by done.
  simpl. eexists _, _. split; [done|]. simpl.
  apply split_product_generated in Hsplit as (new & -> & G). simpl.
  eapply Forall_impl; [by eapply generated_well_split|].
  by intros r (k & _ & _ & _ & ?).
Qed.

Lemma assign_catalysts_unknown_strategy_witness :
  assign_catalysts set_ABCD [5]%N = Ok (set_ABCD, [5]%N)
  ∧ ∃ s' rng', build_reactions 4 (init (sym "ABCD") 1 (switch_cat set_ABCD) false)
                 [1; 0; 0]%N = Ok (s', rng')
               ∧ Forall (λ r, Catalyst r = []) (reactions s').
Proof.
  apply (assign_catalysts_unknown_strategy set_ABCD [5]%N 4 (sym "ABCD") 1 false
           [1; 0; 0]%N); vm_compute; (lia || discriminate).
Defined.

(** ** C7: the autocatalysis predicate *)

Lemma pd_DataFrame_columns rs : rs ≠ [] → columns (pd_DataFrame rs) = reaction_columns.
Proof. by destruct rs. Qed.

Lemma pd_DataFrame_rows rs : rows (pd_DataFrame rs) = rs.
Proof. by destruct rs. Qed.

(** C7: on a non-empty table, with [check_for_catalysts] set, the
    predicate is false when the table has no non-empty catalyst, false
    when some catalyst is none of the products and constituents of the
    table, and true otherwise; a catalyst need not catalyse anything
    that produces it. *)
Theorem is_autocatalytic_subnetwork_cases (rs : list Reaction) :
  rs ≠ [] →
  (catalysts_of (pd_DataFrame rs) = ∅ →
   is_autocatalytic_subnetwork (pd_DataFrame rs) true = Ok false)
  ∧ ((∃ c, c ∈ catalysts_of (pd_DataFrame rs) ∧ c ∉ symbols_of (pd_DataFrame rs)) →
     is_autocatalytic_subnetwork (pd_DataFrame rs) true = Ok false)
  ∧ (catalysts_of (pd_DataFrame rs) ≠ ∅ →
     catalysts_of (pd_DataFrame rs) ⊆ symbols_of (pd_DataFrame rs) →
     is_autocatalytic_subnetwork (pd_DataFrame rs) true = Ok true).
Proof.
  intros Hne. rewrite is_autocatalytic_subnetwork_Ok by by apply pd_DataFrame_columns.
  simpl. split; [|split].
  - intros E. by rewrite (bool_decide_eq_true_2 _ E).
  - intros (c & Hc & Hnc). rewrite (bool_decide_eq_false_2 (_ ⊆ _)).
    + by rewrite andb_false_r.
    + intros Hsub. by apply Hnc, Hsub.
  - intros E Hsub. by rewrite (bool_decide_eq_false_2 _ E), (bool_decide_eq_true_2 _ Hsub).
Qed.

Lemma is_autocatalytic_subnetwork_cases_witness :
  is_autocatalytic_subnetwork (pd_DataFrame (table_AB [])) true = Ok false
  ∧ is_autocatalytic_subnetwork (pd_DataFrame (table_AB (sym "Z"))) true = Ok false
  ∧ is_autocatalytic_subnetwork (pd_DataFrame (table_AB (sym "AB"))) true = Ok true.
Proof.
  split; [|split].
  - destruct (is_autocatalytic_subnetwork_cases (table_AB [])) as (H & _ & _);
      [vm_compute; discriminate|].
    apply H. vm_compute. reflexivity.
  - destruct (is_autocatalytic_subnetwork_cases (table_AB (sym "Z"))) as (_ & H & _);
      [vm_compute; discriminate|].
    apply H. exists (sym "Z"). split.
    + apply (bool_decide_unpack _). vm_compute. exact I.
    + apply (bool_decide_unpack _). vm_compute. exact I.
  - destruct (is_autocatalytic_subnetwork_cases (table_AB (sym "AB"))) as (_ & _ & H);
      [vm_compute; discriminate|].
    apply H.
    + apply (bool_decide_unpack _). vm_compute. exact I.
    + apply (bool_decide_unpack _). vm_compute. exact I.
Defined.

(** ** C8: the dictionary of subnetworks *)

(** C8: for a built network, the dictionary that the extraction of
    subnetworks returns has no entry for the final product, and every
    row of every entry is a row of the table of the network; and the
    extraction does return, given fuel above the length of a final
    product of two characters or more. *)
Theorem extract_subnetworks_dict fuel fp p sc po rng s rng' fuel' :
  build_reactions fuel (init fp p sc po) rng = Ok (s, rng') →
  (∀ s', extract_subnetworks fuel' s = Ok s' →
     (fp ∉ dom (subnetwork_dict s'))
     ∧ ∀ k sub, subnetwork_dict s' !! k = Some sub → rows sub ⊆ reactions s)
  ∧ (2 ≤ length fp → length fp < fuel' → ∃ s', extract_subnetworks fuel' s = Ok s').
Proof.
  intros Hbuild. apply build_reactions_built in Hbuild. split.
  - intros s' H. unfold extract_subnetworks in H.
    rewrite (built_reactions_df _ _ _ _ _ Hbuild) in H.
    apply bind_Ok in H as (d & Hd & [= <-]).
    rewrite (built_final_product _ _ _ _ _ Hbuild),
      (built_subnetwork_dict _ _ _ _ _ Hbuild) in Hd.
    apply process_product_inv in Hd as [Hdom Hall]; [|apply dict_inv_empty].
    split; [done|]. intros k sub Hk. apply Hall in Hk as [_ Hrows].
    rewrite pd_DataFrame_rows in Hrows. rewrite Forall_forall in Hrows.
    intros r. apply Hrows.
  - intros Hlen Hfuel.
    destruct (extract_subnetworks_built fuel' _ _ _ _ _ Hbuild Hlen Hfuel) as (d & -> & _).
    by eexists.
Qed.

Lemma extract_subnetworks_dict_witness :
  ∃ s', extract_subnetworks 5 set_ABCD = Ok s'
        ∧ (sym "ABCD" ∉ dom (subnetwork_dict s'))
        ∧ ∀ k sub, subnetwork_dict s' !! k = Some sub → rows sub ⊆ reactions set_ABCD.
Proof.
  destruct (extract_subnetworks_dict 4 (sym "ABCD") 0 7 false [1; 0; 0]%N set_ABCD [] 5)
    as [H1 H2]; [vm_compute; reflexivity|].
  destruct H2 as [s' Hs']; [vm_compute; lia..|].
  exists s'. split; [exact Hs'|]. exact (H1 s' Hs').
Defined.

(** ** C9: [find_assembly_index] *)

(** C9: for a final product of two characters or more and at least one
    trial, [find_assembly_index] raises the error of unpacking a tuple
    of three values into two variables, in its first trial; it returns
    nothing. *)
Theorem find_assembly_index_unpack_error fuel (self : AssemblyAnalysis.t) (rng : Rng) :
  2 ≤ length (AssemblyAnalysis.final_product self) →
  1 ≤ AssemblyAnalysis.n self →
  length (AssemblyAnalysis.final_product self) < fuel →
  AssemblyAnalysis.find_assembly_index fuel self rng =
  Raise (ValueError "too many values to unpack (expected 2)").
Proof.
  intros Hlen Hn Hfuel. unfold AssemblyAnalysis.find_assembly_index.
  destruct (AssemblyAnalysis.n self) as [|n]; [lia|].
  by rewrite (for_range_Raise n _ _ _
                (find_assembly_index_trial_Raise fuel self [] rng Hlen Hfuel)).
Qed.

Lemma find_assembly_index_unpack_error_witness :
  AssemblyAnalysis.find_assembly_index 3
    (AssemblyAnalysis.init (sym "AB") 10 (4 # 5) 2 (PyBool true) false) [] =
  Raise (ValueError "too many values to unpack (expected 2)").
Proof.
  apply (find_assembly_index_unpack_error 3
           (AssemblyAnalysis.init (sym "AB") 10 (4 # 5) 2 (PyBool true) false) []);
    vm_compute; lia.
Defined.

(** ** C6: the contribution of a trial *)

Lemma extend_assembly_indices_none idx d w c :
  AssemblyAnalysis.extend_assembly_indices (PyBool false) idx d w c = idx ++ [d].
Proof. reflexivity. Qed.

Lemma extend_assembly_indices_linear idx d w c :
  AssemblyAnalysis.extend_assembly_indices (PyBool true) idx d w c =
  idx ++ replicate (1 + w + c) d.
Proof. reflexivity. Qed.

Lemma extend_assembly_indices_square idx d w c :
  AssemblyAnalysis.extend_assembly_indices (PyStr (sym "square")) idx d w c =
  idx ++ replicate ((1 + w + c) ^ 2) d.
Proof. reflexivity. Qed.

Lemma extend_assembly_indices_other mode idx d w c :
  eq_True mode = false → eq_str mode (sym "square") = false →
  AssemblyAnalysis.extend_assembly_indices mode idx d w c = idx ++ [d].
Proof.
  intros H1 H2. unfold AssemblyAnalysis.extend_assembly_indices. by rewrite H1, H2.
Qed.

(** The amplification law on the values of the specification: depth 5,
    whole set autocatalytic, two autocatalytic subnetworks. *)
Example amplification_law :
  AssemblyAnalysis.extend_assembly_indices (PyBool false) [] 5 1 2 = [5]
  ∧ AssemblyAnalysis.extend_assembly_indices (PyBool true) [] 5 1 2 = [5; 5; 5; 5]
  ∧ AssemblyAnalysis.extend_assembly_indices (PyStr (sym "square")) [] 5 1 2 =
      replicate 16 5.
Proof. by vm_compute. Qed.

(** C6: a trial of [find_assembly_list] whose network has depth [d],
    [c] autocatalytic subnetworks and a whole set that is autocatalytic
    or not ([b]) appends to the output [d] once when the amplification
    is none ([False]), [1 + w + c] times when it is linear ([True]) and
    [(1 + w + c)²] times when it is "square", [w] being 1 or 0 with
    [b]. *)
Theorem find_assembly_list_trial_contribution fuel (self : AssemblyAnalysis.t)
    idx rng s rng1 sc c d s' df (b : bool) :
  build_reactions fuel
    (init (AssemblyAnalysis.final_product self) (AssemblyAnalysis.catalyst_probability self)
       (AssemblyAnalysis.switch_cat self) (AssemblyAnalysis.print_out self)) rng
    = Ok (s, rng1) →
  AssemblyAnalysis.process_autocatalytic_set fuel s = Ok ([sc; c; d], s') →
  reactions_df s' = Some df →
  is_autocatalytic_subnetwork df true = Ok b →
  ∃ out self',
    AssemblyAnalysis.find_assembly_list_trial fuel (idx, self, rng) = Ok (out, self', rng1)
    ∧ (AssemblyAnalysis.switch_aut_prob self = PyBool false → out = idx ++ [d])
    ∧ (AssemblyAnalysis.switch_aut_prob self = PyBool true →
       out = idx ++ replicate (1 + (if b then 1 else 0) + c) d)
    ∧ (AssemblyAnalysis.switch_aut_prob self = PyStr (sym "square") →
       out = idx ++ replicate ((1 + (if b then 1 else 0) + c) ^ 2) d).
Proof.
  intros Hbuild Hprocess Hdf Hb. unfold AssemblyAnalysis.find_assembly_list_trial.
  rewrite Hbuild. simpl. rewrite Hprocess. simpl. rewrite Hdf, Hb. simpl.
  eexists _, _. split; [done|]. split; [|split]; intros ->; reflexivity.
Qed.

Lemma find_assembly_list_trial_contribution_witness :
  (∃ out self',
     AssemblyAnalysis.find_assembly_list_trial 3
       ([7], AssemblyAnalysis.init (sym "AB") 1 1 0 (PyBool false) false, []) =
       Ok (out, self', [])
     ∧ out = [7; 1])
  ∧ (∃ out self',
       AssemblyAnalysis.find_assembly_list_trial 3
         ([7], AssemblyAnalysis.init (sym "AB") 1 1 0 (PyBool true) false, []) =
         Ok (out, self', [])
       ∧ out = [7; 1; 1])
  ∧ (∃ out self',
       AssemblyAnalysis.find_assembly_list_trial 3
         ([7], AssemblyAnalysis.init (sym "AB") 1 1 0 (PyStr (sym "square")) false, []) =
         Ok (out, self', [])
       ∧ out = [7; 1; 1; 1; 1]).
Proof.
  split; [|split].
  - destruct (find_assembly_list_trial_contribution 3
                (AssemblyAnalysis.init (sym "AB") 1 1 0 (PyBool false) false) [7] []
                set_AB [] 0 0 1 set_AB (mkDataFrame reaction_columns (table_AB (sym "AB")))
                true) as (out & self' & H & H1 & _ & _); try (vm_compute; reflexivity).
    exists out, self'. split; [exact H|]. apply H1. reflexivity.
  - destruct (find_assembly_list_trial_contribution 3
                (AssemblyAnalysis.init (sym "AB") 1 1 0 (PyBool true) false) [7] []
                set_AB [] 0 0 1 set_AB (mkDataFrame reaction_columns (table_AB (sym "AB")))
                true) as (out & self' & H & _ & H1 & _); try (vm_compute; reflexivity).
    exists out, self'. split; [exact H|]. apply H1. reflexivity.
  - destruct (find_assembly_list_trial_contribution 3
                (AssemblyAnalysis.init (sym "AB") 1 1 0 (PyStr (sym "square")) false) [7] []
                set_AB [] 0 0 1 set_AB (mkDataFrame reaction_columns (table_AB (sym "AB")))
                true) as (out & self' & H & _ & _ & H1); try (vm_compute; reflexivity).
    exists out, self'. split; [exact H|]. apply H1. reflexivity.
Defined.

(** ** C2: configurations that are not valid *)

Lemma for_range_total {St : Type} (n : nat) (body : St → outcome St) (I : St → Prop)
    (s : St) :
  (∀ s, I s → ∃ s', body s = Ok s' ∧ I s') →
  I s → ∃ s', for_range n body s = Ok s' ∧ I s'.
Proof.
  intros Hbody. revert s. induction n as [|n IH]; intros s Hs; simpl; [by exists s|].
  destruct (Hbody s Hs) as (s1 & -> & Hs1). simpl. by apply IH.
Qed.

Lemma find_assembly_list_trial_total fuel (self : AssemblyAnalysis.t) idx rng :
  2 ≤ length (AssemblyAnalysis.final_product self) →
  length (AssemblyAnalysis.final_product self) < fuel →
  ∃ idx' self' rng',
    AssemblyAnalysis.find_assembly_list_trial fuel (idx, self, rng) = Ok (idx', self', rng')
    ∧ AssemblyAnalysis.final_product self' = AssemblyAnalysis.final_product self.
Proof.
  intros Hlen Hfuel. unfold AssemblyAnalysis.find_assembly_list_trial.
  destruct (build_reactions_total fuel (AssemblyAnalysis.final_product self)
              (AssemblyAnalysis.catalyst_probability self)
              (AssemblyAnalysis.switch_cat self) (AssemblyAnalysis.print_out self) rng)
    as (s & rng' & Hbuild); [by intros E; rewrite E in Hlen; simpl in Hlen; lia|lia|].
  rewrite Hbuild. simpl. apply build_reactions_built in Hbuild.
  destruct (process_autocatalytic_set_built fuel _ _ _ _ _ Hbuild Hlen Hfuel)
    as (n1 & n2 & n3 & d & -> & _).
  simpl. destruct (built_frame _ _ _ _ _ Hbuild Hlen) as (_ & -> & _).
  rewrite is_autocatalytic_subnetwork_Ok by done. simpl. by eexists _, _, _.
Qed.

Lemma find_assembly_list_total fuel (self : AssemblyAnalysis.t) rng :
  2 ≤ length (AssemblyAnalysis.final_product self) →
  length (AssemblyAnalysis.final_product self) < fuel →
  ∃ assembly_indices self' rng',
    AssemblyAnalysis.find_assembly_list fuel self rng = Ok (assembly_indices, self', rng').
Proof.
  intros Hlen Hfuel. unfold AssemblyAnalysis.find_assembly_list.
  destruct (for_range_total (AssemblyAnalysis.n self)
              (AssemblyAnalysis.find_assembly_list_trial fuel)
              (λ st, AssemblyAnalysis.final_product st.1.2 =
                     AssemblyAnalysis.final_product self)
              ([], self, rng)) as ([[idx self'] rng'] & -> & _); [|done|by eexists _, _, _].
  intros [[idx self1] rng1] E. simpl in E.
  destruct (find_assembly_list_trial_total fuel self1 idx rng1)
    as (idx' & self' & rng' & -> & E'); [by rewrite E..|].
  exists (idx', self', rng'). split; [done|]. simpl. by rewrite E'.
Qed.

(** C2, as stated, fails: nothing is validated.  With the probability
    3.5, the strategy 5 and the amplification "cube", one trial on "AB"
    runs to its end and the batch returns a contribution. *)
Lemma find_assembly_list_invalid_configuration :
  ∃ self',
    AssemblyAnalysis.find_assembly_list 3
      (AssemblyAnalysis.init (sym "AB") 1 (7 # 2) 5 (PyStr (sym "cube")) false) [] =
    Ok ([1], self', []).
Proof. eexists. vm_compute. reflexivity. Qed.

(** C2, amended: the batch entry points validate nothing.  With a final
    product of two characters or more, [find_assembly_list] runs all its
    trials and returns, whatever the probability, the strategy id and
    the amplification mode: a strategy id other than 0, 1 and 2 makes
    [assign_catalysts] leave the set as it is, and an amplification mode
    that is neither [True] nor "square" appends the depth once, as none
    does.  An empty final product raises the [ValueError] of the random
    split in the first trial, and nothing at all when there is no
    trial. *)
Theorem find_assembly_list_unvalidated fuel fp n p sc mode po rng
    (s : AutocatalyticSet.t) rng1 idx d w c :
  2 ≤ length fp → length fp < fuel →
  (∃ assembly_indices self' rng',
     AssemblyAnalysis.find_assembly_list fuel (AssemblyAnalysis.init fp n p sc mode po) rng =
     Ok (assembly_indices, self', rng'))
  ∧ (switch_cat s ≠ 0%Z → switch_cat s ≠ 1%Z → switch_cat s ≠ 2%Z →
     assign_catalysts s rng1 = Ok (s, rng1))
  ∧ (eq_True mode = false → eq_str mode (sym "square") = false →
     AssemblyAnalysis.extend_assembly_indices mode idx d w c = idx ++ [d])
  ∧ AssemblyAnalysis.find_assembly_list fuel
      (AssemblyAnalysis.init [] (S n) p sc mode po) rng =
    Raise (ValueError "empty range for randrange()")
  ∧ AssemblyAnalysis.find_assembly_list fuel (AssemblyAnalysis.init [] 0 p sc mode po) rng =
    Ok ([], AssemblyAnalysis.init [] 0 p sc mode po, rng).
Proof.
  intros Hlen Hfuel. split; [|split; [|split; [|split]]].
  - by apply find_assembly_list_total.
  - apply assign_catalysts_unknown.
  - apply extend_assembly_indices_other.
  - destruct fuel as [|fuel]; [lia|]. reflexivity.
  - reflexivity.
Qed.

Lemma find_assembly_list_unvalidated_witness :
  (∃ assembly_indices self' rng',
     AssemblyAnalysis.find_assembly_list 5
       (AssemblyAnalysis.init (sym "ABCD") 3 (-1 # 2) 7 (PyStr (sym "cube")) false)
       [1; 0; 0]%N = Ok (assembly_indices, self', rng'))
  ∧ assign_catalysts set_ABCD [5]%N = Ok (set_ABCD, [5]%N)
  ∧ AssemblyAnalysis.extend_assembly_indices (PyStr (sym "cube")) [7] 5 1 2 = [7] ++ [5]
  ∧ AssemblyAnalysis.find_assembly_list 5
      (AssemblyAnalysis.init [] 4 (-1 # 2) 7 (PyStr (sym "cube")) false) [1; 0; 0]%N =
    Raise (ValueError "empty range for randrange()")
  ∧ AssemblyAnalysis.find_assembly_list 5
      (AssemblyAnalysis.init [] 0 (-1 # 2) 7 (PyStr (sym "cube")) false) [1; 0; 0]%N =
    Ok ([], AssemblyAnalysis.init [] 0 (-1 # 2) 7 (PyStr (sym "cube")) false, [1; 0; 0]%N).
Proof.
  destruct (find_assembly_list_unvalidated 5 (sym "ABCD") 3 (-1 # 2) 7
              (PyStr (sym "cube")) false [1; 0; 0]%N set_ABCD [5]%N [7] 5 1 2)
    as (H1 & H2 & H3 & H4 & H5); [vm_compute; lia..|].
  split; [exact H1|]. split; [apply H2; vm_compute; discriminate|].
  split; [apply H3; reflexivity|]. split; [exact H4|exact H5].
Defined.

(** ** C3: a final product of one character *)

(** C3 fails on the code: the table of a final product of one
    character is empty, the frame made of it has no column, and the
    extraction of subnetworks reads its 'Product' column.  Every batch
    of at least one trial raises [KeyError], whatever the probability,
    the strategy and the amplification. *)
Theorem find_assembly_list_single_character fuel (c : N) n p sc mode po rng :
  AssemblyAnalysis.find_assembly_list (S fuel)
    (AssemblyAnalysis.init [c] (S n) p sc mode po) rng =
  Raise (KeyError (sym "Product")).
Proof.
  unfold AssemblyAnalysis.find_assembly_list. apply for_range_Raise.
  unfold AssemblyAnalysis.find_assembly_list_trial. simpl AssemblyAnalysis.final_product.
  destruct (build_reactions_total (S fuel) [c] p sc po rng) as (s & rng' & Hbuild);
    [done|simpl; lia|].
  cbn [AssemblyAnalysis.init AssemblyAnalysis.catalyst_probability
       AssemblyAnalysis.switch_cat AssemblyAnalysis.print_out
       AssemblyAnalysis.final_product].
  rewrite Hbuild. apply build_reactions_built in Hbuild.
  destruct (built_leaf _ _ _ _ _ Hbuild eq_refl) as [_ Hdf].
  unfold AssemblyAnalysis.process_autocatalytic_set, extract_subnetworks. simpl.
  by rewrite Hdf.
Qed.

(** The input of C3 itself: "A", one trial, no amplification. *)
Example find_assembly_list_A :
  AssemblyAnalysis.find_assembly_list 2
    (AssemblyAnalysis.init (sym "A") 1 1 2 (PyBool false) false) [] =
  Raise (KeyError (sym "Product")).
Proof. vm_compute. reflexivity. Qed.

(** ** C4: the probability of a catalyst *)

(** C4 fails on the code: the draw is compared with [<=].  With the
    probability 0 and a draw of exactly 0 the one reaction of "AB" is
    given a catalyst, its own product. *)
Theorem build_reactions_probability_zero :
  random_random [] = (0 # 2 ^ 53, [])
  ∧ build_reactions 2 (init (sym "AB") 0 0 false) [] =
    Ok (AutocatalyticSet.mk false (sym "AB") (table_AB (sym "AB"))
          (Some (mkDataFrame reaction_columns (table_AB (sym "AB"))))
          [sym "A"; sym "B"] 0 0 ∅, []).
Proof. split; vm_compute; reflexivity. Qed.

(** * Further properties of the engine *)

(** ** The table of a built network *)

Lemma generated_length product layer i rs :
  generated product layer i rs → length rs = length product - 1.
Proof.
  induction 1 as [|product layer i k rs1 rs2 Hk _ IH1 _ IH2]; [simpl; lia|].
  rewrite !length_app, IH1, IH2, !sorted_length, length_take, length_drop. simpl. lia.
Qed.

Lemma generated_ids product layer i rs :
  generated product layer i rs → Reaction_id <$> rs = seq i (length rs).
Proof.
  induction 1 as [|product layer i k rs1 rs2 Hk _ IH1 _ IH2]; [done|].
  rewrite !fmap_app, IH1, IH2, !length_app, !seq_app. simpl.
  repeat f_equal; lia.
Qed.

Lemma generated_depth product layer i rs :
  generated product layer i rs →
  Forall (λ r, Layer r + length (Product r) ≤ layer + length product) rs.
Proof.
  induction 1 as [|product layer i k rs1 rs2 Hk _ IH1 _ IH2]; [constructor|].
  rewrite !Forall_app. split_and!.
  - eapply Forall_impl; [exact IH1|]. simpl. intros r.
    rewrite sorted_length, length_take. lia.
  - eapply Forall_impl; [exact IH2|]. simpl. intros r.
    rewrite sorted_length, length_drop. lia.
  - apply Forall_singleton. simpl. lia.
Qed.

Lemma generated_last product layer i rs :
  generated product layer i rs → length product ≠ 1 →
  ∃ rs' r, rs = rs' ++ [r] ∧ Product r = product ∧ Layer r = layer
           ∧ Forall (λ r', layer < Layer r' ∧ length (Product r') < length product) rs'.
Proof.
  intros G Hne. destruct G as [|product layer i k rs1 rs2 Hk G1 G2]; [done|].
  eexists (rs1 ++ rs2), _. split; [by rewrite <- app_assoc|]. split; [done|].
  split; [done|]. apply Forall_app. split.
  - eapply Forall_impl; [exact (generated_bounds _ _ _ _ G1)|]. simpl.
    intros r (? & Hlen & _). rewrite sorted_length, length_take in Hlen. lia.
  - eapply Forall_impl; [exact (generated_bounds _ _ _ _ G2)|]. simpl.
    intros r (? & Hlen & _). rewrite sorted_length, length_drop in Hlen. lia.
Qed.

Lemma generated_leaves product layer i rs c :
  generated product layer i rs → length product ≠ 1 → c ∈ product →
  ∃ r, r ∈ rs ∧ ([c] = Constituent1 r ∨ [c] = Constituent2 r).
Proof.
  intros G. revert c.
  induction G as [|product layer i k rs1 rs2 Hk G1 IH1 G2 IH2]; intros c Hne Hc;
    [done|].
  rewrite <- (take_drop k product), elem_of_app in Hc.
  rewrite <- !(sorted_elem_of (_ k product)) in Hc.
  destruct Hc as [Hc|Hc].
  - destruct (decide (length (sorted (take k product)) = 1)) as [E|E].
    + eexists. split; [rewrite !elem_of_app, list_elem_of_singleton; by right; right|].
      left. simpl. destruct (sorted (take k product)) as [|x [|]]; try done.
      by apply list_elem_of_singleton in Hc as ->.
    + destruct (IH1 c E Hc) as (r & Hr & Hrc). exists r.
      split; [|done]. rewrite !elem_of_app. auto.
  - destruct (decide (length (sorted (drop k product)) = 1)) as [E|E].
    + eexists. split; [rewrite !elem_of_app, list_elem_of_singleton; by right; right|].
      right. simpl. destruct (sorted (drop k product)) as [|x [|]]; try done.
      by apply list_elem_of_singleton in Hc as ->.
    + destruct (IH2 c E Hc) as (r & Hr & Hrc). exists r.
      split; [|done]. rewrite !elem_of_app. auto.
Qed.

Lemma generated_root_index product layer i rs :
  generated product layer i rs → length product ≠ 1 →
  ∃ r, rs !! (length rs - 1) = Some r ∧ Product r = product.
Proof.
  intros G Hne. destruct (generated_last _ _ _ _ G Hne) as (rs' & r & -> & E & _).
  exists r. split; [|done]. rewrite length_app. simpl.
  rewrite lookup_app_r by lia. by replace (_ - _) with 0 by lia.
Qed.

Lemma generated_children_first product layer i rs j r c :
  generated product layer i rs → rs !! j = Some r →
  c = Constituent1 r ∨ c = Constituent2 r → 1 < length c →
  ∃ j' r', j' < j ∧ rs !! j' = Some r' ∧ Product r' = c.
Proof.
  intros G. revert j r c.
  induction G as [|product layer i k rs1 rs2 Hk G1 IH1 G2 IH2];
    intros j r c Hj Hc Hlen; [done|].
  destruct (decide (j < length rs1)) as [H1|H1].
  { rewrite lookup_app_l in Hj by done.
    destruct (IH1 j r c Hj Hc Hlen) as (j' & r' & ? & Hj' & ?).
    exists j', r'. split; [done|]. split; [|done].
    rewrite lookup_app_l; [done|lia]. }
  rewrite lookup_app_r in Hj by lia.
  destruct (decide (j - length rs1 < length rs2)) as [H2|H2].
  { rewrite lookup_app_l in Hj by done.
    destruct (IH2 _ r c Hj Hc Hlen) as (j' & r' & ? & Hj' & ?).
    exists (length rs1 + j'), r'. split; [lia|]. split; [|done].
    rewrite lookup_app_r by lia. rewrite lookup_app_l by lia.
    by replace (length rs1 + j' - length rs1) with j' by lia. }
  rewrite lookup_app_r in Hj by lia.
  apply list_lookup_singleton_Some in Hj as [Hj <-]. simpl in Hc.
  destruct Hc as [-> | ->].
  - destruct (generated_root_index _ _ _ _ G1) as (r' & Hr' & ?); [lia|].
    assert (0 < length rs1) by (apply lookup_lt_Some in Hr'; lia).
    exists (length rs1 - 1), r'. split; [lia|]. split; [|done].
    by rewrite lookup_app_l by lia.
  - destruct (generated_root_index _ _ _ _ G2) as (r' & Hr' & ?); [lia|].
    assert (0 < length rs2) by (apply lookup_lt_Some in Hr'; lia).
    exists (length rs1 + (length rs2 - 1)), r'. split; [lia|]. split; [|done].
    rewrite lookup_app_r by lia. rewrite lookup_app_l by lia.
    by replace (length rs1 + (length rs2 - 1) - length rs1) with (length rs2 - 1) by lia.
Qed.

(** X1: the reactions of a built network are numbered 0, 1, 2, ... in
    the order of the table, and a final product of [L] characters gives
    [L - 1] of them. *)
Theorem build_reactions_ids fuel fp p sc po rng s rng' :
  build_reactions fuel (init fp p sc po) rng = Ok (s, rng') →
  Reaction_id <$> reactions s = seq 0 (length fp - 1).
Proof.
  intros Hbuild. apply build_reactions_built in Hbuild.
  pose proof (built_generated _ _ _ _ _ Hbuild) as G.
  pose proof (generated_ids _ _ _ _ G) as Hids.
  rewrite (generated_length _ _ _ _ G), <- list_fmap_compose in Hids.
  by rewrite <- Hids.
Qed.

Lemma build_reactions_ids_witness :
  Reaction_id <$> reactions set_ABCD = seq 0 (length (sym "ABCD") - 1).
Proof.
  apply (build_reactions_ids 4 (sym "ABCD") 0 7 false [1; 0; 0]%N set_ABCD []).
  vm_compute. reflexivity.
Defined.

(** X2: in a built network no reaction produces a single character:
    every product has two characters or more, both constituents are
    non-empty and their lengths add up to that of the product; and a
    product at layer [l] has at most [L - l] characters, [L] being the
    length of the final product. *)
Theorem build_reactions_sizes fuel fp p sc po rng s rng' r :
  build_reactions fuel (init fp p sc po) rng = Ok (s, rng') →
  r ∈ reactions s →
  2 ≤ length (Product r)
  ∧ 1 ≤ length (Constituent1 r) ∧ 1 ≤ length (Constituent2 r)
  ∧ length (Product r) = length (Constituent1 r) + length (Constituent2 r)
  ∧ Layer r + length (Product r) ≤ length fp.
Proof.
  intros Hbuild Hr. apply build_reactions_built in Hbuild.
  pose proof (built_generated _ _ _ _ _ Hbuild) as G.
  assert (skeleton r ∈ skeleton <$> reactions s) as Hsk
    by (apply list_elem_of_fmap; by exists r).
  pose proof (generated_well_split _ _ _ _ G) as W.
  pose proof (generated_depth _ _ _ _ G) as D.
  rewrite Forall_forall in W, D.
  destruct (well_split_lengths _ (W _ Hsk)) as (H1 & H2 & H3).
  specialize (D _ Hsk). simpl in *. repeat split; lia.
Qed.

Lemma build_reactions_sizes_witness :
  2 ≤ length (Product reaction_ABCD)
  ∧ 1 ≤ length (Constituent1 reaction_ABCD) ∧ 1 ≤ length (Constituent2 reaction_ABCD)
  ∧ length (Product reaction_ABCD) =
      length (Constituent1 reaction_ABCD) + length (Constituent2 reaction_ABCD)
  ∧ Layer reaction_ABCD + length (Product reaction_ABCD) ≤ length (sym "ABCD").
Proof.
  apply (build_reactions_sizes 4 (sym "ABCD") 0 7 false [1; 0; 0]%N set_ABCD []).
  - vm_compute. reflexivity.
  - vm_compute. right. right. left.
Defined.

(** X3: a built network of a final product of two characters or more
    ends with the one reaction that produces the final product, at
    layer 0; every reaction before it is at layer 1 or deeper and has a
    shorter product. *)
Theorem build_reactions_root fuel fp p sc po rng s rng' :
  2 ≤ length fp →
  build_reactions fuel (init fp p sc po) rng = Ok (s, rng') →
  ∃ rs r, reactions s = rs ++ [r] ∧ Product r = fp ∧ Layer r = 0
          ∧ Forall (λ r', 1 ≤ Layer r' ∧ length (Product r') < length fp) rs.
Proof.
  intros Hlen Hbuild. apply build_reactions_built in Hbuild.
  pose proof (built_generated _ _ _ _ _ Hbuild) as G.
  destruct (generated_last _ _ _ _ G) as (rs' & r' & E & Hp & Hl & Hall); [lia|].
  apply fmap_app_inv in E as (rs & l & -> & E1 & ->).
  destruct l as [|r [|]]; try done. injection E1 as E1. subst r'.
  exists rs, r. split; [done|]. split; [done|]. split; [done|].
  apply Forall_fmap in Hall. eapply Forall_impl; [exact Hall|]. simpl. lia.
Qed.

Lemma build_reactions_root_witness :
  ∃ rs r, reactions set_ABCD = rs ++ [r] ∧ Product r = sym "ABCD" ∧ Layer r = 0
          ∧ Forall (λ r', 1 ≤ Layer r'
                          ∧ length (Product r') < length (sym "ABCD")) rs.
Proof.
  apply (build_reactions_root 4 (sym "ABCD") 0 7 false [1; 0; 0]%N set_ABCD []).
  - vm_compute. lia.
  - vm_compute. reflexivity.
Defined.

(** X4: in the table of a built network the reaction that produces a
    composite constituent comes before the reaction that consumes it:
    children are recorded before their parent. *)
Theorem build_reactions_children_first fuel fp p sc po rng s rng' j r c :
  build_reactions fuel (init fp p sc po) rng = Ok (s, rng') →
  reactions s !! j = Some r →
  c = Constituent1 r ∨ c = Constituent2 r → 1 < length c →
  ∃ j' r', j' < j ∧ reactions s !! j' = Some r' ∧ Product r' = c.
Proof.
  intros Hbuild Hj Hc Hlen. apply build_reactions_built in Hbuild.
  pose proof (built_generated _ _ _ _ _ Hbuild) as G.
  destruct (generated_children_first _ _ _ _ j (skeleton r) c G)
    as (j' & r1 & Hlt & Hj' & E); [by rewrite list_lookup_fmap, Hj|done..|].
  rewrite list_lookup_fmap in Hj'.
  destruct (reactions s !! j') as [r'|] eqn:E'; [|done].
  injection Hj' as <-. by exists j', r'.
Qed.

Lemma build_reactions_children_first_witness :
  ∃ j' r', j' < 2 ∧ reactions set_ABCD !! j' = Some r' ∧ Product r' = sym "CD".
Proof.
  apply (build_reactions_children_first 4 (sym "ABCD") 0 7 false [1; 0; 0]%N set_ABCD []
           2 reaction_ABCD (sym "CD")).
  - vm_compute. reflexivity.
  - reflexivity.
  - right. reflexivity.
  - vm_compute. lia.
Defined.

(** ** The catalysts of a built network *)

Lemma random_choice_elem_of seq rng c rng' :
  random_choice seq rng = Ok (c, rng') → c ∈ seq.
Proof.
  unfold random_choice. destruct seq as [|e seq]; [done|].
  destruct (next_raw rng) as [x rng1].
  destruct (_ !! _) as [c'|] eqn:E; [|done]. intros [= <- <-].
  by eapply list_elem_of_lookup_2.
Qed.

Lemma random_choices_elem_of population weights rng c rng' :
  random_choices population weights rng = Ok (c, rng') → c ∈ population.
Proof.
  unfold random_choices. destruct (last _) as [total|]; [|done].
  destruct (Qle_bool total 0); [done|]. destruct (random_random rng) as [u rng1].
  destruct (_ !! _) as [c'|] eqn:E; [|done]. intros [= <- <-].
  by eapply list_elem_of_lookup_2.
Qed.

Lemma weighted_choice_elem_of weighted possible rng c rng' :
  weighted_choice weighted possible rng = Ok (c, rng') → c ∈ possible.
Proof.
  unfold weighted_choice. intros H. apply bind_Ok in H as (ws & _ & H).
  by eapply random_choices_elem_of.
Qed.

Section assign.
Variable choose : list Symbol → Rng → outcome (Symbol * Rng).
Hypothesis choose_elem_of : ∀ possible rng c rng',
  choose possible rng = Ok (c, rng') → c ∈ possible.

Lemma assign_one_inv no_reuse p pool r used rng r' used' rng' :
  assign_one choose no_reuse p pool r used rng = Ok (r', used', rng') →
  r' = set_Catalyst r (Catalyst r')
  ∧ (Catalyst r' = [] ∧ used' = used
     ∨ Catalyst r' ∈ pool
       ∧ Catalyst r' ≠ Constituent1 r ∧ Catalyst r' ≠ Constituent2 r
       ∧ (no_reuse = true → Catalyst r' ∉ used)
       ∧ used' = if no_reuse then {[Catalyst r']} ∪ used else used).
Proof using choose_elem_of.
  unfold assign_one. destruct (random_random rng) as [u rng1].
  destruct (Qle_bool u p); [|intros [= <- <- <-]; by split; [|left]].
  destruct (filter _ pool) as [|e possible] eqn:Ef;
    [intros [= <- <- <-]; by split; [|left]|].
  intros H. apply bind_Ok in H as ([c rng2] & Hc & [= <- <- <-]).
  apply choose_elem_of in Hc. rewrite <- Ef in Hc.
  apply list_elem_of_filter in Hc as [[Hc1 Hc2] Hc3].
  split; [done|]. right. simpl. split; [done|].
  rewrite !not_elem_of_cons in Hc1. destruct Hc1 as (? & ? & _).
  split; [done|]. split; [done|]. split; [|done].
  intros ->. by destruct Hc2.
Qed.

Lemma assign_each_inv no_reuse p pool rs used rng rs' rng' :
  assign_each choose no_reuse p pool rs used rng = Ok (rs', rng') →
  Forall (λ r', Catalyst r' = []
                ∨ Catalyst r' ∈ pool ∧ Catalyst r' ≠ Constituent1 r'
                  ∧ Catalyst r' ≠ Constituent2 r') rs'.
Proof using choose_elem_of.
  revert used rng rs' rng'.
  induction rs as [|r rs IH]; intros used rng rs' rng' H; simpl in H.
  { injection H as <- <-. constructor. }
  apply bind_Ok in H as ([[r1 used1] rng1] & Hone & H).
  apply bind_Ok in H as ([rest rng2] & Hrest & [= <- <-]).
  constructor; [|by eapply IH].
  apply assign_one_inv in Hone as [E [[? _]|(? & ? & ? & _)]]; [by left|].
  assert (Constituent1 r1 = Constituent1 r ∧ Constituent2 r1 = Constituent2 r)
    as [-> ->] by (by rewrite E).
  by right.
Qed.

Lemma assign_each_no_reuse p pool rs used rng rs' rng' :
  assign_each choose true p pool rs used rng = Ok (rs', rng') →
  NoDup (filter (λ c, c ≠ []) (Catalyst <$> rs'))
  ∧ ∀ c, c ∈ filter (λ c, c ≠ []) (Catalyst <$> rs') → c ∉ used.
Proof using choose_elem_of.
  revert used rng rs' rng'.
  induction rs as [|r rs IH]; intros used rng rs' rng' H; simpl in H.
  { injection H as <- <-. split; [constructor|]. intros c Hc. by apply elem_of_nil in Hc. }
  apply bind_Ok in H as ([[r1 used1] rng1] & Hone & H).
  apply bind_Ok in H as ([rest rng2] & Hrest & [= <- <-]).
  apply IH in Hrest as [Hnd Hused].
  apply assign_one_inv in Hone as [_ [[E ->]|(_ & _ & _ & Hc & ->)]].
  - rewrite fmap_cons, filter_cons_False by (by rewrite E; intros ?). done.
  - rewrite fmap_cons. destruct (decide (Catalyst r1 = [])) as [E|E];
      [rewrite filter_cons_False by (by intros ?)
      |rewrite filter_cons_True by done]; [|].
    + split; [done|]. intros c Hin. apply Hused in Hin.
      intros ?. apply Hin. by apply elem_of_union_r.
    + split.
      * apply NoDup_cons. split; [|done]. intros Hin. apply Hused in Hin.
        apply Hin, elem_of_union_l, elem_of_singleton. done.
      * intros c [->|Hin]%elem_of_cons; [by apply Hc|].
        apply Hused in Hin. intros ?. apply Hin. by apply elem_of_union_r.
Qed.

Lemma assign_one_attempted no_reuse p pool r used rng r' used' rng' e :
  Qle_bool (random_random rng).1 p = true →
  e ∈ pool → e ≠ Constituent1 r → e ≠ Constituent2 r → no_reuse = false ∨ e ∉ used →
  assign_one choose no_reuse p pool r used rng = Ok (r', used', rng') →
  Catalyst r' ∈ pool.
Proof using choose_elem_of.
  unfold assign_one. destruct (random_random rng) as [u rng1]. simpl.
  intros -> He H1 H2 Hused.
  destruct (filter _ pool) as [|e' possible] eqn:Ef.
  - exfalso. eapply (filter_nil_not_elem_of _ _ e); [exact Ef| |exact He].
    split; [|done]. rewrite !not_elem_of_cons. split_and!; [done..|].
    apply not_elem_of_nil.
  - intros H. apply bind_Ok in H as ([c rng2] & Hc & [= <- <- <-]). simpl.
    apply choose_elem_of in Hc. rewrite <- Ef in Hc.
    by apply list_elem_of_filter in Hc as [_ Hc].
Qed.

Lemma assign_each_always p pool rs used rng rs' rng' :
  (1 <= p)%Q → Forall (λ e, e ≠ []) pool →
  Forall (λ r, Product r ∈ pool ∧ Product r ≠ Constituent1 r
               ∧ Product r ≠ Constituent2 r) rs →
  assign_each choose false p pool rs used rng = Ok (rs', rng') →
  Forall (λ r', Catalyst r' ≠ []) rs'.
Proof using choose_elem_of.
  intros Hp Hpool Hrs. revert used rng rs' rng'.
  induction Hrs as [|r rs (Hin & H1 & H2) _ IH]; intros used rng rs' rng' H; simpl in H.
  { injection H as <- <-. constructor. }
  apply bind_Ok in H as ([[r1 used1] rng1] & Hone & H).
  apply bind_Ok in H as ([rest rng2] & Hrest & [= <- <-]).
  constructor; [|by eapply IH]. clear IH Hrest.
  rewrite Forall_forall in Hpool. apply Hpool.
  eapply (assign_one_attempted _ _ _ _ _ _ _ _ _ (Product r)); [|done..| |exact Hone];
    [|by left].
  destruct (random_random_range rng) as [_ Hu].
  apply Qle_bool_iff, Qlt_le_weak. by eapply Qlt_le_trans.
Qed.
End assign.

Lemma assign_each_below_zero choose no_reuse p pool rs used rng rs' rng' :
  (p < 0)%Q →
  assign_each choose no_reuse p pool rs used rng = Ok (rs', rng') →
  Forall (λ r', Catalyst r' = []) rs'.
Proof.
  intros Hp. revert used rng rs' rng'.
  induction rs as [|r rs IH]; intros used rng rs' rng' H; simpl in H.
  { injection H as <- <-. constructor. }
  rewrite assign_one_below_zero in H by done. simpl in H.
  apply bind_Ok in H as ([rest rng2] & Hrest & [= <- <-]).
  constructor; [done|by eapply IH].
Qed.

Lemma elem_of_pool (els prods : list Symbol) (c : Symbol) :
  c ∈ base.elements (list_to_set els ∪ list_to_set prods : gset Symbol) ↔
  c ∈ els ∨ c ∈ prods.
Proof. by rewrite elem_of_elements, elem_of_union, !elem_of_list_to_set. Qed.

Lemma assign_catalysts_cases (s : t) rng s' rng' :
  assign_catalysts s rng = Ok (s', rng') →
  (switch_cat s ≠ 0%Z ∧ switch_cat s ≠ 1%Z ∧ switch_cat s ≠ 2%Z ∧ s' = s)
  ∨ ∃ choose no_reuse rs',
      (∀ possible rng c rng', choose possible rng = Ok (c, rng') → c ∈ possible)
      ∧ (no_reuse = false → switch_cat s = 2%Z)
      ∧ (no_reuse = true → switch_cat s = 0%Z ∨ switch_cat s = 1%Z)
      ∧ s' = set_reactions s rs'
      ∧ assign_each choose no_reuse (catalyst_probability s)
          (base.elements (list_to_set (elements s)
                          ∪ list_to_set (Product <$> reactions s) : gset Symbol))
          (reactions s) ∅ rng = Ok (rs', rng').
Proof.
  unfold assign_catalysts. intros H.
  destruct (decide (switch_cat s = 0%Z)) as [E0|E0].
  { apply bind_Ok in H as ([rs' rng1] & Hloop & [= <- <-]). right.
    exists random_choice, true, rs'. split; [apply random_choice_elem_of|].
    split; [done|]. split; [auto|]. by split. }
  destruct (decide (switch_cat s = 1%Z)) as [E1|E1].
  { apply bind_Ok in H as (w & _ & H).
    apply bind_Ok in H as ([rs' rng1] & Hloop & [= <- <-]). right.
    exists (weighted_choice w), true, rs'.
    split; [apply weighted_choice_elem_of|].
    split; [done|]. split; [auto|]. by split. }
  destruct (decide (switch_cat s = 2%Z)) as [E2|E2].
  { apply bind_Ok in H as (w & _ & H).
    apply bind_Ok in H as ([rs' rng1] & Hloop & [= <- <-]). right.
    exists (weighted_choice w), false, rs'.
    split; [apply weighted_choice_elem_of|].
    split; [done|]. split; [done|]. by split. }
  injection H as <- <-. by left.
Qed.

Lemma build_reactions_inv fuel fp p sc po rng s rng' :
  build_reactions fuel (init fp p sc po) rng = Ok (s, rng') →
  ∃ new rng1 s1,
    generated fp 0 0 new
    ∧ assign_catalysts (set_reactions (init fp p sc po) new) rng1 = Ok (s1, rng')
    ∧ s = set_reactions_df s1 (pd_DataFrame (reactions s1)).
Proof.
  unfold build_reactions. intros H.
  apply bind_Ok in H as ([rs rng1] & Hsplit & H).
  apply bind_Ok in H as ([s1 rng2] & Hassign & [= <- <-]).
  apply split_product_generated in Hsplit as (new & -> & G).
  by exists new, rng1, s1.
Qed.

(** X5: the strategies without reuse (0 and 1) give no catalyst to two
    reactions of a network: the non-empty catalysts of the table are
    pairwise distinct. *)
Theorem build_reactions_no_reuse fuel fp p sc po rng s rng' :
  sc = 0%Z ∨ sc = 1%Z →
  build_reactions fuel (init fp p sc po) rng = Ok (s, rng') →
  NoDup (filter (λ c, c ≠ []) (Catalyst <$> reactions s)).
Proof.
  intros Hsc Hbuild.
  apply build_reactions_inv in Hbuild as (new & rng1 & s1 & G & Hassign & ->).
  apply assign_catalysts_cases in Hassign
    as [(H0 & H1 & _)|(choose & no_reuse & rs' & Hchoose & Hf & _ & -> & Hloop)];
    simpl in *; [lia|].
  destruct no_reuse; [|specialize (Hf eq_refl); lia].
  by apply (assign_each_no_reuse choose Hchoose) in Hloop as [Hnd _].
Qed.

Lemma build_reactions_no_reuse_witness :
  ∃ s rng',
    build_reactions 4 (init (sym "ABCD") 1 0 false) [1; 0; 0; 0; 1; 0; 1; 0; 1]%N =
    Ok (s, rng')
    ∧ Forall (λ r, Catalyst r ≠ []) (reactions s)
    ∧ NoDup (filter (λ c, c ≠ []) (Catalyst <$> reactions s)).
Proof.
  eexists _, _. split; [vm_compute; reflexivity|]. split.
  - repeat constructor; discriminate.
  - eapply (build_reactions_no_reuse 4 (sym "ABCD") 1 0 false
              [1; 0; 0; 0; 1; 0; 1; 0; 1]%N); [left; reflexivity|].
    vm_compute. reflexivity.
Defined.

Lemma built_catalyst_pool fuel fp p sc po rng s rng' r :
  build_reactions fuel (init fp p sc po) rng = Ok (s, rng') →
  r ∈ reactions s → Catalyst r ≠ [] →
  Catalyst r ≠ Constituent1 r ∧ Catalyst r ≠ Constituent2 r
  ∧ ((∃ c, c ∈ fp ∧ Catalyst r = [c])
     ∨ ∃ r', r' ∈ reactions s ∧ Product r' = Catalyst r).
Proof.
  intros Hbuild Hr Hcat.
  apply build_reactions_inv in Hbuild as (new & rng1 & s1 & G & Hassign & ->).
  simpl in Hr |- *.
  apply assign_catalysts_cases in Hassign
    as [(_ & _ & _ & ->)|(choose & no_reuse & rs' & Hchoose & _ & _ & -> & Hloop)];
    simpl in *.
  { apply generated_well_split in G. rewrite Forall_forall in G.
    by destruct (G r Hr) as (_ & _ & _ & _ & ?). }
  pose proof (assign_each_skeleton _ _ _ _ _ _ _ _ _ Hloop) as Hsk.
  apply (assign_each_inv choose Hchoose) in Hloop. rewrite Forall_forall in Hloop.
  destruct (Hloop r Hr) as [?|(Hpool & H1 & H2)]; [done|].
  split; [done|]. split; [done|].
  apply elem_of_pool in Hpool as [Hpool|Hpool].
  - left. apply list_elem_of_fmap in Hpool as (c & -> & ?). by exists c.
  - right. apply (f_equal (fmap Product)) in Hsk.
    rewrite <- !list_fmap_compose in Hsk.
    change (Product ∘ skeleton) with Product in Hsk. rewrite <- Hsk in Hpool.
    apply list_elem_of_fmap in Hpool as (r' & -> & ?). by exists r'.
Qed.

(** X6: whatever the strategy, a catalyst given to a reaction of a
    built network is none of the two constituents of that reaction, and
    it is a single character of the final product or the product of a
    reaction of the table. *)
Theorem build_reactions_catalysts fuel fp p sc po rng s rng' r :
  build_reactions fuel (init fp p sc po) rng = Ok (s, rng') →
  r ∈ reactions s → Catalyst r ≠ [] →
  Catalyst r ≠ Constituent1 r ∧ Catalyst r ≠ Constituent2 r
  ∧ ((∃ c, c ∈ fp ∧ Catalyst r = [c])
     ∨ ∃ r', r' ∈ reactions s ∧ Product r' = Catalyst r).
Proof. apply built_catalyst_pool. Qed.

Lemma build_reactions_catalysts_witness :
  Catalyst (mkReaction 0 0 (sym "A") (sym "B") (sym "AB") (sym "AB")) ≠ sym "A"
  ∧ Catalyst (mkReaction 0 0 (sym "A") (sym "B") (sym "AB") (sym "AB")) ≠ sym "B"
  ∧ ((∃ c, c ∈ sym "AB"
           ∧ Catalyst (mkReaction 0 0 (sym "A") (sym "B") (sym "AB") (sym "AB")) = [c])
     ∨ ∃ r', r' ∈ reactions set_AB
             ∧ Product r' =
               Catalyst (mkReaction 0 0 (sym "A") (sym "B") (sym "AB") (sym "AB"))).
Proof.
  apply (build_reactions_catalysts 2 (sym "AB") 1 0 false [] set_AB []
           (mkReaction 0 0 (sym "A") (sym "B") (sym "AB") (sym "AB"))).
  - vm_compute. reflexivity.
  - vm_compute. left.
  - vm_compute. discriminate.
Defined.

(** X7: with the strategy 2 (reuse) and a probability of 1 or more,
    every reaction of a built network is given a catalyst. *)
Theorem build_reactions_all_catalysed fuel fp p po rng s rng' :
  (1 <= p)%Q →
  build_reactions fuel (init fp p 2 po) rng = Ok (s, rng') →
  Forall (λ r, Catalyst r ≠ []) (reactions s).
Proof.
  intros Hp Hbuild.
  apply build_reactions_inv in Hbuild as (new & rng1 & s1 & G & Hassign & ->).
  apply assign_catalysts_cases in Hassign
    as [(_ & _ & ? & _)|(choose & no_reuse & rs' & Hchoose & _ & Ht & -> & Hloop)];
    simpl in *; [done|].
  destruct no_reuse; [destruct (Ht eq_refl); done|].
  pose proof (generated_well_split _ _ _ _ G) as W. rewrite Forall_forall in W.
  eapply (assign_each_always choose Hchoose); [exact Hp| | |exact Hloop].
  - apply Forall_forall. intros e [He|He]%elem_of_pool.
    + apply list_elem_of_fmap in He as (c & -> & _). done.
    + apply list_elem_of_fmap in He as (r & -> & Hr).
      destruct (well_split_lengths _ (W _ Hr)) as (? & ? & ?).
      intros E. rewrite E in *. simpl in *. lia.
  - apply Forall_forall. intros r Hr.
    destruct (well_split_lengths _ (W _ Hr)) as (? & ? & Hl). split.
    + apply elem_of_pool. right. apply list_elem_of_fmap. by exists r.
    + split; intros E; rewrite E in Hl; lia.
Qed.

Lemma build_reactions_all_catalysed_witness :
  ∃ s rng',
    build_reactions 4 (init (sym "ABCD") (3 # 2) 2 false) [1; 0; 0; 5; 7; 2; 1; 0; 3]%N =
    Ok (s, rng')
    ∧ Forall (λ r, Catalyst r ≠ []) (reactions s).
Proof.
  eexists _, _. split; [vm_compute; reflexivity|].
  eapply (build_reactions_all_catalysed 4 (sym "ABCD") (3 # 2) false
            [1; 0; 0; 5; 7; 2; 1; 0; 3]%N).
  - vm_compute. discriminate.
  - vm_compute. reflexivity.
Defined.

(** X8: with a probability below 0 no reaction of a built network is
    given a catalyst, whatever the strategy and the random source. *)
Theorem build_reactions_none_catalysed fuel fp p sc po rng s rng' :
  (p < 0)%Q →
  build_reactions fuel (init fp p sc po) rng = Ok (s, rng') →
  Forall (λ r, Catalyst r = []) (reactions s).
Proof.
  intros Hp Hbuild.
  apply build_reactions_inv in Hbuild as (new & rng1 & s1 & G & Hassign & ->).
  apply assign_catalysts_cases in Hassign
    as [(_ & _ & _ & ->)|(choose & no_reuse & rs' & _ & _ & _ & -> & Hloop)];
    simpl in *.
  - eapply Forall_impl; [by eapply generated_well_split|].
    by intros r (_ & _ & _ & _ & ?).
  - by eapply assign_each_below_zero.
Qed.

Lemma build_reactions_none_catalysed_witness :
  ∃ s rng',
    build_reactions 4 (init (sym "ABCD") (-1 # 2) 2 false) [1; 0; 0; 5; 7; 2]%N =
    Ok (s, rng')
    ∧ Forall (λ r, Catalyst r = []) (reactions s).
Proof.
  eexists _, _. split; [vm_compute; reflexivity|].
  eapply (build_reactions_none_catalysed 4 (sym "ABCD") (-1 # 2) 2 false
            [1; 0; 0; 5; 7; 2]%N).
  - vm_compute. reflexivity.
  - vm_compute. reflexivity.
Defined.

(** ** Autocatalysis of a built network *)

Lemma built_catalysts_inside fuel fp p sc po rng s rng' :
  2 ≤ length fp →
  build_reactions fuel (init fp p sc po) rng = Ok (s, rng') →
  catalysts_of (mkDataFrame reaction_columns (reactions s))
  ⊆ symbols_of (mkDataFrame reaction_columns (reactions s)).
Proof.
  intros Hlen Hbuild c Hc. unfold catalysts_of, symbols_of in *. simpl in *.
  apply elem_of_difference in Hc as [Hc Hne].
  apply elem_of_list_to_set, list_elem_of_fmap in Hc as (r & -> & Hr).
  rewrite elem_of_singleton in Hne.
  destruct (built_catalyst_pool _ _ _ _ _ _ _ _ r Hbuild Hr Hne)
    as (_ & _ & [(ch & Hch & E)|(r' & Hr' & E)]).
  - pose proof (build_reactions_built _ _ _ _ _ _ _ _ Hbuild) as B.
    destruct (generated_leaves _ _ _ _ ch (built_generated _ _ _ _ _ B))
      as (r1 & Hr1 & Hleaf); [lia|done|].
    apply list_elem_of_fmap in Hr1 as (r2 & -> & Hr2). simpl in Hleaf.
    rewrite E, !elem_of_union, !elem_of_list_to_set, !list_elem_of_fmap.
    destruct Hleaf as [Hl|Hl]; [left; right|right]; by exists r2.
  - rewrite <- E, !elem_of_union, !elem_of_list_to_set, !list_elem_of_fmap.
    left. left. by exists r'.
Qed.

(** X9: the whole table of a built network of two characters or more
    passes the autocatalysis check exactly when one of its reactions
    has a catalyst: every catalyst that is assigned is a symbol of the
    table, so the check never fails for a catalyst from outside. *)
Theorem build_reactions_whole_set_autocatalytic fuel fp p sc po rng s rng' :
  2 ≤ length fp →
  build_reactions fuel (init fp p sc po) rng = Ok (s, rng') →
  ∃ df, reactions_df s = Some df
        ∧ is_autocatalytic_subnetwork df true =
          Ok (bool_decide (Exists (λ r, Catalyst r ≠ []) (reactions s))).
Proof.
  intros Hlen Hbuild.
  pose proof (built_catalysts_inside _ _ _ _ _ _ _ _ Hlen Hbuild) as Hsub.
  pose proof (build_reactions_built _ _ _ _ _ _ _ _ Hbuild) as B.
  destruct (built_frame _ _ _ _ _ B Hlen) as (_ & Hdf & _).
  eexists. split; [exact Hdf|].
  rewrite is_autocatalytic_subnetwork_Ok by done.
  rewrite (bool_decide_eq_true_2 _ Hsub), andb_true_r. simpl. f_equal.
  destruct (decide (Exists (λ r, Catalyst r ≠ []) (reactions s))) as [Hex|Hex].
  - rewrite (bool_decide_eq_true_2 _ Hex), bool_decide_eq_false_2; [done|].
    apply Exists_exists in Hex as (r & Hr & Hne). intros E.
    apply (not_elem_of_empty (C := gset Symbol) (Catalyst r)). rewrite <- E.
    unfold catalysts_of. simpl. apply elem_of_difference. split.
    + apply elem_of_list_to_set, list_elem_of_fmap. by exists r.
    + by rewrite elem_of_singleton.
  - rewrite (bool_decide_eq_false_2 _ Hex), bool_decide_eq_true_2; [done|].
    apply set_eq. intros c. rewrite elem_of_empty. split; [|done]. intros Hc.
    unfold catalysts_of in Hc. simpl in Hc.
    apply elem_of_difference in Hc as [Hc Hne].
    apply elem_of_list_to_set, list_elem_of_fmap in Hc as (r & -> & Hr).
    rewrite elem_of_singleton in Hne. apply Hex, Exists_exists. by exists r.
Qed.

Lemma build_reactions_whole_set_autocatalytic_witness :
  ∃ df, reactions_df set_AB = Some df
        ∧ is_autocatalytic_subnetwork df true =
          Ok (bool_decide (Exists (λ r, Catalyst r ≠ []) (reactions set_AB))).
Proof.
  apply (build_reactions_whole_set_autocatalytic 2 (sym "AB") 1 0 false [] set_AB []).
  - vm_compute. lia.
  - vm_compute. reflexivity.
Defined.

(** X10: without the check for catalysts the predicate only asks that
    every catalyst be a symbol of the table: a non-empty table with no
    catalyst at all then passes, and a table with some catalyst gets the
    same answer with and without the check. *)
Theorem is_autocatalytic_subnetwork_unchecked (rs : list Reaction) :
  rs ≠ [] →
  is_autocatalytic_subnetwork (pd_DataFrame rs) false =
    Ok (bool_decide (catalysts_of (pd_DataFrame rs) ⊆ symbols_of (pd_DataFrame rs)))
  ∧ (catalysts_of (pd_DataFrame rs) = ∅ →
     is_autocatalytic_subnetwork (pd_DataFrame rs) false = Ok true)
  ∧ (catalysts_of (pd_DataFrame rs) ≠ ∅ →
     is_autocatalytic_subnetwork (pd_DataFrame rs) false =
     is_autocatalytic_subnetwork (pd_DataFrame rs) true).
Proof.
  intros Hne. rewrite !is_autocatalytic_subnetwork_Ok by by apply pd_DataFrame_columns.
  simpl. split; [done|]. split.
  - intros E. rewrite bool_decide_eq_true_2; [done|]. rewrite E. apply empty_subseteq.
  - intros E. by rewrite (bool_decide_eq_false_2 _ E).
Qed.

Lemma is_autocatalytic_subnetwork_unchecked_witness :
  is_autocatalytic_subnetwork (pd_DataFrame (table_AB [])) false = Ok true
  ∧ is_autocatalytic_subnetwork (pd_DataFrame (table_AB (sym "Z"))) false =
    is_autocatalytic_subnetwork (pd_DataFrame (table_AB (sym "Z"))) true.
Proof.
  split.
  - destruct (is_autocatalytic_subnetwork_unchecked (table_AB [])) as (_ & H & _);
      [vm_compute; discriminate|].
    apply H. vm_compute. reflexivity.
  - destruct (is_autocatalytic_subnetwork_unchecked (table_AB (sym "Z"))) as (_ & _ & H);
      [vm_compute; discriminate|].
    apply H. apply (bool_decide_unpack _). vm_compute. exact I.
Defined.

(** ** The weights of the weighted strategies *)





(** ** Subnetworks as closures *)

Section closure.
Variable df : DataFrame.

Lemma for_reactants_rows l sub next sub' next' :
  for_in (for_reactant df) l (sub, next) = Ok (sub', next') →
  (∀ r, r ∈ rows sub' ↔
        r ∈ rows sub ∨ ∃ x, x ∈ l ∧ r ∈ rows df ∧ Product r = x)
  ∧ (∀ c, c ∈ next' ↔
          c ∈ next ∨ ∃ x r, x ∈ l ∧ r ∈ rows df ∧ Product r = x
                            ∧ (c = Constituent1 r ∨ c = Constituent2 r)).
Proof using Type.
  revert sub next. induction l as [|x l IH]; intros sub next H; simpl in H.
  { injection H as <- <-. split; intros y; split; auto.
    - intros [?|(? & []%elem_of_nil & _)]; done.
    - intros [?|(? & ? & []%elem_of_nil & _)]; done. }
  apply bind_Ok in H as ([sub1 next1] & Hone & H).
  apply IH in H as [Hrows Hnext]. unfold for_reactant in Hone.
  apply bind_Ok in Hone as (sel & [_ ->]%select_eq_inv & Hone).
  apply bind_Ok in Hone as (c1 & [_ ->]%getitem_inv & Hone).
  apply bind_Ok in Hone as (c2 & [_ ->]%getitem_inv & [= <- <-]).
  simpl in *. split.
  - intros r. rewrite Hrows, elem_of_app, list_elem_of_filter, cell_Product.
    split.
    + intros [[?|[? ?]]|(y & ? & ?)]; [by left|right..].
      * exists x. split; [by left|done].
      * exists y. split; [by right|done].
    + intros [?|(y & [->|?]%elem_of_cons & ? & ?)]; [by left; left|by left; right|].
      right. by exists y.
  - intros c. rewrite Hnext, elem_of_union, elem_of_list_to_set, elem_of_app,
      !list_elem_of_fmap. split.
    + intros [[?|[(r & -> & Hr)|(r & -> & Hr)]]|(y & r & ? & ?)]; [by left|right..].
      * apply list_elem_of_filter in Hr as [E Hr]. rewrite cell_Product in E.
        exists x, r. rewrite cell_Constituent1. split; [by left|]. auto.
      * apply list_elem_of_filter in Hr as [E Hr]. rewrite cell_Product in E.
        exists x, r. rewrite cell_Constituent2. split; [by left|]. auto.
      * exists y, r. split; [by right|done].
    + intros [?|(y & r & [->|?]%elem_of_cons & Hr & E & Hc)]; [by left; left| |].
      * left. right. destruct Hc as [-> | ->]; [left|right]; exists r;
          rewrite ?cell_Constituent1, ?cell_Constituent2; (split; [done|]);
          apply list_elem_of_filter; by rewrite cell_Product.
      * right. by exists y, r.
Qed.

Lemma while_reactants_closed fuel sub reactants out :
  while_reactants fuel df sub reactants = Ok out →
  (∀ r, r ∈ rows sub → r ∈ rows df) →
  producer_complete df (rows sub) → pending df (rows sub) reactants →
  (∀ r, r ∈ rows sub → r ∈ rows out)
  ∧ (∀ r, r ∈ rows out → r ∈ rows df)
  ∧ closed_under_producers df (rows out).
Proof using Type.
  revert sub reactants. induction fuel as [|fuel IH]; intros sub reactants H Hsub HA HB;
    simpl in H.
  - case_decide as Hr; [|done]. injection H as <-. subst reactants.
    split; [done|]. split; [done|].
    intros r Hr c Hc r' Hr' E. destruct (HB r Hr c Hc) as [[]%elem_of_empty|[H|H]].
    + destruct H as (r0 & Hr0 & E0). apply (HA r0 Hr0 r' Hr'). congruence.
    + by destruct (H r' Hr').
  - case_decide as Hr.
    { injection H as <-. subst reactants. split; [done|]. split; [done|].
      intros r Hr c Hc r' Hr' E. destruct (HB r Hr c Hc) as [[]%elem_of_empty|[H|H]].
      + destruct H as (r0 & Hr0 & E0). apply (HA r0 Hr0 r' Hr'). congruence.
      + by destruct (H r' Hr'). }
    apply bind_Ok in H as ([sub1 next] & Hfor & H).
    apply bind_Ok in H as (products & [_ ->]%getitem_inv & H).
    apply for_reactants_rows in Hfor as [Hrows Hnext]. simpl in *.
    apply IH in H as (H1 & H2 & H3).
    + split; [|done]. intros r Hr0. apply H1, Hrows. by left.
    + intros r [?|(x & _ & ? & _)]%Hrows; auto.
    + intros r0 [Hr0|(x & Hx & Hr0 & E0)]%Hrows r' Hr' E; apply Hrows.
      * left. by apply (HA r0 Hr0).
      * right. exists x. split; [done|]. split; [done|]. congruence.
    + intros r [Hr0|(x & Hx & Hr0 & E0)]%Hrows c Hc.
      * destruct (HB r Hr0 c Hc) as [Hin|[(r0 & ? & ?)|Hno]].
        -- destruct (filter (λ r', Product r' = c) (rows df)) as [|r' l] eqn:Ef.
           ++ right. right. intros r' Hr' E.
              eapply (filter_nil_not_elem_of _ _ r'); [exact Ef|done..].
           ++ right. left. exists r'.
              assert (r' ∈ filter (λ r', Product r' = c) (rows df)) as Hf
                by (rewrite Ef; left).
              apply list_elem_of_filter in Hf as [? ?]. split; [|done].
              apply Hrows. right. exists c. by rewrite elem_of_elements.
        -- right. left. exists r0. split; [|done]. apply Hrows. by left.
        -- by right; right.
      * destruct (decide (c ∈ (list_to_set (cell (sym "Product") <$> rows sub1)
                                : gset Symbol))) as [Hp|Hp].
        -- right. left. apply elem_of_list_to_set, list_elem_of_fmap in Hp
             as (r0 & E & ?). rewrite cell_Product in E. by exists r0.
        -- left. apply elem_of_difference. split; [|done].
           apply Hnext. right. by exists x, r.
Qed.

Lemma get_subnetwork_closed fuel product out :
  get_subnetwork fuel df product = Ok out →
  (∀ r, r ∈ rows df → Product r = product → r ∈ rows out)
  ∧ (∀ r, r ∈ rows out → r ∈ rows df)
  ∧ closed_under_producers df (rows out).
Proof using Type.
  unfold get_subnetwork. intros H.
  apply bind_Ok in H as (sel & [_ ->]%select_eq_inv & H).
  apply bind_Ok in H as (c1 & [_ ->]%getitem_inv & H).
  apply bind_Ok in H as (c2 & [_ ->]%getitem_inv & H).
  apply bind_Ok in H as (sub & Hwhile & [= <-]). simpl in *.
  apply while_reactants_closed in Hwhile as (H1 & H2 & H3); simpl.
  - split; [|split].
    + intros r Hr E. apply drop_duplicates_rows, H1, list_elem_of_filter.
      by rewrite cell_Product.
    + intros r Hr. by apply H2, drop_duplicates_rows.
    + intros r Hr c Hc r' Hr' E. apply drop_duplicates_rows.
      apply drop_duplicates_rows in Hr. by apply (H3 r Hr c Hc).
  - by intros r [_ ?]%list_elem_of_filter.
  - intros r0 [E0 _]%list_elem_of_filter r' Hr' E. rewrite cell_Product in E0.
    apply list_elem_of_filter. rewrite cell_Product. split; [congruence|done].
  - intros r Hr c Hc. left. rewrite elem_of_list_to_set, elem_of_app, !list_elem_of_fmap.
    destruct Hc as [-> | ->]; [left|right]; exists r;
      by rewrite ?cell_Constituent1, ?cell_Constituent2.
Qed.

Lemma get_subnetwork_empty fuel product out :
  get_subnetwork fuel df product = Ok out →
  (∀ r, r ∈ rows df → Product r ≠ product) → rows out = [].
Proof using Type.
  unfold get_subnetwork. intros H Hno.
  apply bind_Ok in H as (sel & [_ ->]%select_eq_inv & H).
  assert (filter (λ r, cell (sym "Product") r = product) (rows df) = []) as Ef.
  { destruct (filter _ (rows df)) as [|r l] eqn:Ef; [done|].
    assert (r ∈ filter (λ r, cell (sym "Product") r = product) (rows df)) as Hf
      by (rewrite Ef; left).
    apply list_elem_of_filter in Hf as [E Hr]. rewrite cell_Product in E.
    by destruct (Hno r Hr). }
  rewrite Ef in H.
  apply bind_Ok in H as (c1 & [_ ->]%getitem_inv & H).
  apply bind_Ok in H as (c2 & [_ ->]%getitem_inv & H).
  apply bind_Ok in H as (sub & Hwhile & [= <-]). simpl in Hwhile.
  destruct fuel; simpl in Hwhile; injection Hwhile as <-; done.
Qed.
End closure.

(** ** The keys and the entries of the dictionary *)

Lemma process_product_Forall (P : Symbol → DataFrame → Prop) loop_fuel fuel fp df
    product d d' :
  (∀ k out, get_subnetwork loop_fuel df k = Ok out → df_empty out = false → P k out) →
  process_product loop_fuel fuel fp df product d = Ok d' →
  map_Forall P d → map_Forall P d'.
Proof.
  intros HP. revert product d d'.
  induction fuel as [|fuel IH]; intros product d d' H Hd; simpl in H; [done|].
  apply bind_Ok in H as (sub & Hsub & H).
  destruct (df_empty sub) eqn:Ee; [by injection H as <-|].
  apply bind_Ok in H as (c1 & _ & H). apply bind_Ok in H as (c2 & _ & H).
  eapply (for_in_inv _ (map_Forall P)); [|exact H|].
  - intros c d1 d2 _ Hbody Hd2. simpl in Hbody.
    destruct (decide (c ∉ dom d1)); [exact (IH _ _ _ Hbody Hd2)|by injection Hbody as <-].
  - case_decide; [|done]. apply map_Forall_insert_2; [|done]. by apply HP.
Qed.

Lemma process_product_dom loop_fuel fuel fp df product d d' :
  process_product loop_fuel fuel fp df product d = Ok d' → dom d ⊆ dom d'.
Proof.
  revert product d d'.
  induction fuel as [|fuel IH]; intros product d d' H; simpl in H; [done|].
  apply bind_Ok in H as (sub & Hsub & H).
  destruct (df_empty sub) eqn:Ee; [by injection H as <-|].
  apply bind_Ok in H as (c1 & _ & H). apply bind_Ok in H as (c2 & _ & H).
  eapply (for_in_inv _ (λ d1, dom d ⊆ dom d1)); [|exact H|].
  - intros c d1 d2 _ Hbody Hd1. simpl in Hbody.
    destruct (decide (c ∉ dom d1)); [|by injection Hbody as <-].
    etrans; [exact Hd1|]. by eapply IH.
  - case_decide; [|done]. rewrite dom_insert. apply union_subseteq_r.
Qed.

Lemma process_product_key loop_fuel fuel fp df product d d' r :
  process_product loop_fuel fuel fp df product d = Ok d' →
  product ≠ fp → columns df ≠ [] → r ∈ rows df → Product r = product →
  product ∈ dom d'.
Proof.
  intros H Hne Hcol Hr E. destruct fuel as [|fuel]; simpl in H; [done|].
  apply bind_Ok in H as (sub & Hsub & H).
  pose proof (get_subnetwork_inv df (λ _, True) (λ _, True)
                (λ _ _ _, conj I (conj I I)) _ _ _ Hsub I) as [Hc _].
  apply get_subnetwork_closed in Hsub as (Hin & _ & _).
  assert (df_empty sub = false) as Ee.
  { apply bool_decide_eq_false_2. intros [E0|E0].
    - specialize (Hin r Hr E). rewrite E0 in Hin. by apply elem_of_nil in Hin.
    - by rewrite Hc in E0. }
  rewrite Ee in H.
  apply bind_Ok in H as (c1 & _ & H). apply bind_Ok in H as (c2 & _ & H).
  eapply (for_in_inv _ (λ d1, product ∈ dom d1)); [|exact H|].
  - intros c d1 d2 _ Hbody Hd1. simpl in Hbody.
    destruct (decide (c ∉ dom d1)); [|by injection Hbody as <-].
    by eapply process_product_dom.
  - case_decide; [|done]. rewrite dom_insert. apply elem_of_union_l.
    by apply elem_of_singleton.
Qed.

Lemma for_constituents_keys loop_fuel fuel fp df l d d' :
  columns df ≠ [] →
  for_in (λ constituent subnetwork_dict,
            if decide (constituent ∉ dom subnetwork_dict)
            then process_product loop_fuel fuel fp df constituent subnetwork_dict
            else Ok subnetwork_dict) l d = Ok d' →
  dom d ⊆ dom d'
  ∧ ∀ c r, c ∈ l → c ≠ fp → r ∈ rows df → Product r = c → c ∈ dom d'.
Proof.
  intros Hcol. revert d. induction l as [|x l IH]; intros d H; simpl in H.
  { injection H as <-. split; [done|]. by intros c r []%elem_of_nil. }
  apply bind_Ok in H as (d1 & Hx & H). apply IH in H as [Hmono Hkeys].
  assert (dom d ⊆ dom d1) as Hd1.
  { destruct (decide (x ∉ dom d)); [by eapply process_product_dom|].
    by injection Hx as <-. }
  split; [by etrans|].
  intros c r [->|Hc]%elem_of_cons Hne Hr E; [|by eapply Hkeys].
  apply Hmono. destruct (decide (x ∉ dom d)) as [Hx'|Hx'].
  - by eapply process_product_key.
  - injection Hx as <-. by apply dec_stable.
Qed.

Lemma generated_parents product layer i rs r :
  generated product layer i rs → r ∈ rs →
  Product r = product
  ∨ ∃ r', r' ∈ rs ∧ (Product r = Constituent1 r' ∨ Product r = Constituent2 r').
Proof.
  intros G. revert r.
  induction G as [|product layer i k rs1 rs2 Hk G1 IH1 G2 IH2]; intros r Hr;
    [by apply elem_of_nil in Hr|].
  rewrite !elem_of_app, list_elem_of_singleton in Hr.
  destruct Hr as [Hr|[Hr| ->]]; [| |by left]; right.
  - destruct (IH1 r Hr) as [E|(r' & Hr' & E)].
    + eexists. split; [rewrite !elem_of_app, list_elem_of_singleton; by right; right|].
      by left.
    + exists r'. split; [|done]. rewrite !elem_of_app. auto.
  - destruct (IH2 r Hr) as [E|(r' & Hr' & E)].
    + eexists. split; [rewrite !elem_of_app, list_elem_of_singleton; by right; right|].
      by right.
    + exists r'. split; [|done]. rewrite !elem_of_app. auto.
Qed.

Lemma generated_closed (D : list Reaction) (inside : Reaction → Prop) product layer i sk :
  generated product layer i sk →
  (∀ r, inside r → ∀ c, c = Constituent1 r ∨ c = Constituent2 r →
   ∀ r', r' ∈ D → Product r' = c → inside r') →
  ∀ rs, skeleton <$> rs = sk → (∀ r, r ∈ rs → r ∈ D) →
  (∀ r, r ∈ D → Product r = product → inside r) →
  ∀ r, r ∈ rs → inside r.
Proof.
  intros G Hclosed.
  induction G as [|product layer i k rs1 rs2 Hk G1 IH1 G2 IH2]; intros rs E HD Hroot r Hr.
  { apply fmap_nil_inv in E. subst rs. by apply elem_of_nil in Hr. }
  apply fmap_app_inv in E as (a & rest & Ea & E & ->). symmetry in E.
  apply fmap_app_inv in E as (b & l & Eb & E & ->).
  symmetry in Ea, Eb. destruct l as [|r0 [|]]; try done.
  injection E as _ _ E1 E2 EP. symmetry in E1, E2, EP.
  assert (inside r0) as Hr0.
  { apply Hroot; [|done]. apply HD. rewrite !elem_of_app, list_elem_of_singleton. auto. }
  rewrite !elem_of_app, list_elem_of_singleton in Hr.
  destruct Hr as [Hr|[Hr| ->]]; [| |done].
  - apply (IH1 a Ea); [|by apply (Hclosed r0 Hr0); auto|done].
    intros r1 Hr1. apply HD. rewrite !elem_of_app. auto.
  - apply (IH2 b Eb); [|by apply (Hclosed r0 Hr0); auto|done].
    intros r1 Hr1. apply HD. rewrite !elem_of_app. auto.
Qed.

Lemma get_subnetwork_feeds df fuel product out :
  get_subnetwork fuel df product = Ok out →
  ∀ r, r ∈ rows out ↔ feeds df product r.
Proof.
  intros H r. split.
  - intros Hr.
    apply (get_subnetwork_inv df (feeds df product)
             (λ c, c = product
                   ∨ ∃ r0, feeds df product r0
                           ∧ (c = Constituent1 r0 ∨ c = Constituent2 r0)))
      in H as [_ Hrows].
    + rewrite Forall_forall in Hrows. auto.
    + intros r0 Hr0 Hp.
      assert (feeds df product r0) as F.
      { destruct Hp as [E|(r1 & F & E)]; [by constructor|].
        by apply (feeds_constituent df product r1). }
      split; [done|]. split; right; exists r0; auto.
    + by left.
  - intros F. apply get_subnetwork_closed in H as (H1 & H2 & H3).
    induction F as [r Hr E|r r' F IH Hr' E]; [by apply H1|].
    destruct E as [E|E]; [apply (H3 r IH (Constituent1 r))|apply (H3 r IH (Constituent2 r))];
      auto.
Qed.

Lemma drop_duplicates_NoDup df : NoDup (rows (drop_duplicates df)).
Proof.
  unfold drop_duplicates. simpl.
  assert (∀ (l kept : list Reaction), NoDup kept →
            NoDup (foldl (λ kept r, if decide (r ∈ kept) then kept else kept ++ [r])
                     kept l)) as H.
  { induction l as [|x l IH]; intros kept Hk; simpl; [done|]. apply IH.
    case_decide; [done|]. apply NoDup_app. split; [done|].
    split; [|apply NoDup_singleton]. by intros y Hy ->%list_elem_of_singleton. }
  apply H, NoDup_nil_2.
Qed.

Lemma for_constituents_followed_up loop_fuel fuel fp df l d d' :
  (∀ product d d',
     process_product loop_fuel fuel fp df product d = Ok d' →
     ∀ k, k ∈ dom d' → k ∉ dom d →
     ∀ r c r', r ∈ rows df → Product r = k →
       c = Constituent1 r ∨ c = Constituent2 r →
       r' ∈ rows df → Product r' = c → c ≠ fp → c ∈ dom d') →
  for_in (λ constituent subnetwork_dict,
            if decide (constituent ∉ dom subnetwork_dict)
            then process_product loop_fuel fuel fp df constituent subnetwork_dict
            else Ok subnetwork_dict) l d = Ok d' →
  ∀ k, k ∈ dom d' → k ∉ dom d →
  ∀ r c r', r ∈ rows df → Product r = k →
    c = Constituent1 r ∨ c = Constituent2 r →
    r' ∈ rows df → Product r' = c → c ≠ fp → c ∈ dom d'.
Proof.
  intros IH. revert d. induction l as [|x l IHl]; intros d H k Hk Hnk; simpl in H.
  { injection H as <-. done. }
  apply bind_Ok in H as (d1 & Hx & H).
  destruct (decide (k ∈ dom d1)) as [Hk1|Hk1]; [|by apply (IHl d1)].
  intros r c r' Hr E Hc Hr' E' Hne.
  assert (dom d1 ⊆ dom d') as Hmono.
  { clear -H. revert d1 H. induction l as [|y l IHl]; intros d1 H; simpl in H.
    - by injection H as <-.
    - apply bind_Ok in H as (d2 & Hy & H). etrans; [|by apply IHl].
      destruct (decide (y ∉ dom d1)); [by eapply process_product_dom|].
      by injection Hy as <-. }
  apply Hmono. destruct (decide (x ∉ dom d)) as [Hx'|Hx'].
  - by apply (IH x d d1 Hx k Hk1 Hnk r c r').
  - injection Hx as <-. done.
Qed.

Lemma process_product_followed_up loop_fuel fuel fp df product d d' :
  columns df ≠ [] →
  process_product loop_fuel fuel fp df product d = Ok d' →
  ∀ k, k = product ∨ (k ∈ dom d' ∧ k ∉ dom d) →
  ∀ r c r', r ∈ rows df → Product r = k →
    c = Constituent1 r ∨ c = Constituent2 r →
    r' ∈ rows df → Product r' = c → c ≠ fp → c ∈ dom d'.
Proof.
  intros Hcol. revert product d d'.
  induction fuel as [|fuel IH]; intros product d d' H k Hk r c r' Hr E Hc Hr' E' Hne;
    simpl in H; [done|].
  apply bind_Ok in H as (sub & Hsub & H).
  pose proof (get_subnetwork_inv df (λ _, True) (λ _, True)
                (λ _ _ _, conj I (conj I I)) _ _ _ Hsub I) as [Hcols _].
  apply get_subnetwork_closed in Hsub as (Hin & _ & _).
  destruct (df_empty sub) eqn:Ee.
  { injection H as <-. destruct Hk as [->|[? ?]]; [|done].
    apply bool_decide_eq_true_1 in Ee as [E0|E0]; [|by rewrite Hcols in E0].
    specialize (Hin r Hr E). rewrite E0 in Hin. by apply elem_of_nil in Hin. }
  apply bind_Ok in H as (c1 & [_ ->]%getitem_inv & H).
  apply bind_Ok in H as (c2 & [_ ->]%getitem_inv & H).
  destruct (decide (k = product)) as [->|Hkp].
  - apply for_constituents_keys in H as [_ Hkeys]; [|done].
    apply (Hkeys c r'); [|done..].
    apply elem_of_elements, elem_of_list_to_set. rewrite elem_of_app, !list_elem_of_fmap.
    destruct Hc as [-> | ->]; [left|right]; exists r;
      by rewrite ?cell_Constituent1, ?cell_Constituent2; split; [|apply Hin].
  - destruct Hk as [?|[Hk Hnk]]; [done|].
    eapply (for_constituents_followed_up loop_fuel fuel fp df _ _ d'); [|exact H| | |
      exact Hr|exact E|exact Hc|exact Hr'|exact E'|exact Hne]; [|done|].
    + intros product0 d0 d0' H0 k0 Hk0 Hnk0. apply (IH product0 d0 d0' H0). by right.
    + case_decide; [|done]. rewrite dom_insert, elem_of_union, elem_of_singleton.
      by intros [?|?].
Qed.

Lemma get_subnetwork_producer loop_fuel df k out :
  get_subnetwork loop_fuel df k = Ok out → df_empty out = false →
  ∃ r, r ∈ rows df ∧ Product r = k.
Proof.
  intros H Ee. destruct (filter (λ r, Product r = k) (rows df)) as [|r l] eqn:Ef.
  - apply get_subnetwork_empty in H.
    + apply bool_decide_eq_false_1 in Ee. destruct Ee. by left.
    + intros r Hr E. by eapply (filter_nil_not_elem_of _ _ r).
  - assert (r ∈ filter (λ r, Product r = k) (rows df)) as Hf by (rewrite Ef; left).
    apply list_elem_of_filter in Hf as [? ?]. by exists r.
Qed.

Lemma get_subnetwork_NoDup loop_fuel df k out :
  get_subnetwork loop_fuel df k = Ok out → NoDup (rows out).
Proof.
  unfold get_subnetwork. intros H.
  apply bind_Ok in H as (sel & _ & H). apply bind_Ok in H as (c1 & _ & H).
  apply bind_Ok in H as (c2 & _ & H). apply bind_Ok in H as (sub & _ & [= <-]).
  apply drop_duplicates_NoDup.
Qed.

Lemma extract_subnetworks_built_keys fuel fp p sc po s :
  built fp p sc po s → 2 ≤ length fp → length fp < fuel →
  ∃ d, extract_subnetworks fuel s = Ok (set_subnetwork_dict s d)
       ∧ dict_inv fp (mkDataFrame reaction_columns (reactions s)) d
       ∧ dom d = list_to_set (Product <$> reactions s) ∖ {[fp]}.
Proof.
  intros Hbuild Hlen Hfuel.
  destruct (extract_subnetworks_built fuel _ _ _ _ _ Hbuild Hlen Hfuel)
    as (d & Hex & Hinv).
  exists d. split; [done|]. split; [done|]. destruct Hinv as [Hfp _].
  destruct (built_frame _ _ _ _ _ Hbuild Hlen) as (_ & Hdf & _).
  unfold extract_subnetworks in Hex. rewrite Hdf in Hex.
  rewrite (built_final_product _ _ _ _ _ Hbuild),
    (built_subnetwork_dict _ _ _ _ _ Hbuild) in Hex.
  apply bind_Ok in Hex as (d0 & Hd & [= ->]).
  apply set_eq. intros k.
  rewrite elem_of_difference, elem_of_list_to_set, list_elem_of_fmap, elem_of_singleton.
  split.
  - intros Hk. split; [|by intros ->].
    apply elem_of_dom in Hk as [sub Hsub].
    eapply (process_product_Forall (λ k _, ∃ r, k = Product r ∧ r ∈ reactions s))
      in Hd.
    + exact (Hd k sub Hsub).
    + intros k0 out H0 Ee.
      destruct (get_subnetwork_producer _ _ _ _ H0 Ee) as (r & Hr & E). by exists r.
    + apply map_Forall_empty.
  - intros [(r & -> & Hr) Hne].
    destruct (generated_closed (reactions s)
                (λ r, r ∈ reactions s ∧ (Product r = fp ∨ Product r ∈ dom d))
                _ _ _ _ (built_generated _ _ _ _ _ Hbuild)) with (rs := reactions s) (r := r)
      as [_ [?|?]]; try done.
    + intros r0 [Hin Hr0] c Hc r' Hr' E. split; [done|].
      destruct (decide (c = fp)) as [->|Hcfp]; [by left|]. right. rewrite E.
      eapply (process_product_followed_up _ _ _ _ _ _ _ _ Hd (Product r0));
        [|exact Hin|done|exact Hc|exact Hr'|exact E|exact Hcfp].
      destruct Hr0 as [?|?]; [by left|]. right. split; [done|].
      rewrite dom_empty_L. apply not_elem_of_empty.
    + intros r0 ? ?. split; [done|]. by left.
Unshelve. done.
Qed.

(** X12: after the subnetworks of a built network are extracted, the
    keys of the dictionary are the products of the reactions of the
    network, the final product left out: every intermediate product
    has its subnetwork, and nothing else has. *)
Theorem extract_subnetworks_keys fuel fp p sc po rng s rng' fuel' :
  build_reactions fuel (init fp p sc po) rng = Ok (s, rng') →
  2 ≤ length fp → length fp < fuel' →
  ∃ s', extract_subnetworks fuel' s = Ok s'
        ∧ dom (subnetwork_dict s') = list_to_set (Product <$> reactions s) ∖ {[fp]}.
Proof.
  intros Hbuild Hlen Hfuel. apply build_reactions_built in Hbuild.
  destruct (extract_subnetworks_built_keys fuel' _ _ _ _ _ Hbuild Hlen Hfuel)
    as (d & Hex & _ & Hdom).
  by exists (set_subnetwork_dict s d).
Qed.

Lemma extract_subnetworks_keys_witness :
  ∃ s', extract_subnetworks 5 set_ABCD = Ok s'
        ∧ dom (subnetwork_dict s') =
          list_to_set (Product <$> reactions set_ABCD) ∖ {[sym "ABCD"]}.
Proof.
  apply (extract_subnetworks_keys 4 (sym "ABCD") 0 7 false [1; 0; 0]%N set_ABCD [] 5);
    [vm_compute; reflexivity|vm_compute; lia..].
Defined.

Lemma extract_subnetworks_feeds fuel (self : t) df s' k sub :
  reactions_df self = Some df → subnetwork_dict self = ∅ →
  extract_subnetworks fuel self = Ok s' →
  subnetwork_dict s' !! k = Some sub →
  columns sub = columns df ∧ NoDup (rows sub) ∧ rows sub ≠ []
  ∧ ∀ r, r ∈ rows sub ↔ feeds df k r.
Proof.
  intros Hdf Hempty Hex Hk. unfold extract_subnetworks in Hex. rewrite Hdf, Hempty in Hex.
  apply bind_Ok in Hex as (d & Hd & [= <-]). simpl in Hk.
  eapply (process_product_Forall
            (λ k sub, columns sub = columns df ∧ NoDup (rows sub) ∧ rows sub ≠ []
                      ∧ ∀ r, r ∈ rows sub ↔ feeds df k r)) in Hd.
  - exact (Hd k sub Hk).
  - intros k0 out H0 Ee. split; [|split; [|split]].
    + by apply (get_subnetwork_inv df (λ _, True) (λ _, True)
                  (λ _ _ _, conj I (conj I I)) _ _ _ H0 I).
    + by eapply get_subnetwork_NoDup.
    + apply bool_decide_eq_false_1 in Ee. intros E. apply Ee. by left.
    + by eapply get_subnetwork_feeds.
  - apply map_Forall_empty.
Qed.

(** X13: the subnetwork that the extraction stores under a key holds,
    each once, the reactions of the table that feed the key: those
    that produce it, and those that produce a constituent of a
    reaction that feeds it.  It has the columns of the table and is
    never empty. *)
Theorem extract_subnetworks_entries fuel (self : t) df s' k sub :
  reactions_df self = Some df → subnetwork_dict self = ∅ →
  extract_subnetworks fuel self = Ok s' →
  subnetwork_dict s' !! k = Some sub →
  columns sub = columns df ∧ NoDup (rows sub) ∧ rows sub ≠ []
  ∧ ∀ r, r ∈ rows sub ↔ feeds df k r.
Proof. apply extract_subnetworks_feeds. Qed.

Lemma extract_subnetworks_entries_witness :
  ∃ s' sub,
    extract_subnetworks 5 set_ABCD = Ok s'
    ∧ subnetwork_dict s' !! sym "AB" = Some sub
    ∧ columns sub = reaction_columns ∧ NoDup (rows sub) ∧ rows sub ≠ []
    ∧ ∀ r, r ∈ rows sub ↔ feeds (mkDataFrame reaction_columns reactions_ABCD) (sym "AB") r.
Proof.
  eexists _, _. split; [vm_compute; reflexivity|]. split; [vm_compute; reflexivity|].
  eapply (extract_subnetworks_entries 5 set_ABCD
            (mkDataFrame reaction_columns reactions_ABCD) _ (sym "AB"));
    vm_compute; reflexivity.
Defined.

(** ** The numbers that a trial reports *)

Lemma generated_width product layer i rs (depth : nat) :
  generated product layer i rs → layer ≤ depth → Forall (λ r, Layer r < depth) rs →
  length product ≤ 2 ^ (depth - layer).
Proof.
  induction 1 as [product layer i Hlen|product layer i k rs1 rs2 Hk _ IH1 _ IH2];
    intros Hd Hall.
  { rewrite Hlen. pose proof (Nat.pow_nonzero 2 (depth - layer)). lia. }
  rewrite !Forall_app, Forall_singleton in Hall. destruct Hall as (H1 & H2 & Hroot).
  simpl in Hroot. specialize (IH1 ltac:(lia) H1). specialize (IH2 ltac:(lia) H2).
  rewrite sorted_length, length_take in IH1. rewrite sorted_length, length_drop in IH2.
  replace (depth - layer) with (S (depth - (layer + 1))) by lia.
  rewrite Nat.pow_succ_r'. lia.
Qed.

Lemma max_depth_foldl (rs : list Reaction) (m : nat) :
  m ≤ foldl (λ max_depth reaction,
               if decide (max_depth < Layer reaction) then Layer reaction else max_depth)
        m rs
  ∧ Forall (λ r, Layer r ≤
                 foldl (λ max_depth reaction,
                          if decide (max_depth < Layer reaction)
                          then Layer reaction else max_depth) m rs) rs
  ∧ (foldl (λ max_depth reaction,
              if decide (max_depth < Layer reaction) then Layer reaction else max_depth)
       m rs = m
     ∨ ∃ r, r ∈ rs
            ∧ Layer r = foldl (λ max_depth reaction,
                                 if decide (max_depth < Layer reaction)
                                 then Layer reaction else max_depth) m rs).
Proof.
  revert m. induction rs as [|r rs IH]; intros m; simpl.
  { split; [done|]. split; [constructor|by left]. }
  destruct (IH (if decide (m < Layer r) then Layer r else m)) as (H1 & H2 & H3).
  split; [case_decide; lia|]. split.
  - constructor; [case_decide; lia|done].
  - destruct H3 as [E|(r0 & Hr0 & E)].
    + case_decide; [|by left]. right. exists r. split; [by left|done].
    + right. exists r0. split; [by right|done].
Qed.

Lemma count_subnetworks (l : list (Symbol * DataFrame)) a b a' b' :
  Forall (λ item, columns item.2 = reaction_columns) l →
  for_in (λ (item : Symbol * DataFrame) (counts : nat * nat),
            let '(subnetwork_count, autocatalytic_subnetwork_count) := counts in
            b ← is_autocatalytic_subnetwork item.2 true;
            Ok (subnetwork_count + 1,
                if b : bool then autocatalytic_subnetwork_count + 1
                else autocatalytic_subnetwork_count)) l (a, b) = Ok (a', b') →
  a' = a + length l
  ∧ b' = b + length (filter (λ item : Symbol * DataFrame,
                               catalysts_of item.2 ≠ ∅
                               ∧ catalysts_of item.2 ⊆ symbols_of item.2) l).
Proof.
  revert a b. induction l as [|x l IH]; intros a b Hall H; simpl in H.
  { injection H as <- <-. simpl. lia. }
  apply Forall_cons in Hall as [Hx Hall].
  rewrite is_autocatalytic_subnetwork_Ok in H by done. simpl in H.
  apply IH in H as [-> ->]; [|done]. rewrite filter_cons. simpl length.
  destruct (decide (catalysts_of x.2 ≠ ∅ ∧ catalysts_of x.2 ⊆ symbols_of x.2))
    as [[H1 H2]|Hn].
  - rewrite (bool_decide_eq_false_2 _ H1), (bool_decide_eq_true_2 _ H2). simpl. lia.
  - destruct (decide (catalysts_of x.2 = ∅)) as [E|E].
    + rewrite (bool_decide_eq_true_2 _ E). simpl. lia.
    + rewrite (bool_decide_eq_false_2 _ E), (bool_decide_eq_false_2 (_ ⊆ _)); [simpl; lia|].
      intros ?. by apply Hn.
Qed.

Lemma size_list_to_set_le (l : list Symbol) :
  size (list_to_set l : gset Symbol) ≤ length l.
Proof.
  induction l as [|x l IH]; simpl; [done|].
  rewrite size_union_alt, size_singleton.
  assert ((list_to_set l : gset Symbol) ∖ {[x]} ⊆ list_to_set l) as Hsub
    by by apply subseteq_difference_l.
  apply subseteq_size in Hsub. lia.
Qed.

Lemma process_autocatalytic_set_built_counts fuel fp p sc po s :
  built fp p sc po s → 2 ≤ length fp → length fp < fuel →
  ∃ subnetwork_count autocatalytic_subnetwork_count max_depth d,
    AssemblyAnalysis.process_autocatalytic_set fuel s =
    Ok ([subnetwork_count; autocatalytic_subnetwork_count; max_depth],
        set_subnetwork_dict s d)
    ∧ dom d = list_to_set (Product <$> reactions s) ∖ {[fp]}
    ∧ subnetwork_count = size d
    ∧ subnetwork_count ≤ length fp - 2
    ∧ autocatalytic_subnetwork_count =
        length (filter (λ item : Symbol * DataFrame,
                          catalysts_of item.2 ≠ ∅
                          ∧ catalysts_of item.2 ⊆ symbols_of item.2) (map_to_list d))
    ∧ autocatalytic_subnetwork_count ≤ subnetwork_count
    ∧ length fp ≤ 2 ^ max_depth ∧ max_depth < length fp
    ∧ Forall (λ r, Layer r < max_depth) (reactions s)
    ∧ ∃ r, r ∈ reactions s ∧ max_depth = Layer r + 1.
Proof.
  intros B Hlen Hfuel.
  destruct (extract_subnetworks_built_keys fuel _ _ _ _ _ B Hlen Hfuel)
    as (d & Hd & [_ Hinv] & Hdom).
  pose proof (built_generated _ _ _ _ _ B) as G.
  destruct (process_autocatalytic_set_built fuel _ _ _ _ _ B Hlen Hfuel)
    as (n1 & n2 & n3 & d' & Hp & _).
  unfold AssemblyAnalysis.process_autocatalytic_set in Hp |- *.
  rewrite Hd in Hp |- *. simpl in Hp |- *.
  apply bind_Ok in Hp as ([a b] & Hcount & _). rewrite Hcount. simpl.
  apply count_subnetworks in Hcount as [-> ->].
  2:{ apply Forall_forall. intros [k sub] Hin%elem_of_map_to_list.
      by apply Hinv in Hin as [? _]. }
  destruct (max_depth_foldl (reactions s) 0) as (_ & Hmax & Hwhich).
  set (m := foldl _ 0 (reactions s)) in *.
  eexists _, _, _, d. split; [done|]. split; [done|].
  rewrite length_map_to_list. split; [done|]. split.
  { rewrite <- (size_dom d), Hdom, size_difference, size_singleton.
    - pose proof (size_list_to_set_le (Product <$> reactions s)) as Hs.
      rewrite length_fmap, <- (length_fmap skeleton), (generated_length _ _ _ _ G) in Hs.
      lia.
    - apply singleton_subseteq_l, elem_of_list_to_set.
      destruct (generated_root _ _ _ _ G) as (r & Hr & E & _); [lia|].
      apply list_elem_of_fmap in Hr as (r' & -> & Hr').
      apply list_elem_of_fmap. by exists r'. }
  split; [done|]. split.
  { simpl. rewrite <- (length_map_to_list d). apply length_filter. }
  assert (Forall (λ r, Layer r < m + 1) (reactions s)) as Hbelow.
  { eapply Forall_impl; [exact Hmax|]. simpl. lia. }
  split; [|split; [|split; [done|]]].
  - pose proof (generated_width _ _ _ _ (m + 1) G) as Hw.
    rewrite Nat.sub_0_r in Hw. apply Hw; [lia|].
    apply Forall_fmap. eapply Forall_impl; [exact Hbelow|]. done.
  - destruct Hwhich as [E|(r & Hr & E)].
    + lia.
    + pose proof (generated_depth _ _ _ _ G) as Hdepth.
      pose proof (generated_well_split _ _ _ _ G) as W.
      rewrite Forall_forall in Hdepth, W.
      assert (skeleton r ∈ skeleton <$> reactions s) as Hsk
        by (apply list_elem_of_fmap; by exists r).
      specialize (Hdepth _ Hsk). destruct (W _ Hsk) as (k & Hk & _).
      simpl in Hdepth, Hk. lia.
  - destruct Hwhich as [E|(r & Hr & E)].
    + destruct (generated_root _ _ _ _ G) as (r & Hr & _ & El); [lia|].
      apply list_elem_of_fmap in Hr as (r' & -> & Hr'). simpl in El.
      exists r'. split; [done|].
      rewrite Forall_forall in Hmax. specialize (Hmax r' Hr'). lia.
    + exists r. split; [done|]. lia.
Qed.

(** X14: what [process_autocatalytic_set] reports on a built network
    of [L >= 2] characters.  The number of subnetworks is the size of
    the dictionary, at most [L - 2]; the number of autocatalytic ones
    counts the entries that have a catalyst and hold all their
    catalysts among their products and constituents, so it is at most
    the number of subnetworks; and the depth is one more than the
    largest layer of the table, between the logarithm of [L] to base 2
    and [L - 1]. *)
Theorem process_autocatalytic_set_counts fuel fp p sc po rng s rng' fuel' :
  build_reactions fuel (init fp p sc po) rng = Ok (s, rng') →
  2 ≤ length fp → length fp < fuel' →
  ∃ subnetwork_count autocatalytic_subnetwork_count max_depth s',
    AssemblyAnalysis.process_autocatalytic_set fuel' s =
    Ok ([subnetwork_count; autocatalytic_subnetwork_count; max_depth], s')
    ∧ subnetwork_count = size (subnetwork_dict s')
    ∧ subnetwork_count ≤ length fp - 2
    ∧ autocatalytic_subnetwork_count =
        length (filter (λ item : Symbol * DataFrame,
                          catalysts_of item.2 ≠ ∅
                          ∧ catalysts_of item.2 ⊆ symbols_of item.2)
                  (map_to_list (subnetwork_dict s')))
    ∧ autocatalytic_subnetwork_count ≤ subnetwork_count
    ∧ length fp ≤ 2 ^ max_depth ∧ max_depth < length fp
    ∧ Forall (λ r, Layer r < max_depth) (reactions s)
    ∧ ∃ r, r ∈ reactions s ∧ max_depth = Layer r + 1.
Proof.
  intros Hbuild Hlen Hfuel. apply build_reactions_built in Hbuild.
  destruct (process_autocatalytic_set_built_counts fuel' _ _ _ _ _ Hbuild Hlen Hfuel)
    as (n1 & n2 & n3 & d & H & _ & Hrest).
  by exists n1, n2, n3, (set_subnetwork_dict s d).
Qed.

Lemma process_autocatalytic_set_counts_witness :
  ∃ subnetwork_count autocatalytic_subnetwork_count max_depth s',
    AssemblyAnalysis.process_autocatalytic_set 5 set_ABCD =
    Ok ([subnetwork_count; autocatalytic_subnetwork_count; max_depth], s')
    ∧ subnetwork_count = size (subnetwork_dict s')
    ∧ subnetwork_count ≤ length (sym "ABCD") - 2
    ∧ autocatalytic_subnetwork_count =
        length (filter (λ item : Symbol * DataFrame,
                          catalysts_of item.2 ≠ ∅
                          ∧ catalysts_of item.2 ⊆ symbols_of item.2)
                  (map_to_list (subnetwork_dict s')))
    ∧ autocatalytic_subnetwork_count ≤ subnetwork_count
    ∧ length (sym "ABCD") ≤ 2 ^ max_depth ∧ max_depth < length (sym "ABCD")
    ∧ Forall (λ r, Layer r < max_depth) (reactions set_ABCD)
    ∧ ∃ r, r ∈ reactions set_ABCD ∧ max_depth = Layer r + 1.
Proof.
  apply (process_autocatalytic_set_counts 4 (sym "ABCD") 0 7 false [1; 0; 0]%N
           set_ABCD [] 5); [vm_compute; reflexivity|vm_compute; lia..].
Defined.

(** ** The batch *)

Lemma for_range_count {St : Type} (n : nat) (body : St → outcome St)
    (I : nat → St → Prop) (s : St) :
  (∀ i s, I i s → ∃ s', body s = Ok s' ∧ I (S i) s') →
  I 0 s → ∃ s', for_range n body s = Ok s' ∧ I n s'.
Proof.
  intros Hbody.
  assert (∀ i s, I i s → ∃ s', for_range n body s = Ok s' ∧ I (i + n) s') as H.
  { induction n as [|n IH]; intros i s0 Hs; simpl.
    - exists s0. by rewrite Nat.add_0_r.
    - destruct (Hbody i s0 Hs) as (s1 & -> & Hs1). simpl.
      destruct (IH (S i) s1 Hs1) as (s' & -> & Hs'). exists s'. split; [done|].
      by replace (i + S n) with (S i + n) by lia. }
  apply (H 0).
Qed.

Lemma elem_of_extend_assembly_indices mode idx d w c v :
  v ∈ AssemblyAnalysis.extend_assembly_indices mode idx d w c ↔ v ∈ idx ∨ v = d.
Proof.
  unfold AssemblyAnalysis.extend_assembly_indices.
  destruct (eq_True mode); [|destruct (eq_str mode (sym "square"))];
    rewrite elem_of_app, ?elem_of_replicate, ?list_elem_of_singleton; [| |done].
  - split; [tauto|]. intros [?|?]; [by left|right]. split; [done|lia].
  - split; [tauto|]. intros [?|?]; [by left|right]. split; [done|].
    apply Nat.pow_nonzero. lia.
Qed.

Lemma length_extend_assembly_indices mode idx d w c :
  length idx + 1 ≤ length (AssemblyAnalysis.extend_assembly_indices mode idx d w c).
Proof.
  unfold AssemblyAnalysis.extend_assembly_indices.
  destruct (eq_True mode); [|destruct (eq_str mode (sym "square"))];
    rewrite length_app, ?length_replicate; simpl; [lia| |lia].
  assert ((1 + w + c) ^ 2 ≠ 0) by (apply Nat.pow_nonzero; lia). lia.
Qed.

Lemma find_assembly_list_trial_built fuel (self : AssemblyAnalysis.t) idx rng :
  2 ≤ length (AssemblyAnalysis.final_product self) →
  length (AssemblyAnalysis.final_product self) < fuel →
  ∃ subnetwork_count autocatalytic_subnetwork_count max_depth w rng',
    AssemblyAnalysis.find_assembly_list_trial fuel (idx, self, rng) =
    Ok (AssemblyAnalysis.extend_assembly_indices (AssemblyAnalysis.switch_aut_prob self)
          idx max_depth w autocatalytic_subnetwork_count,
        AssemblyAnalysis.append_counts self subnetwork_count
          autocatalytic_subnetwork_count max_depth,
        rng')
    ∧ subnetwork_count ≤ length (AssemblyAnalysis.final_product self) - 2
    ∧ autocatalytic_subnetwork_count ≤ subnetwork_count
    ∧ length (AssemblyAnalysis.final_product self) ≤ 2 ^ max_depth
    ∧ max_depth < length (AssemblyAnalysis.final_product self).
Proof.
  intros Hlen Hfuel. unfold AssemblyAnalysis.find_assembly_list_trial.
  destruct (build_reactions_total fuel (AssemblyAnalysis.final_product self)
              (AssemblyAnalysis.catalyst_probability self)
              (AssemblyAnalysis.switch_cat self) (AssemblyAnalysis.print_out self) rng)
    as (s & rng' & Hbuild); [by intros E; rewrite E in Hlen; simpl in Hlen; lia|lia|].
  rewrite Hbuild. simpl. apply build_reactions_built in Hbuild.
  destruct (process_autocatalytic_set_built_counts fuel _ _ _ _ _ Hbuild Hlen Hfuel)
    as (n1 & n2 & n3 & d & -> & _ & _ & H1 & _ & H2 & H3 & H4 & _).
  simpl. destruct (built_frame _ _ _ _ _ Hbuild Hlen) as (_ & -> & _).
  rewrite is_autocatalytic_subnetwork_Ok by done. simpl.
  by eexists n1, n2, n3, _, rng'.
Qed.

(** X15: what a batch of [n] trials returns for a final product of
    [L >= 2] characters.  [find_assembly_list] returns; each of the
    three lists of counts it fills has [n] entries, one per trial; the
    values of the returned list are the depths of the trials, each at
    least once, so there are at least [n] of them, and every one lies
    between the logarithm of [L] to base 2 and [L - 1]; no trial has
    more than [L - 2] subnetworks, or more autocatalytic subnetworks
    than subnetworks; and when the amplification is neither [True] nor
    "square" the returned list is the list of the depths. *)
Theorem find_assembly_list_indices fuel fp n p sc mode po rng :
  2 ≤ length fp → length fp < fuel →
  ∃ assembly_indices self' rng',
    AssemblyAnalysis.find_assembly_list fuel (AssemblyAnalysis.init fp n p sc mode po) rng =
    Ok (assembly_indices, self', rng')
    ∧ length (AssemblyAnalysis.max_depths self') = n
    ∧ length (AssemblyAnalysis.subnetwork_counts self') = n
    ∧ length (AssemblyAnalysis.autocatalytic_subnetwork_counts self') = n
    ∧ n ≤ length assembly_indices
    ∧ (∀ v, v ∈ assembly_indices ↔ v ∈ AssemblyAnalysis.max_depths self')
    ∧ Forall (λ v, length fp ≤ 2 ^ v ∧ v < length fp) assembly_indices
    ∧ Forall (λ c, c ≤ length fp - 2) (AssemblyAnalysis.subnetwork_counts self')
    ∧ Forall2 le (AssemblyAnalysis.autocatalytic_subnetwork_counts self')
        (AssemblyAnalysis.subnetwork_counts self')
    ∧ (eq_True mode = false → eq_str mode (sym "square") = false →
       assembly_indices = AssemblyAnalysis.max_depths self').
Proof.
  intros Hlen Hfuel. unfold AssemblyAnalysis.find_assembly_list.
  destruct (for_range_count n (AssemblyAnalysis.find_assembly_list_trial fuel)
              (λ k st,
                 AssemblyAnalysis.final_product st.1.2 = fp
                 ∧ AssemblyAnalysis.switch_aut_prob st.1.2 = mode
                 ∧ length (AssemblyAnalysis.max_depths st.1.2) = k
                 ∧ length (AssemblyAnalysis.subnetwork_counts st.1.2) = k
                 ∧ length (AssemblyAnalysis.autocatalytic_subnetwork_counts st.1.2) = k
                 ∧ k ≤ length st.1.1
                 ∧ (∀ v, v ∈ st.1.1 ↔ v ∈ AssemblyAnalysis.max_depths st.1.2)
                 ∧ Forall (λ v, length fp ≤ 2 ^ v ∧ v < length fp)
                     (AssemblyAnalysis.max_depths st.1.2)
                 ∧ Forall (λ c, c ≤ length fp - 2)
                     (AssemblyAnalysis.subnetwork_counts st.1.2)
                 ∧ Forall2 le (AssemblyAnalysis.autocatalytic_subnetwork_counts st.1.2)
                     (AssemblyAnalysis.subnetwork_counts st.1.2)
                 ∧ (eq_True mode = false → eq_str mode (sym "square") = false →
                    st.1.1 = AssemblyAnalysis.max_depths st.1.2))
              ([], AssemblyAnalysis.init fp n p sc mode po, rng))
    as ([[idx self'] rng'] & Hrun & Hinv).
  - intros k [[idx self1] rng1] (Efp & Emode & E1 & E2 & E3 & Hk & Hiff & Hd & Hs & Ha & Hnone).
    simpl in *.
    destruct (find_assembly_list_trial_built fuel self1 idx rng1)
      as (n1 & n2 & n3 & w & rng2 & Htrial & H1 & H2 & H3 & H4); [by rewrite Efp..|].
    rewrite Efp in H1, H3, H4. rewrite Emode in Htrial.
    eexists. split; [exact Htrial|]. simpl. rewrite !length_app. simpl.
    split; [done|]. split; [done|]. split; [lia|]. split; [lia|]. split; [lia|].
    split; [|split; [|split; [|split; [|split]]]].
    + pose proof (length_extend_assembly_indices mode idx n3 w n2). lia.
    + intros v. rewrite elem_of_extend_assembly_indices, elem_of_app,
        list_elem_of_singleton, Hiff. done.
    + apply Forall_app. split; [done|]. by apply Forall_singleton.
    + apply Forall_app. split; [done|]. by apply Forall_singleton.
    + apply Forall2_app; [done|]. by apply Forall2_cons.
    + intros M1 M2. rewrite extend_assembly_indices_other by done.
      by rewrite (Hnone M1 M2).
  - simpl. split; [done|]. split; [done|]. split; [done|]. split; [done|].
    split; [done|]. split; [lia|]. split; [done|]. split; [constructor|].
    split; [constructor|]. split; [constructor|done].
  - destruct Hinv as (_ & _ & E1 & E2 & E3 & Hk & Hiff & Hd & Hs & Ha & Hnone).
    simpl in E1, E2, E3, Hk, Hiff, Hd, Hs, Ha, Hnone.
    exists idx, self', rng'. split; [exact Hrun|].
    split; [done|]. split; [done|]. split; [done|]. split; [done|]. split; [done|].
    split; [|done]. apply Forall_forall. intros v Hv%Hiff.
    rewrite Forall_forall in Hd. by apply Hd.
Qed.

Lemma find_assembly_list_indices_witness :
  ∃ assembly_indices self' rng',
    AssemblyAnalysis.find_assembly_list 5
      (AssemblyAnalysis.init (sym "ABCD") 3 (1 # 2) 2 (PyBool false) false) [1; 0; 0]%N =
    Ok (assembly_indices, self', rng')
    ∧ length (AssemblyAnalysis.max_depths self') = 3
    ∧ length (AssemblyAnalysis.subnetwork_counts self') = 3
    ∧ length (AssemblyAnalysis.autocatalytic_subnetwork_counts self') = 3
    ∧ 3 ≤ length assembly_indices
    ∧ (∀ v, v ∈ assembly_indices ↔ v ∈ AssemblyAnalysis.max_depths self')
    ∧ Forall (λ v, length (sym "ABCD") ≤ 2 ^ v ∧ v < length (sym "ABCD")) assembly_indices
    ∧ Forall (λ c, c ≤ length (sym "ABCD") - 2) (AssemblyAnalysis.subnetwork_counts self')
    ∧ Forall2 le (AssemblyAnalysis.autocatalytic_subnetwork_counts self')
        (AssemblyAnalysis.subnetwork_counts self')
    ∧ assembly_indices = AssemblyAnalysis.max_depths self'.
Proof.
  destruct (find_assembly_list_indices 5 (sym "ABCD") 3 (1 # 2) 2 (PyBool false) false
              [1; 0; 0]%N) as (idx & self' & rng' & H & H1 & H2 & H3 & H4 & H5 & H6 & H7
                               & H8 & H9); [vm_compute; lia..|].
  exists idx, self', rng'. repeat (split; [assumption|]). apply H9; reflexivity.
Defined.

(** ** [find_assembly_index] *)

Lemma process_autocatalytic_set_tuple fuel s tuple s' :
  AssemblyAnalysis.process_autocatalytic_set fuel s = Ok (tuple, s') → length tuple = 3.
Proof.
  unfold AssemblyAnalysis.process_autocatalytic_set. intros H.
  apply bind_Ok in H as (s1 & _ & H). apply bind_Ok in H as ([a b] & _ & [= <- _]).
  done.
Qed.

Lemma find_assembly_index_trial_not_Ok fuel st st' :
  AssemblyAnalysis.find_assembly_index_trial fuel st ≠ Ok st'.
Proof.
  destruct st as [[idx self] rng]. unfold AssemblyAnalysis.find_assembly_index_trial.
  intros H. apply bind_Ok in H as ([s rng1] & _ & H).
  apply bind_Ok in H as ([tuple s1] & Hp & H).
  apply process_autocatalytic_set_tuple in Hp.
  apply bind_Ok in H as ([a b] & Hu & _).
  by destruct tuple as [|? [|? [|? [|]]]].
Qed.

(** X16: [find_assembly_index] never returns an index.  Whatever the
    final product, the configuration and the random source, no trial
    of it runs to its end, so it returns only when there is no trial
    at all, and then the value is infinity. *)
Theorem find_assembly_index_no_index fuel (self : AssemblyAnalysis.t) (rng : Rng) out :
  AssemblyAnalysis.find_assembly_index fuel self rng = Ok out →
  AssemblyAnalysis.n self = 0 ∧ out = (None, self, rng).
Proof.
  unfold AssemblyAnalysis.find_assembly_index.
  destruct (AssemblyAnalysis.n self) as [|n]; simpl; intros H.
  - by injection H as <-.
  - apply bind_Ok in H as ([[idx s1] r1] & H & _).
    apply bind_Ok in H as (st & H & _).
    destruct (find_assembly_index_trial_not_Ok fuel ([], self, rng) st H).
Qed.

Lemma find_assembly_index_no_index_witness :
  AssemblyAnalysis.n (AssemblyAnalysis.init (sym "AB") 0 (4 # 5) 2 (PyBool true) false) = 0
  ∧ (@None nat, AssemblyAnalysis.init (sym "AB") 0 (4 # 5) 2 (PyBool true) false, [7]%N) =
    (None, AssemblyAnalysis.init (sym "AB") 0 (4 # 5) 2 (PyBool true) false, [7]%N).
Proof.
  apply (find_assembly_index_no_index 3
           (AssemblyAnalysis.init (sym "AB") 0 (4 # 5) 2 (PyBool true) false) [7]%N).
  vm_compute. reflexivity.
Defined.

(** ** [get_max_layer] *)

Lemma get_max_layer_Ok df :
  sym "Layer" ∈ columns df →
  AssemblyAnalysis.get_max_layer df =
  Ok (foldl (λ max_depth reaction,
               if decide (max_depth < Layer reaction) then Layer reaction else max_depth)
        0 (rows df) + 1).
Proof.
  intros Hcol. unfold AssemblyAnalysis.get_max_layer.
  assert (∀ l m,
            for_in (λ reaction max_layer,
                      if decide (sym "Layer" ∈ columns df)
                      then Ok (if decide (max_layer < Layer reaction)
                               then Layer reaction else max_layer)
                      else Raise (KeyError (sym "Layer"))) l m =
            Ok (foldl (λ max_depth reaction,
                         if decide (max_depth < Layer reaction)
                         then Layer reaction else max_depth) m l)) as H.
  { induction l as [|r l IH]; intros m; simpl; [done|].
    rewrite decide_True by done. simpl. apply IH. }
  by rewrite H.
Qed.

Lemma Layer_column : sym "Layer" ∈ reaction_columns.
Proof. apply list_elem_of_In. simpl. auto 10. Qed.

(** X17: on the table of a built network [get_max_layer] returns the
    depth that [process_autocatalytic_set] reports, and on each of the
    extracted subnetworks a value between 2 and that depth. *)
Theorem get_max_layer_depth fuel fp p sc po rng s rng' fuel' :
  build_reactions fuel (init fp p sc po) rng = Ok (s, rng') →
  2 ≤ length fp → length fp < fuel' →
  ∃ subnetwork_count autocatalytic_subnetwork_count max_depth s' df,
    AssemblyAnalysis.process_autocatalytic_set fuel' s =
    Ok ([subnetwork_count; autocatalytic_subnetwork_count; max_depth], s')
    ∧ reactions_df s = Some df
    ∧ AssemblyAnalysis.get_max_layer df = Ok max_depth
    ∧ ∀ k sub, subnetwork_dict s' !! k = Some sub →
        ∃ v, AssemblyAnalysis.get_max_layer sub = Ok v ∧ 2 ≤ v ≤ max_depth.
Proof.
  intros Hbuild Hlen Hfuel. apply build_reactions_built in Hbuild.
  destruct (process_autocatalytic_set_built_counts fuel' _ _ _ _ _ Hbuild Hlen Hfuel)
    as (n1 & n2 & md & d & H & Hdom & _ & _ & _ & _ & _ & _ & Hbelow & r0 & Hr0 & Emd).
  destruct (built_frame _ _ _ _ _ Hbuild Hlen) as (_ & Hdf & _).
  exists n1, n2, md, (set_subnetwork_dict s d), (mkDataFrame reaction_columns (reactions s)).
  split; [done|]. split; [done|]. rewrite Forall_forall in Hbelow. split.
  - rewrite get_max_layer_Ok by apply Layer_column. simpl. f_equal.
    destruct (max_depth_foldl (reactions s) 0) as (_ & Hmax & Hwhich).
    rewrite Forall_forall in Hmax. specialize (Hmax r0 Hr0).
    destruct Hwhich as [E|(r & Hr & E)]; [lia|]. specialize (Hbelow r Hr). lia.
  - simpl. intros k sub Hk.
    assert (extract_subnetworks fuel' s = Ok (set_subnetwork_dict s d)) as Hex.
    { unfold AssemblyAnalysis.process_autocatalytic_set in H.
      apply bind_Ok in H as (s1 & Hex & H). apply bind_Ok in H as ([a b] & _ & H).
      by simplify_eq. }
    destruct (extract_subnetworks_feeds fuel' s _ _ k sub Hdf
                (built_subnetwork_dict _ _ _ _ _ Hbuild) Hex Hk)
      as (Hcol & _ & _ & Hrows).
    rewrite get_max_layer_Ok by (rewrite Hcol; apply Layer_column).
    eexists. split; [done|].
    destruct (max_depth_foldl (rows sub) 0) as (_ & Hmax & Hwhich).
    rewrite Forall_forall in Hmax. split.
    + assert (k ∈ dom d) as Hkd by (by apply elem_of_dom; exists sub).
      rewrite Hdom, elem_of_difference, elem_of_list_to_set, list_elem_of_fmap,
        elem_of_singleton in Hkd.
      destruct Hkd as [(r & -> & Hr) Hne].
      assert (r ∈ rows sub) as Hin by (apply Hrows; by constructor).
      specialize (Hmax r Hin).
      pose proof (generated_bounds _ _ _ _ (built_generated _ _ _ _ _ Hbuild)) as B.
      rewrite Forall_forall in B.
      destruct (B (skeleton r)) as (_ & _ & _ & Hroot & _);
        [apply list_elem_of_fmap; by exists r|].
      simpl in Hroot. destruct (decide (Layer r = 0)) as [E|E]; [by destruct Hne; auto|].
      lia.
    + destruct Hwhich as [E|(r & Hr & E)]; [lia|].
      assert (r ∈ reactions s) as Hin.
      { apply Hrows in Hr. clear -Hr. by induction Hr. }
      specialize (Hbelow r Hin). lia.
Qed.

Lemma get_max_layer_depth_witness :
  ∃ subnetwork_count autocatalytic_subnetwork_count max_depth s' df,
    AssemblyAnalysis.process_autocatalytic_set 5 set_ABCD =
    Ok ([subnetwork_count; autocatalytic_subnetwork_count; max_depth], s')
    ∧ reactions_df set_ABCD = Some df
    ∧ AssemblyAnalysis.get_max_layer df = Ok max_depth
    ∧ ∀ k sub, subnetwork_dict s' !! k = Some sub →
        ∃ v, AssemblyAnalysis.get_max_layer sub = Ok v ∧ 2 ≤ v ≤ max_depth.
Proof.
  apply (get_max_layer_depth 4 (sym "ABCD") 0 7 false [1; 0; 0]%N set_ABCD [] 5);
    [vm_compute; reflexivity|vm_compute; lia..].
Defined.
